(** * Time-weighted task scheduler: scorer and greedy packer

    A shallow embedding of the scheduling core of [app.py]
    ([days_until_deadline], [compute_score], [format_time],
    [schedule_tasks_for_day]) together with the properties the
    specification states about it.

    Conventions.
    - Python [int] is [Z]; Python [float] is an IEEE-754 binary64 value,
      written as a [spec_float] with precision 53 and [emax = 1024] and
      operated on with the Standard Library's reference operations
      ([SFmul], [SFdiv], [SFadd], ...), so every rounding step of the
      source is present in the model.
    - A Python [str] is a [string] (its UTF-8 bytes; byte-wise
      lexicographic order coincides with code-point order).
    - A raised exception is the [Raise] branch of [result].
    - The calendar ([date.today()], [datetime.strptime]) and the builtin
      [int(str)] belong to the Python library, not to the program: they
      are section variables, and dates are proleptic Gregorian ordinals
      ([date.toordinal()]). *)

From Stdlib Require Import ZArith List String Ascii Bool Lia SpecFloat.
From Stdlib Require Import Permutation Sorted.
From Stdlib Require DecimalString DecimalZ.
Import ListNotations.
Open Scope Z_scope.

(* ------------------------------------------------------------------ *)
(** ** Exceptions *)

Inductive exn : Type :=
| ValueError
| OverflowError
| ZeroDivisionError.

Inductive result (A : Type) : Type :=
| Ok (a : A)
| Raise (e : exn).

Arguments Ok {A} a.
Arguments Raise {A} e.

Definition bind {A B : Type} (c : result A) (k : A -> result B) : result B :=
  match c with
  | Ok a => k a
  | Raise e => Raise e
  end.

Declare Scope py_scope.
Delimit Scope py_scope with py.
Notation "x <- c ;; k" := (bind c (fun x => k))
  (at level 61, c at next level, right associativity) : py_scope.
Notation "' pat <- c ;; k" := (bind c (fun x => match x with pat => k end))
  (at level 61, pat pattern, c at next level, right associativity) : py_scope.
Open Scope py_scope.

(** [[f(x) for x in l]], stopping at the first exception. *)
Fixpoint map_result {A B : Type} (f : A -> result B) (l : list A) : result (list B) :=
  match l with
  | [] => Ok []
  | x :: l' => y <- f x ;; ys <- map_result f l' ;; Ok (y :: ys)
  end.

(* ------------------------------------------------------------------ *)
(** ** Python floats: IEEE-754 binary64 *)

Module Float64.

Definition prec : Z := 53.
Definition emax : Z := 1024.

Definition float : Type := spec_float.

Definition mul : float -> float -> float := SFmul prec emax.
Definition div : float -> float -> float := SFdiv prec emax.
Definition add : float -> float -> float := SFadd prec emax.
Definition neg : float -> float := SFopp.
Definition ltb : float -> float -> bool := SFltb.
Definition leb : float -> float -> bool := SFleb.
Definition eqb : float -> float -> bool := SFeqb.

(** A float the interpreter can hold: canonical mantissa and exponent. *)
Definition valid (x : float) : bool := valid_binary prec emax x.

Definition zero : float := S754_zero false.
Definition one : float := S754_finite false 4503599627370496 (-52).
Definition two : float := S754_finite false 4503599627370496 (-51).
Definition sixty : float := S754_finite false 8444249301319680 (-47).

Definition is_nan (x : float) : bool :=
  match x with S754_nan => true | _ => false end.

Definition is_finite (x : float) : bool :=
  match x with S754_zero _ | S754_finite _ _ _ => true | _ => false end.

(** Rounds the rational [a / b] ([a >= 0], [b > 0]) to the nearest
    binary64 value, ties to even, with the sign [s]; the quotient digits
    come from the reference division core, which works on arbitrary
    integer mantissas. *)
Definition round_quotient (s : bool) (a b : Z) : float :=
  match a with
  | Z0 => S754_zero s
  | _ =>
    let '(q, e, l) := SFdiv_core_binary prec emax a 0 b 0 in
    binary_round_aux prec emax s q e l
  end.

(** [float(n)] and the implicit conversion of an [int] operand in mixed
    arithmetic: the nearest double, ties to even; [OverflowError] when
    [n] is too large for a double. *)
Definition of_int (n : Z) : result float :=
  match binary_normalize prec emax n 0 false with
  | S754_infinity _ => Raise OverflowError
  | x => Ok x
  end.

(** [a / b] on two [int]s (true division): the correctly rounded
    quotient; [ZeroDivisionError] for [b = 0], [OverflowError] when the
    quotient is too large for a double. *)
Definition int_true_divide (a b : Z) : result float :=
  if b =? 0 then Raise ZeroDivisionError
  else
    match round_quotient (xorb (a <? 0) (b <? 0)) (Z.abs a) (Z.abs b) with
    | S754_infinity _ => Raise OverflowError
    | x => Ok x
    end.

(** [int(x)] on a float: truncation toward zero. *)
Definition to_int (x : float) : result Z :=
  match x with
  | S754_zero _ => Ok 0
  | S754_finite s m e =>
    let a := if 0 <=? e then Z.shiftl (Zpos m) e else Z.shiftr (Zpos m) (- e) in
    Ok (if s then - a else a)
  | S754_infinity _ => Raise OverflowError
  | S754_nan => Raise ValueError
  end.

End Float64.

(* ------------------------------------------------------------------ *)
(** ** Strings *)

Definition digit_char (d : Z) : ascii :=
  ascii_of_nat (48 + Z.to_nat d).

(** ["%02d"] for a value in [0, 99], as [strftime] prints an hour or a
    minute. *)
Definition two_digits (n : Z) : string :=
  String (digit_char (n / 10)) (String (digit_char (n mod 10)) EmptyString).

(** [s.split(":")]: the fields between the colons; never empty. *)
Fixpoint split_colon (s : string) : list string :=
  match s with
  | EmptyString => [EmptyString]
  | String c s' =>
    if Ascii.eqb c ":"%char then EmptyString :: split_colon s'
    else
      match split_colon s' with
      | [] => [String c EmptyString]
      | f :: fs => String c f :: fs
      end
  end.

(* ------------------------------------------------------------------ *)
(** ** The library functions the program calls, on plain ASCII input

    These are instances for the section variables below: the decimal
    reading of [int(str)] and the zero-padded reading of
    [strptime(s, "%Y-%m-%d").date()]. *)

Module PyLib.

Definition digit_value (c : ascii) : option Z :=
  let n := Z.of_nat (nat_of_ascii c) in
  if (48 <=? n) && (n <=? 57) then Some (n - 48) else None.

Fixpoint digits_value (acc : Z) (s : string) : option Z :=
  match s with
  | EmptyString => Some acc
  | String c s' =>
    match digit_value c with
    | Some d => digits_value (10 * acc + d) s'
    | None => None
    end
  end.

(** [int(s)] for an optional sign followed by decimal digits. *)
Definition int_of_str (s : string) : option Z :=
  match s with
  | EmptyString => None
  | String c s' =>
    if Ascii.eqb c "-"%char then
      match s' with
      | EmptyString => None
      | _ => option_map Z.opp (digits_value 0 s')
      end
    else if Ascii.eqb c "+"%char then
      match s' with
      | EmptyString => None
      | _ => digits_value 0 s'
      end
    else digits_value 0 s
  end.

Definition is_leap (y : Z) : bool :=
  (y mod 4 =? 0) && (negb (y mod 100 =? 0) || (y mod 400 =? 0)).

Definition days_in_month (y m : Z) : Z :=
  match m with
  | 2 => if is_leap y then 29 else 28
  | 4 | 6 | 9 | 11 => 30
  | _ => 31
  end.

Definition days_before_year (y : Z) : Z :=
  let p := y - 1 in p * 365 + p / 4 - p / 100 + p / 400.

Fixpoint days_before_month_aux (y : Z) (k : nat) : Z :=
  match k with
  | O => 0
  | S k' => days_before_month_aux y k' + days_in_month y (Z.of_nat k)
  end.

Definition days_before_month (y m : Z) : Z :=
  days_before_month_aux y (Z.to_nat (m - 1)).

(** [date(y, m, d).toordinal()], [None] where the constructor raises. *)
Definition ymd_to_ordinal (y m d : Z) : option Z :=
  if (1 <=? y) && (y <=? 9999) && (1 <=? m) && (m <=? 12)
     && (1 <=? d) && (d <=? days_in_month y m)
  then Some (days_before_year y + days_before_month y m + d)
  else None.

(** The date of a ten-character ["YYYY-MM-DD"] string. *)
Definition strptime_date (s : string) : option Z :=
  match s with
  | String y1 (String y2 (String y3 (String y4 (String d1
      (String m1 (String m2 (String d2 (String a1 (String a2 EmptyString))))))))) =>
    if Ascii.eqb d1 "-"%char && Ascii.eqb d2 "-"%char then
      match digits_value 0 (String y1 (String y2 (String y3 (String y4 EmptyString)))),
            digits_value 0 (String m1 (String m2 EmptyString)),
            digits_value 0 (String a1 (String a2 EmptyString)) with
      | Some y, Some m, Some d => ymd_to_ordinal y m d
      | _, _, _ => None
      end
    else None
  | _ => None
  end.

End PyLib.

(* ------------------------------------------------------------------ *)
(** ** Data model *)

(** A task record as the scheduler reads it (the keys ["title"],
    ["minutes"], ["impact"], ["deadline"] of the stored dict). *)
Record Task : Type := {
  title : string;
  minutes : Z;
  impact : Float64.float;
  deadline : option string
}.

(** A task dict after [t["_score"] = compute_score(t, ...)]. *)
Record ScoredTask : Type := {
  task : Task;
  score : Float64.float
}.

(** One entry of the returned schedule. *)
Record Block : Type := {
  b_title : string;
  b_start : string;
  b_end : string;
  b_minutes : Z;
  b_impact : Float64.float;
  b_deadline : option string
}.

(** A [datetime.time] with zero seconds. *)
Record time : Type := {
  hour : Z;
  minute : Z
}.

(** The integer fits a C [int], into which [datetime.time] converts its
    arguments before it looks at their ranges. *)
Definition fits_c_int (n : Z) : bool := (- 2 ^ 31 <=? n) && (n <? 2 ^ 31).

(** [time(hour=h, minute=m)]: [OverflowError] when an argument does not
    fit a C [int], [ValueError] when one is out of range. *)
Definition mk_time (h m : Z) : result time :=
  if negb (fits_c_int h && fits_c_int m) then Raise OverflowError
  else if (0 <=? h) && (h <=? 23) && (0 <=? m) && (m <=? 59)
  then Ok {| hour := h; minute := m |}
  else Raise ValueError.

(** The exception of [time(hour=h, minute=m)] for a pair out of range. *)
Definition start_error (h m : Z) : exn :=
  if fits_c_int h && fits_c_int m then ValueError else OverflowError.

(** [t.strftime("%H:%M")]. *)
Definition format_time (t : time) : string :=
  two_digits (hour t) ++ ":" ++ two_digits (minute t).

Definition max_ordinal : Z := 3652059.

(** The sort key [(-t["_score"], dl, t["minutes"])]. *)
Definition sort_key_t : Type := (Float64.float * string * Z)%type.

Definition sentinel : string := "9999-12-31".

(** [t.get("deadline") or "9999-12-31"]. *)
Definition deadline_key (t : Task) : string :=
  match deadline t with
  | None => sentinel
  | Some EmptyString => sentinel
  | Some s => s
  end.

Definition sort_key (t : ScoredTask) : sort_key_t :=
  let dl := deadline_key (task t) in
  (Float64.neg (score t), dl, minutes (task t)).

(** [a < b] on two key tuples: the first position where the tuples differ
    (by [==]) decides. *)
Definition key_lt (a b : sort_key_t) : bool :=
  let '(s1, d1, m1) := a in
  let '(s2, d2, m2) := b in
  if negb (Float64.eqb s1 s2) then Float64.ltb s1 s2
  else if negb (String.eqb d1 d2) then String.ltb d1 d2
  else m1 <? m2.

(** [list.sort(key=...)]: a stable sort that compares keys with [<] only.
    An element goes in front of the first already placed element that is
    not smaller than it.  Every stable sort yields this list when [<]
    orders the keys, which it does as long as no score is a NaN.  With a
    NaN among the scores the list [list.sort] leaves depends on the steps
    of its algorithm and need not be this one: what is stated about the
    order of the sorted list is stated for scores without NaN, or on
    lists that both leave as they are. *)
Fixpoint insert_by {A K : Type} (key : A -> K) (lt : K -> K -> bool)
    (x : A) (l : list A) : list A :=
  match l with
  | [] => [x]
  | y :: l' => if lt (key y) (key x) then y :: insert_by key lt x l' else x :: l
  end.

Fixpoint list_sort {A K : Type} (key : A -> K) (lt : K -> K -> bool)
    (l : list A) : list A :=
  match l with
  | [] => []
  | x :: l' => insert_by key lt x (list_sort key lt l')
  end.

(** The loop variables of [schedule_tasks_for_day]. *)
Record loop_state : Type := {
  current_minutes : Z;
  leftover_minutes : Z;
  schedule : list Block
}.

Definition part_suffix : string := " (part)".

Section Scheduler.

(** [date.today().toordinal()]. *)
Variable today : Z.
(** [datetime.strptime(s, DATEFMT).date().toordinal()], [None] when the
    call raises. *)
Variable strptime_date : string -> option Z.
(** [int(s)] on a string, [None] when it raises [ValueError]. *)
Variable int_of_str : string -> option Z.

Definition days_until_deadline (deadline_str : option string) : option Z :=
  match deadline_str with
  | None => None
  | Some EmptyString => None
  | Some s =>
    match strptime_date s with
    | None => None
    | Some d => Some (Z.max 0 (d - today))
    end
  end.

(** [max(0, q)] followed by its use as a float operand: the builtin keeps
    its first argument unless [q > 0]. *)
Definition max0 (q : Float64.float) : Float64.float :=
  if Float64.ltb Float64.zero q then q else Float64.zero.

(** The local [urgency] of [compute_score]. *)
Definition compute_urgency (days_left : option Z) (max_window : Z)
  : result Float64.float :=
  match days_left with
  | None => Ok Float64.one
  | Some d =>
    q <- Float64.int_true_divide (max_window - d) max_window ;;
    Ok (Float64.add Float64.one (max0 q))
  end.

Definition compute_score (t : Task) (max_window : Z) : result Float64.float :=
  let minutes := Z.max 1 (minutes t) in
  let impact := impact t in
  let days_left := days_until_deadline (deadline t) in
  urgency <- compute_urgency days_left max_window ;;
  minutes_f <- Float64.of_int minutes ;;
  Ok (Float64.mul (Float64.div impact minutes_f) urgency).

(** [(datetime.combine(date.today(), t) + timedelta(minutes=n)).time()]. *)
Definition plus_minutes (t : time) (n : Z) : result time :=
  let total := hour t * 60 + minute t + n in
  let day := today + total / 1440 in
  if (1 <=? day) && (day <=? max_ordinal)
  then Ok {| hour := (total mod 1440) / 60; minute := (total mod 1440) mod 60 |}
  else Raise OverflowError.

(** [start_hour, start_min = map(int, start.split(":"))]. *)
Definition parse_start (start : string) : result (Z * Z) :=
  match map int_of_str (split_colon start) with
  | [Some h; Some m] => Ok (h, m)
  | _ => Raise ValueError
  end.

Section Loop.

Variables (start_hour start_min : Z) (allow_split : bool).

(** The block appended for task [t], [n] minutes long, starting
    [current] minutes after the start of the day's plan. *)
Definition make_block (t : Task) (name : string) (current n : Z) : result Block :=
  t0 <- mk_time start_hour start_min ;;
  start_time <- plus_minutes t0 current ;;
  end_time <- plus_minutes start_time n ;;
  Ok {| b_title := name;
        b_start := format_time start_time;
        b_end := format_time end_time;
        b_minutes := n;
        b_impact := impact t;
        b_deadline := deadline t |}.

(** One iteration of the [for] loop, after the [break] test. *)
Definition loop_body (t : Task) (st : loop_state) : result loop_state :=
  let duration := minutes t in
  if duration <=? leftover_minutes st then
    b <- make_block t (title t) (current_minutes st) duration ;;
    Ok {| current_minutes := current_minutes st + duration;
          leftover_minutes := leftover_minutes st - duration;
          schedule := schedule st ++ [b] |}
  else if allow_split && (0 <? leftover_minutes st) then
    let chunk := leftover_minutes st in
    b <- make_block t (title t ++ part_suffix) (current_minutes st) chunk ;;
    Ok {| current_minutes := current_minutes st + chunk;
          leftover_minutes := 0;
          schedule := schedule st ++ [b] |}
  else Ok st.

Fixpoint loop (tasks : list Task) (st : loop_state) : result loop_state :=
  match tasks with
  | [] => Ok st
  | t :: rest =>
    if leftover_minutes st <=? 0 then Ok st
    else st' <- loop_body t st ;; loop rest st'
  end.

End Loop.

(** Lines 57-63: the scored copies, in sorted order. *)
Definition score_and_sort (tasks : list Task) (urgency_window : Z)
  : result (list ScoredTask) :=
  scored <- map_result
              (fun t => s <- compute_score t urgency_window ;;
                        Ok {| task := t; score := s |}) tasks ;;
  Ok (list_sort sort_key key_lt scored).

Definition initial_state (total_minutes : Z) : loop_state :=
  {| current_minutes := 0; leftover_minutes := total_minutes; schedule := [] |}.

Definition schedule_tasks_for_day (tasks : list Task) (hours : Float64.float)
    (start : string) (allow_split : bool) (urgency_window : Z)
  : result (list Block) :=
  sorted <- score_and_sort tasks urgency_window ;;
  total_minutes <- Float64.to_int (Float64.mul hours Float64.sixty) ;;
  '(start_hour, start_min) <- parse_start start ;;
  st <- loop start_hour start_min allow_split (map task sorted)
             (initial_state total_minutes) ;;
  Ok (schedule st).

End Scheduler.

(* ------------------------------------------------------------------ *)
(** ** Vocabulary of the properties *)

(** [sum(block.minutes for block in result)]. *)
Definition sum_minutes (bs : list Block) : Z :=
  fold_right (fun b acc => b_minutes b + acc) 0 bs.

(** Which tasks of the walk receive a block, and of how many minutes:
    the control flow of the [for] loop without the clock arithmetic. *)
Fixpoint allocation (allow_split : bool) (tasks : list Task) (leftover : Z)
  : list (Task * Z) :=
  match tasks with
  | [] => []
  | t :: rest =>
    if leftover <=? 0 then []
    else if minutes t <=? leftover then
      (t, minutes t) :: allocation allow_split rest (leftover - minutes t)
    else if allow_split && (0 <? leftover) then
      (t, leftover) :: allocation allow_split rest 0
    else allocation allow_split rest leftover
  end.

(** A block is partial when it holds fewer minutes than its source task
    stores. *)
Definition is_partial (a : Task * Z) : bool := snd a <? minutes (fst a).

(** The time of day [total] minutes after midnight, wrapping every 24h. *)
Definition time_of_minutes (total : Z) : time :=
  {| hour := (total mod 1440) / 60; minute := (total mod 1440) mod 60 |}.

(** The block of an allocation entry that starts [current] minutes after
    the start of the plan, the plan starting [base] minutes after
    midnight. *)
Definition block_of (base current : Z) (a : Task * Z) : Block :=
  {| b_title := if is_partial a then (title (fst a) ++ part_suffix)%string
                else title (fst a);
     b_start := format_time (time_of_minutes (base + current));
     b_end := format_time (time_of_minutes (base + current + snd a));
     b_minutes := snd a;
     b_impact := impact (fst a);
     b_deadline := deadline (fst a) |}.

Fixpoint render (base current : Z) (al : list (Task * Z)) : list Block :=
  match al with
  | [] => []
  | a :: al' => block_of base current a :: render base (current + snd a) al'
  end.


(** The order of the specification: higher score first; on equal scores
    the smaller deadline key first; on equal keys the shorter task first. *)
Definition ranks_before (a b : ScoredTask) : Prop :=
  Float64.ltb (score b) (score a) = true
  \/ (Float64.eqb (score a) (score b) = true
      /\ (String.ltb (deadline_key (task a)) (deadline_key (task b)) = true
          \/ (deadline_key (task a) = deadline_key (task b)
              /\ minutes (task a) <= minutes (task b)))).

(** The start string denotes an hour and a minute of the day. *)
Definition well_formed_start (int_of_str : string -> option Z) (start : string)
    (h m : Z) : Prop :=
  exists hs ms, split_colon start = [hs; ms]
    /\ int_of_str hs = Some h /\ int_of_str ms = Some m
    /\ 0 <= h <= 23 /\ 0 <= m <= 59.

(** Line 66 can read the start string. *)
Definition parseable_start (int_of_str : string -> option Z) (start : string) : Prop :=
  exists h m, map int_of_str (split_colon start) = [Some h; Some m].

(* ------------------------------------------------------------------ *)
(** ** Vocabulary of the sort *)

(** [b] does not sort strictly before [a]. *)
Definition not_after {A K : Type} (key : A -> K) (lt : K -> K -> bool) (a b : A) : Prop :=
  lt (key b) (key a) = false.

(** The score of a scored task is a number. *)
Definition score_defined (a : ScoredTask) : Prop := Float64.is_nan (score a) = false.

(** A rank whose lexicographic order is the order [SFcompare] decides. *)
Definition float_rank (x : spec_float) : Z * Z * Z :=
  match x with
  | S754_zero _ => (0, 0, 0)
  | S754_infinity false => (2, 0, 0)
  | S754_infinity true => (-2, 0, 0)
  | S754_nan => (0, 0, 0)
  | S754_finite false m e => (1, e, Zpos m)
  | S754_finite true m e => (-1, - e, Zneg m)
  end.

Definition lex3 (a b : Z * Z * Z) : comparison :=
  let '(a1, a2, a3) := a in
  let '(b1, b2, b3) := b in
  match a1 ?= b1 with
  | Eq => match a2 ?= b2 with Eq => a3 ?= b3 | c => c end
  | c => c
  end.

(** Minutes handed out by an allocation. *)
Definition alloc_sum (al : list (Task * Z)) : Z :=
  fold_right (fun a acc => snd a + acc) 0 al.

(** The task [t] with its deadline replaced. *)
Definition with_deadline (t : Task) (dl : option string) : Task :=
  {| title := title t; minutes := minutes t; impact := impact t; deadline := dl |}.

(** [8.0], the default [hours]. *)
Definition eight : Float64.float := S754_finite false 4503599627370496 (-49).

(** The largest [int] that converts to a double. *)
Definition max_convertible : Z := 2 ^ 1024 - 2 ^ 970 - 1.

(* ------------------------------------------------------------------ *)
(** ** Vocabulary of binary64 rounding

    The reference operations round through [binary_round_aux]: right
    shifts that keep a round bit and a sticky bit, then a rounding to
    nearest even.  The definitions below restate that step on integers,
    so that it can be compared across inputs. *)

Definition b2z (b : bool) : Z := if b then 1 else 0.

(** The record [(m, r, s)] as the integer [4m + 2r + s]: the value in
    quarter units, its last bit set when something was shifted out. *)
Definition rec_code (r : shr_record) : Z :=
  4 * shr_m r + 2 * b2z (shr_r r) + b2z (shr_s r).

Definition loc_code (l : location) : Z :=
  match l with
  | loc_Exact => 0
  | loc_Inexact Lt => 1
  | loc_Inexact Eq => 2
  | loc_Inexact Gt => 3
  end.

(** [T / 2^n], the last bit set when the division is inexact. *)
Definition sticky (T n : Z) : Z :=
  if T mod 2 ^ n =? 0 then T / 2 ^ n else 2 * (T / 2 ^ (n + 1)) + 1.

(** [T / 2^k] rounded to nearest, ties to even. *)
Definition rne (T k : Z) : Z :=
  let q := T / 2 ^ k in
  let r := T mod 2 ^ k in
  let h := 2 ^ (k - 1) in
  if r <? h then q
  else if h <? r then q + 1
  else if Z.even q then q else q + 1.

(** The exponent of the format at a given magnitude. *)
Abbreviation fexp64 := (fexp Float64.prec Float64.emax).

(** Mantissa and exponent of the binary64 value nearest to
    [T * 2^(e-2)], for a sticky-coded [T]. *)
Definition round_mant (T e : Z) : Z * Z :=
  let E := fexp64 (Zdigits2 (T / 4) + e) in
  let M := rne T (E - e + 2) in
  if M =? 2 ^ 53 then (2 ^ 52, E + 1) else (M, E).

(** The float of a mantissa and an exponent: zero, finite, or infinite
    past the largest exponent. *)
Definition pack_float (s : bool) (me : Z * Z) : spec_float :=
  match fst me with
  | Z0 => S754_zero s
  | Zpos p => if snd me <=? 971 then S754_finite s p (snd me) else S754_infinity s
  | Zneg _ => S754_nan
  end.

(** The input is at least as fine as the format. *)
Definition fine (m e : Z) : Prop := e <= fexp64 (Zdigits2 m + e).

(** Mantissa and exponent of a binary64 value, or a zero mantissa. *)
Definition canonical_pair (p : Z * Z) : Prop :=
  fst p = 0
  \/ (0 < fst p < 2 ^ 53 /\ -1074 <= snd p /\ (2 ^ 52 <= fst p \/ snd p = -1074)).

(** Order of the values [M * 2^E] of two canonical pairs. *)
Definition pair_le (p1 p2 : Z * Z) : Prop :=
  fst p1 = 0
  \/ (fst p2 <> 0 /\ (snd p1 < snd p2 \/ (snd p1 = snd p2 /\ fst p1 <= fst p2))).

(** [N / b], the last bit set when the division is inexact. *)
Definition squot (N b : Z) : Z :=
  if N mod b =? 0 then N / b else 2 * (N / (2 * b)) + 1.

(** The exponent the division core works at. *)
Definition div_exp (m1 e1 m2 e2 : Z) : Z :=
  Z.min (fexp64 (Zdigits2 m1 + e1 - (Zdigits2 m2 + e2))) (e1 - e2).

(** The rounded quotient of two positive integers as a canonical pair. *)
Definition quot_pair (a b : Z) : Z * Z :=
  let e' := div_exp a 0 b 0 in
  round_mant (squot (4 * (a * 2 ^ (- e'))) b) e'.

(** The rounded value of a positive integer as a canonical pair. *)
Definition int_pair (n : Z) : Z * Z :=
  let k := Z.max 0 (- fexp64 (Zdigits2 n)) in
  round_mant (4 * (n * 2 ^ k)) (- k).

(** Mantissa and exponent of the urgency for a window [w] and [d] days
    left. *)
Definition urgency_pair (w d : Z) : Z * Z :=
  if w - d <=? 0 then (2 ^ 52, -52)
  else
    let Q := quot_pair (w - d) w in
    if fst Q =? 0 then (2 ^ 52, -52)
    else round_mant (4 * (2 ^ (- snd Q) + fst Q)) (snd Q).

(** A non-negative, possibly infinite value. *)
Definition nonneg_float (x : Float64.float) : Prop :=
  x = S754_zero false \/ x = S754_infinity false
  \/ exists m e, x = S754_finite false m e /\ Float64.valid x = true.

(* ------------------------------------------------------------------ *)
(** ** A concrete day

    The run of 2026-11-03 on which the statements below are tried, with
    the library instances of [PyLib]. *)

Module Demo.

(** [date(2026, 11, 3).toordinal()]. *)
Definition today : Z := 739923.

Definition run :=
  schedule_tasks_for_day today PyLib.strptime_date PyLib.int_of_str.

Definition score_of := compute_score today PyLib.strptime_date.

(** [-1.0]. *)
Definition minus_one : Float64.float := S754_finite true 4503599627370496 (-52).

Definition report : Task :=
  {| title := "report"; minutes := 300; impact := Float64.one; deadline := None |}.

Definition review : Task :=
  {| title := "review"; minutes := 300; impact := Float64.one;
     deadline := Some "2026-11-05"%string |}.


Definition archive : Task :=
  {| title := "archive"; minutes := 2; impact := Float64.two;
     deadline := Some "9999-12-31"%string |}.

Definition call : Task :=
  {| title := "call"; minutes := 1; impact := Float64.one; deadline := None |}.

Definition century : Task :=
  {| title := "century"; minutes := 2 ^ 1024; impact := Float64.one; deadline := None |}.

Definition vague : Task :=
  {| title := "vague"; minutes := 45; impact := Float64.two;
     deadline := Some "next week"%string |}.

Definition review_block : Block :=
  {| b_title := "review"; b_start := "09:00"; b_end := "14:00"; b_minutes := 300;
     b_impact := Float64.one; b_deadline := Some "2026-11-05"%string |}.

Definition report_part : Block :=
  {| b_title := "report (part)"; b_start := "14:00"; b_end := "17:00"; b_minutes := 180;
     b_impact := Float64.one; b_deadline := None |}.


Definition late_report_block : Block :=
  {| b_title := "report"; b_start := "20:00"; b_end := "01:00"; b_minutes := 300;
     b_impact := Float64.one; b_deadline := None |}.

Definition call_block : Block :=
  {| b_title := "call"; b_start := "09:00"; b_end := "09:01"; b_minutes := 1;
     b_impact := Float64.one; b_deadline := None |}.

Definition archive_block : Block :=
  {| b_title := "archive"; b_start := "09:01"; b_end := "09:03"; b_minutes := 2;
     b_impact := Float64.two; b_deadline := Some "9999-12-31"%string |}.

End Demo.

(* ------------------------------------------------------------------ *)
(** ** Vocabulary of the walk *)

(** The tasks the [for] loop passes without appending a block: those
    after the [break], and those skipped for not fitting. *)
Fixpoint unplaced (allow_split : bool) (tasks : list Task) (leftover : Z) : list Task :=
  match tasks with
  | [] => []
  | t :: rest =>
    if leftover <=? 0 then t :: rest
    else if minutes t <=? leftover then unplaced allow_split rest (leftover - minutes t)
    else if allow_split && (0 <? leftover) then unplaced allow_split rest 0
    else t :: unplaced allow_split rest leftover
  end.

(** [l1] is [l2] with some elements left out. *)
Inductive subsequence {A : Type} : list A -> list A -> Prop :=
| subsequence_nil : subsequence [] []
| subsequence_skip x l1 l2 : subsequence l1 l2 -> subsequence l1 (x :: l2)
| subsequence_keep x l1 l2 : subsequence l1 l2 -> subsequence (x :: l1) (x :: l2).

(** [sum(t["minutes"] for t in tasks)]. *)
Definition task_minutes (tasks : list Task) : Z :=
  fold_right (fun t acc => minutes t + acc) 0 tasks.

(** The block [b] shows task [t], whole or as its split part. *)
Definition block_shows (allow_split : bool) (b : Block) (t : Task) : Prop :=
  b_impact b = impact t /\ b_deadline b = deadline t
  /\ ((b_title b = title t /\ b_minutes b = minutes t)
      \/ (allow_split = true /\ b_title b = (title t ++ part_suffix)%string
          /\ 0 < b_minutes b < minutes t)).

(* ------------------------------------------------------------------ *)
(** ** Times of day *)

(** The time of day is in the ranges of [datetime.time]. *)
Definition valid_time (t : time) : Prop :=
  0 <= hour t <= 23 /\ 0 <= minute t <= 59.

(** Minutes since midnight. *)
Definition minute_of_day (t : time) : Z := hour t * 60 + minute t.

(* ------------------------------------------------------------------ *)
(** ** Vocabulary of the order of scores *)

(** The rounded quotient of two positive binary64 values, given by their
    mantissas and exponents, as a canonical pair. *)
Definition div_pair (m1 e1 m2 e2 : Z) : Z * Z :=
  let e' := div_exp m1 e1 m2 e2 in
  round_mant (squot (4 * (m1 * 2 ^ (e1 - e2 - e'))) m2) e'.

(** The rounded product of the value of a canonical pair, zero when the
    mantissa is zero, with a positive binary64 value. *)
Definition mul_pair (p : Z * Z) (mu eu : Z) : Z * Z :=
  if fst p =? 0 then (0, 0)
  else round_mant (4 * (fst p * mu)) (snd p + eu).

(** Order of the values [m1 * 2^e1] and [m2 * 2^e2]. *)
Definition value_le (m1 e1 m2 e2 : Z) : Prop :=
  m1 * 2 ^ (e1 - Z.min e1 e2) <= m2 * 2 ^ (e2 - Z.min e1 e2).

(** The task [t] with its stored minutes or its impact replaced. *)
Definition with_minutes (t : Task) (n : Z) : Task :=
  {| title := title t; minutes := n; impact := impact t; deadline := deadline t |}.

Definition with_impact (t : Task) (x : Float64.float) : Task :=
  {| title := title t; minutes := minutes t; impact := x; deadline := deadline t |}.

(* ------------------------------------------------------------------ *)
(** ** The task store and the routes

    [tasks.json] is the state the routes thread; a page is what a route
    hands to the template or to [flash].  [json.loads] is taken to give
    back what [json.dumps] wrote. *)

(** One element of the list under ["tasks"]; [r_task] gathers the keys
    the scheduler reads. *)
Record TaskRecord : Type := {
  r_id : Z;
  r_task : Task;
  r_notes : string
}.

(** The file: missing, or holding the list under ["tasks"]. *)
Definition task_file : Type := option (list TaskRecord).

Definition load_tasks (f : task_file) : list TaskRecord :=
  match f with
  | None => []
  | Some data => data
  end.

Definition save_tasks (data : list TaskRecord) : task_file := Some data.

(** [str(n)] on an [int]. *)
Definition str_of_int (n : Z) : string :=
  DecimalString.NilZero.string_of_int (Z.to_int n).

(** The messages handed to [flash]. *)
Inductive flash : Type :=
| flash_required
| flash_not_numeric
| flash_added (title : string)
| flash_removed (n : Z).

(** [request.form]: the value posted under a key, if any. *)
Definition form : Type := string -> option string.

(** [request.form.get(key, default)]. *)
Definition form_get (fm : form) (key default : string) : string :=
  match fm key with
  | Some v => v
  | None => default
  end.

(** [s or None]. *)
Definition or_none (s : string) : option string :=
  match s with
  | EmptyString => None
  | _ => Some s
  end.

(** [not s]. *)
Definition is_empty (s : string) : bool :=
  match s with
  | EmptyString => true
  | _ => false
  end.

(** The key of [index] and [schedule_route]:
    [lambda t: (t.get("deadline") or "9999-12-31")]. *)
Definition record_key (r : TaskRecord) : string := deadline_key (r_task r).

(** [index]: the task list handed to the template. *)
Definition index (f : task_file) : list TaskRecord :=
  list_sort record_key String.ltb (load_tasks f).

(** [remove_task]: the file written and the message flashed. *)
Definition remove_task (task_id : string) (f : task_file) : task_file * flash :=
  let data := load_tasks f in
  let before := Z.of_nat (List.length data) in
  let data' :=
    filter (fun t => negb (String.eqb (str_of_int (r_id t)) task_id)) data in
  let after := Z.of_nat (List.length data') in
  (save_tasks data', flash_removed (before - after)).

Section Routes.

(** [s.strip()]. *)
Variable strip : string -> string.
(** [int(s)] and [float(s)] on a string, [None] when they raise. *)
Variable int_of_str : string -> option Z.
Variable float_of_str : string -> option Float64.float.
(** [int(datetime.now().timestamp() * 1000)]. *)
Variable now_ms : Z.

(** [add_task]: the file afterwards and the message flashed. *)
Definition add_task (fm : form) (f : task_file) : task_file * flash :=
  let title := strip (form_get fm "title" EmptyString) in
  let minutes := strip (form_get fm "minutes" EmptyString) in
  let impact := strip (form_get fm "impact" EmptyString) in
  let deadline := or_none (strip (form_get fm "deadline" EmptyString)) in
  let notes := strip (form_get fm "notes" EmptyString) in
  if is_empty title || is_empty minutes || is_empty impact
  then (f, flash_required)
  else
    match int_of_str minutes with
    | None => (f, flash_not_numeric)
    | Some minutes =>
      match float_of_str impact with
      | None => (f, flash_not_numeric)
      | Some impact =>
        let data := load_tasks f in
        let task := {| r_id := now_ms;
                       r_task := {| title := title; minutes := minutes;
                                    impact := impact; deadline := deadline |};
                       r_notes := notes |} in
        (save_tasks (data ++ [task]), flash_added title)
      end
    end.

End Routes.

(** Instances for [strip] and [float] on plain ASCII input. *)
Module PyStr.

(** [c.isspace()] for an ASCII character. *)
Definition is_space (c : ascii) : bool :=
  let n := Z.of_nat (nat_of_ascii c) in
  ((9 <=? n) && (n <=? 13)) || ((28 <=? n) && (n <=? 32)).

Fixpoint lstrip (s : string) : string :=
  match s with
  | EmptyString => EmptyString
  | String c s' => if is_space c then lstrip s' else s
  end.

Fixpoint rstrip (s : string) : string :=
  match s with
  | EmptyString => EmptyString
  | String c s' =>
    match rstrip s' with
    | EmptyString => if is_space c then EmptyString else String c EmptyString
    | r => String c r
    end
  end.

Definition strip (s : string) : string := rstrip (lstrip s).

(** [float(s)] for an optional sign followed by decimal digits. *)
Definition float_of_str (s : string) : option Float64.float :=
  match PyLib.int_of_str s with
  | None => None
  | Some n =>
    let negative := match s with String c _ => Ascii.eqb c "-"%char | _ => false end in
    Some (binary_normalize Float64.prec Float64.emax n 0 negative)
  end.

End PyStr.

(** ** A concrete store *)

Module DemoStore.

Definition stored_report : TaskRecord :=
  {| r_id := 1793700000000; r_task := Demo.report; r_notes := EmptyString |}.

Definition stored_review : TaskRecord :=
  {| r_id := 1793700000007; r_task := Demo.review; r_notes := "two readers" |}.

Definition stored_call : TaskRecord :=
  {| r_id := 7; r_task := Demo.call; r_notes := EmptyString |}.

(** A posted form for [add_task]. *)
Definition call_form : form :=
  fun key =>
    if String.eqb key "title" then Some " call "%string
    else if String.eqb key "minutes" then Some "1"%string
    else if String.eqb key "impact" then Some "1"%string
    else if String.eqb key "deadline" then Some "  "%string
    else None.

Definition add := add_task PyStr.strip PyLib.int_of_str PyStr.float_of_str.

End DemoStore.

(* ------------------------------------------------------------------ *)
(** ** Dates written without padding

    [strptime] also reads a month or a day written without its leading
    zero; this instance does, on plain ASCII input. *)

Module PyDate.

(** [s.split(sep)] for a one-character separator. *)
Fixpoint split_on (sep : ascii) (s : string) : list string :=
  match s with
  | EmptyString => [EmptyString]
  | String c s' =>
    if Ascii.eqb c sep then EmptyString :: split_on sep s'
    else
      match split_on sep s' with
      | [] => [String c EmptyString]
      | f :: fs => String c f :: fs
      end
  end.

(** The field of a month or a day: one or two digits, or for a day a
    space and one digit; the value is checked by the caller. *)
Definition short_field (allow_space : bool) (s : string) : option Z :=
  match s with
  | String c EmptyString => PyLib.digit_value c
  | String c1 (String c2 EmptyString) =>
    if allow_space && Ascii.eqb c1 " "%char then PyLib.digit_value c2
    else PyLib.digits_value 0 s
  | _ => None
  end.

(** [datetime.strptime(s, "%Y-%m-%d").date().toordinal()] on ASCII input:
    four digits of year, month and day with or without a leading zero. *)
Definition strptime_date (s : string) : option Z :=
  match split_on "-" s with
  | [y; m; d] =>
    match y with
    | String _ (String _ (String _ (String _ EmptyString))) =>
      match PyLib.digits_value 0 y, short_field false m, short_field true d with
      | Some yv, Some mv, Some dv =>
        if (1 <=? mv) && (1 <=? dv) then PyLib.ymd_to_ordinal yv mv dv else None
      | _, _, _ => None
      end
    | _ => None
    end
  | _ => None
  end.

End PyDate.

(** ** Tasks that tie, one whose score is no number, one that runs
    backwards *)

Module DemoMore.

Definition one_minute (name : string) (x : Float64.float) (dl : option string) : Task :=
  {| title := name; minutes := 1; impact := x; deadline := dl |}.

Definition slow : Task := one_minute "slow" Float64.one None.
Definition odd : Task := one_minute "odd" S754_nan None.
Definition fast : Task := one_minute "fast" Float64.two None.

Definition jan5 : Task := one_minute "jan5" Float64.one (Some "2027-1-5"%string).
Definition jan10 : Task := one_minute "jan10" Float64.one (Some "2027-01-10"%string).
Definition sooner : Task := one_minute "sooner" Float64.one (Some "2027-01-05"%string).

Definition rewind : Task :=
  {| title := "rewind"; minutes := -2000000000; impact := Float64.one; deadline := None |}.

(** The block of a task placed whole. *)
Definition whole_block (t : Task) (from to : string) : Block :=
  {| b_title := title t; b_start := from; b_end := to; b_minutes := minutes t;
     b_impact := impact t; b_deadline := deadline t |}.

Definition scored (t : Task) (x : Float64.float) : ScoredTask :=
  {| task := t; score := x |}.

End DemoMore.

(* ------------------------------------------------------------------ *)
(** * Proofs *)

Ltac dlia := Z.div_mod_to_equations; lia.
Ltac dnia := Z.div_mod_to_equations; nia.

(** ** The error monad *)

Lemma bind_Ok {A B : Type} (c : result A) (k : A -> result B) (b : B) :
  bind c k = Ok b -> exists a, c = Ok a /\ k a = Ok b.
Proof. destruct c as [a|e]; simpl; intros H; [eauto | discriminate]. Qed.

Ltac inv_bind H :=
  let a := fresh "x" in
  let H1 := fresh "E" in
  apply bind_Ok in H; destruct H as (a & H1 & H).

(** ** Clock arithmetic *)

Lemma mk_time_Ok h m t :
  mk_time h m = Ok t ->
  t = {| hour := h; minute := m |} /\ 0 <= h <= 23 /\ 0 <= m <= 59.
Proof.
  unfold mk_time.
  destruct (negb (fits_c_int h && fits_c_int m)); [discriminate|].
  destruct ((0 <=? h) && (h <=? 23) && (0 <=? m) && (m <=? 59)) eqn:E; [|discriminate].
  intros [= <-]. split; [reflexivity|]. lia.
Qed.

Lemma mk_time_valid h m :
  0 <= h <= 23 -> 0 <= m <= 59 -> mk_time h m = Ok {| hour := h; minute := m |}.
Proof.
  intros Hh Hm. unfold mk_time, fits_c_int.
  replace ((- 2 ^ 31 <=? h) && (h <? 2 ^ 31) && ((- 2 ^ 31 <=? m) && (m <? 2 ^ 31)))
    with true by (symmetry; rewrite !andb_true_iff; lia).
  cbn [negb].
  replace ((0 <=? h) && (h <=? 23) && (0 <=? m) && (m <=? 59)) with true; [reflexivity|].
  symmetry. rewrite !andb_true_iff. lia.
Qed.

Lemma time_of_minutes_total x :
  hour (time_of_minutes x) * 60 + minute (time_of_minutes x) = x mod 1440.
Proof.
  unfold time_of_minutes; simpl.
  pose proof (Z.div_mod (x mod 1440) 60). lia.
Qed.

Lemma time_of_minutes_mod x : time_of_minutes (x mod 1440) = time_of_minutes x.
Proof. unfold time_of_minutes. now rewrite Z.mod_mod by lia. Qed.

Lemma time_of_minutes_shift x n :
  time_of_minutes (x mod 1440 + n) = time_of_minutes (x + n).
Proof.
  unfold time_of_minutes.
  now rewrite (Z.add_mod_idemp_l x n 1440) by lia.
Qed.

Lemma time_of_minutes_small h m :
  0 <= h <= 23 -> 0 <= m <= 59 ->
  time_of_minutes (h * 60 + m) = {| hour := h; minute := m |}.
Proof.
  intros Hh Hm. unfold time_of_minutes.
  rewrite (Z.mod_small (h * 60 + m)) by lia.
  f_equal.
  - symmetry. apply (Z.div_unique _ 60 h m); lia.
  - symmetry. apply (Z.mod_unique _ 60 h m); lia.
Qed.

Section Clock.
Variable today : Z.

Lemma plus_minutes_Ok t n t' :
  plus_minutes today t n = Ok t' ->
  t' = time_of_minutes (hour t * 60 + minute t + n).
Proof.
  unfold plus_minutes.
  destruct (_ && _); [|discriminate]. now intros [= <-].
Qed.

Lemma plus_minutes_in_range t n :
  1 <= today + (hour t * 60 + minute t + n) / 1440 <= max_ordinal ->
  plus_minutes today t n = Ok (time_of_minutes (hour t * 60 + minute t + n)).
Proof.
  intros H. unfold plus_minutes.
  replace (_ && _) with true; [reflexivity|].
  symmetry. rewrite andb_true_iff. lia.
Qed.

Lemma make_block_Ok h m t name c n b :
  make_block today h m t name c n = Ok b ->
  (0 <= h <= 23 /\ 0 <= m <= 59) /\
  b = {| b_title := name;
         b_start := format_time (time_of_minutes (h * 60 + m + c));
         b_end := format_time (time_of_minutes (h * 60 + m + c + n));
         b_minutes := n;
         b_impact := impact t;
         b_deadline := deadline t |}.
Proof.
  unfold make_block. intros H.
  inv_bind H. inv_bind H. inv_bind H.
  apply mk_time_Ok in E as (-> & Hh & Hm).
  apply plus_minutes_Ok in E0, E1. simpl in E0. subst x0 x1.
  injection H as <-.
  pose proof (time_of_minutes_total (h * 60 + m + c)) as Hx.
  cbn [time_of_minutes hour minute] in Hx.
  rewrite Hx, time_of_minutes_shift. auto.
Qed.
End Clock.

(** ** The loop against the allocation *)

Lemma sum_minutes_app bs1 bs2 :
  sum_minutes (bs1 ++ bs2) = sum_minutes bs1 + sum_minutes bs2.
Proof. induction bs1; simpl; [reflexivity|]. unfold sum_minutes in *. simpl. lia. Qed.

Lemma sum_minutes_render base c al : sum_minutes (render base c al) = alloc_sum al.
Proof.
  revert c. induction al as [|a al IH]; intros c; simpl; [reflexivity|].
  unfold sum_minutes in *. simpl. now rewrite IH.
Qed.

Section LoopSpec.
Variables (today h m : Z) (allow_split : bool).

Lemma loop_render tasks : forall st st',
  loop today h m allow_split tasks st = Ok st' ->
  let al := allocation allow_split tasks (leftover_minutes st) in
  schedule st' = schedule st ++ render (h * 60 + m) (current_minutes st) al
  /\ current_minutes st' = current_minutes st + alloc_sum al
  /\ leftover_minutes st' = leftover_minutes st - alloc_sum al
  /\ (al <> [] -> 0 <= h <= 23 /\ 0 <= m <= 59).
Proof.
  induction tasks as [|t rest IH]; intros st st' H; simpl in *.
  - injection H as <-. rewrite app_nil_r. simpl. repeat split; try lia; congruence.
  - destruct (leftover_minutes st <=? 0) eqn:Hl.
    + injection H as <-. rewrite app_nil_r. simpl. repeat split; try lia; congruence.
    + inv_bind H. unfold loop_body in E.
      destruct (minutes t <=? leftover_minutes st) eqn:Hfit.
      * inv_bind E. injection E as <-.
        apply make_block_Ok in E0 as (Hhm & ->).
        apply IH in H. simpl in H. destruct H as (Hs & Hc & Hlo & _).
        rewrite Hs, Hc, Hlo, <- app_assoc. simpl.
        unfold block_of at 1, is_partial; simpl.
        rewrite Z.ltb_irrefl. repeat split; lia.
      * destruct (allow_split && (0 <? leftover_minutes st)) eqn:Hsp.
        -- inv_bind E. injection E as <-.
           apply make_block_Ok in E0 as (Hhm & ->).
           apply IH in H. simpl in H. destruct H as (Hs & Hc & Hlo & _).
           rewrite Hs, Hc, Hlo, <- app_assoc. simpl.
           unfold block_of at 1, is_partial; simpl.
           replace (leftover_minutes st <? minutes t) with true by (symmetry; lia).
           repeat split; lia.
        -- injection E as <-. apply IH in H. exact H.
Qed.
End LoopSpec.

(** ** Properties of the allocation *)

Lemma allocation_nonpos s tasks L : L <= 0 -> allocation s tasks L = [].
Proof. intros H. destruct tasks; simpl; [reflexivity|]. now replace (L <=? 0) with true by lia. Qed.

Lemma allocation_budget s tasks : forall L,
  0 <= L -> alloc_sum (allocation s tasks L) <= L.
Proof.
  induction tasks as [|t rest IH]; intros L HL; simpl; [lia|].
  destruct (L <=? 0) eqn:E0; simpl; [lia|].
  destruct (minutes t <=? L) eqn:E1; simpl.
  - specialize (IH (L - minutes t)). lia.
  - destruct (s && (0 <? L)); simpl.
    + rewrite allocation_nonpos by lia. simpl. lia.
    + now apply IH.
Qed.

Lemma allocation_partial s tasks : forall L pre a post,
  allocation s tasks L = pre ++ a :: post ->
  is_partial a = true ->
  post = [] /\ s = true /\ alloc_sum (allocation s tasks L) = L.
Proof.
  induction tasks as [|t rest IH]; intros L pre a post H Hp; simpl in *.
  - destruct pre; discriminate.
  - destruct (L <=? 0) eqn:E0; [destruct pre; discriminate|].
    destruct (minutes t <=? L) eqn:E1.
    + destruct pre as [|p pre]; simpl in H.
      * injection H as <- _. unfold is_partial in Hp; simpl in Hp. lia.
      * injection H as _ H. apply IH in H; [|assumption].
        destruct H as (-> & -> & Hs). simpl. repeat split; lia.
    + destruct (s && (0 <? L)) eqn:E2.
      * rewrite allocation_nonpos in * by lia.
        destruct pre as [|p pre]; simpl in H.
        -- injection H as <- <-. apply andb_true_iff in E2. simpl. repeat split; try tauto; lia.
        -- injection H as _ H. destruct pre; discriminate.
      * eapply IH; eassumption.
Qed.

Lemma allocation_minutes_le s tasks : forall L,
  Forall (fun a => snd a <= minutes (fst a)) (allocation s tasks L).
Proof.
  induction tasks as [|t rest IH]; intros L; simpl; [constructor|].
  destruct (L <=? 0) eqn:E0; [constructor|].
  destruct (minutes t <=? L) eqn:E1.
  - constructor; [simpl; lia | apply IH].
  - destruct (s && (0 <? L)); [|apply IH].
    constructor; [simpl; lia | apply IH].
Qed.



(** ** Order of the printed times *)

Lemma digit_char_compare a b :
  0 <= a <= 9 -> 0 <= b <= 9 ->
  Ascii.compare (digit_char a) (digit_char b) = (a ?= b).
Proof.
  intros Ha Hb.
  assert (Ea : a = 0 \/ a = 1 \/ a = 2 \/ a = 3 \/ a = 4 \/ a = 5 \/ a = 6
               \/ a = 7 \/ a = 8 \/ a = 9) by lia.
  assert (Eb : b = 0 \/ b = 1 \/ b = 2 \/ b = 3 \/ b = 4 \/ b = 5 \/ b = 6
               \/ b = 7 \/ b = 8 \/ b = 9) by lia.
  repeat (destruct Ea as [-> | Ea]); try subst a;
    repeat (destruct Eb as [-> | Eb]); try subst b; reflexivity.
Qed.

Lemma two_digits_compare a b s t :
  0 <= a <= 99 -> 0 <= b <= 99 ->
  String.compare (two_digits a ++ s) (two_digits b ++ t) =
  match a ?= b with Eq => String.compare s t | c => c end.
Proof.
  intros Ha Hb. unfold two_digits. cbn [append String.compare].
  assert (0 <= a / 10 <= 9 /\ 0 <= a mod 10 <= 9 /\ a = 10 * (a / 10) + a mod 10) as (? & ? & ?)
    by (pose proof (Z.div_mod a 10); pose proof (Z.mod_pos_bound a 10); lia).
  assert (0 <= b / 10 <= 9 /\ 0 <= b mod 10 <= 9 /\ b = 10 * (b / 10) + b mod 10) as (? & ? & ?)
    by (pose proof (Z.div_mod b 10); pose proof (Z.mod_pos_bound b 10); lia).
  rewrite (digit_char_compare (a / 10) (b / 10)), (digit_char_compare (a mod 10) (b mod 10))
    by assumption.
  destruct (a / 10 ?= b / 10) eqn:Et; destruct (a mod 10 ?= b mod 10) eqn:Eu;
    destruct (a ?= b) eqn:Eab; try reflexivity; exfalso;
    rewrite ?Z.compare_eq_iff, ?Z.compare_lt_iff, ?Z.compare_gt_iff in *; lia.
Qed.

Lemma format_time_lt x y :
  0 <= x -> x < y -> y < 1440 ->
  String.ltb (format_time (time_of_minutes x)) (format_time (time_of_minutes y)) = true.
Proof.
  intros Hx Hxy Hy. unfold String.ltb, format_time, time_of_minutes.
  cbn [hour minute].
  rewrite (Z.mod_small x 1440), (Z.mod_small y 1440) by lia.
  assert (0 <= x / 60 <= 23 /\ 0 <= x mod 60 <= 59 /\ x = 60 * (x / 60) + x mod 60) as (? & ? & ?)
    by (pose proof (Z.div_mod x 60); pose proof (Z.mod_pos_bound x 60); lia).
  assert (0 <= y / 60 <= 23 /\ 0 <= y mod 60 <= 59 /\ y = 60 * (y / 60) + y mod 60) as (? & ? & ?)
    by (pose proof (Z.div_mod y 60); pose proof (Z.mod_pos_bound y 60); lia).
  rewrite two_digits_compare by lia.
  change (":" ++ ?s)%string with (String ":" s).
  cbn [String.compare]. change (Ascii.compare ":" ":") with Eq. cbn iota.
  change (two_digits (x mod 60)) with (two_digits (x mod 60) ++ EmptyString)%string.
  change (two_digits (y mod 60)) with (two_digits (y mod 60) ++ EmptyString)%string.
  rewrite two_digits_compare by lia.
  cbn [String.compare].
  destruct (x / 60 ?= y / 60) eqn:Eh; destruct (x mod 60 ?= y mod 60) eqn:Em;
    try reflexivity; exfalso;
    rewrite ?Z.compare_eq_iff, ?Z.compare_lt_iff, ?Z.compare_gt_iff in *; lia.
Qed.


Lemma allocation_one_partial s tasks : forall L,
  (List.length (filter is_partial (allocation s tasks L)) <= 1)%nat.
Proof.
  induction tasks as [|t rest IH]; intros L; simpl; [lia|].
  destruct (L <=? 0) eqn:E0; [simpl; lia|].
  destruct (minutes t <=? L) eqn:E1.
  - simpl. unfold is_partial at 1. simpl. rewrite Z.ltb_irrefl. apply IH.
  - destruct (s && (0 <? L)); [|apply IH].
    rewrite allocation_nonpos by lia. simpl. destruct (is_partial (t, L)); simpl; lia.
Qed.

(** ** Order of binary64 values *)

Lemma SFcompare_rank x y :
  Float64.is_nan x = false -> Float64.is_nan y = false ->
  SFcompare x y = Some (lex3 (float_rank x) (float_rank y)).
Proof.
  destruct x as [sx|sx| |sx mx ex], y as [sy|sy| |sy my ey]; try discriminate;
    intros _ _; try destruct sx; try destruct sy; try reflexivity; simpl.
  rewrite Z.compare_opp, (Z.compare_antisym ex ey).
  change (PosDef.Pos.compare_cont Eq mx my) with (Pos.compare mx my).
  destruct (ex ?= ey); reflexivity.
Qed.

Lemma lex3_refl a : lex3 a a = Eq.
Proof. destruct a as [[a1 a2] a3]. simpl. now rewrite !Z.compare_refl. Qed.

Lemma lex3_antisym a b : lex3 b a = CompOpp (lex3 a b).
Proof.
  destruct a as [[a1 a2] a3], b as [[b1 b2] b3]. simpl.
  rewrite (Z.compare_antisym a1 b1), (Z.compare_antisym a2 b2), (Z.compare_antisym a3 b3).
  destruct (a1 ?= b1), (a2 ?= b2), (a3 ?= b3); reflexivity.
Qed.

Lemma lex3_Eq a b : lex3 a b = Eq <-> a = b.
Proof.
  destruct a as [[a1 a2] a3], b as [[b1 b2] b3]. simpl. split.
  - destruct (a1 ?= b1) eqn:E1; try discriminate.
    destruct (a2 ?= b2) eqn:E2; try discriminate. intros E3.
    apply Z.compare_eq_iff in E1, E2, E3. congruence.
  - intros [= -> -> ->]. now rewrite !Z.compare_refl.
Qed.

Lemma lex3_Lt_trans a b c : lex3 a b = Lt -> lex3 b c = Lt -> lex3 a c = Lt.
Proof.
  destruct a as [[a1 a2] a3], b as [[b1 b2] b3], c as [[c1 c2] c3]. simpl.
  destruct (a1 ?= b1) eqn:E1; try discriminate;
  destruct (b1 ?= c1) eqn:E2; try discriminate;
  rewrite ?Z.compare_eq_iff, ?Z.compare_lt_iff in *; subst.
  - rewrite Z.compare_refl.
    destruct (a2 ?= b2) eqn:E3; try discriminate;
    destruct (b2 ?= c2) eqn:E4; try discriminate;
    rewrite ?Z.compare_eq_iff, ?Z.compare_lt_iff in *; subst.
    + rewrite Z.compare_refl. intros. rewrite Z.compare_lt_iff in *. lia.
    + intros _ _. apply Z.compare_lt_iff in E4. now rewrite E4.
    + intros _ _. apply Z.compare_lt_iff in E3. now rewrite E3.
    + intros _ _. assert (E : a2 < c2) by lia. apply Z.compare_lt_iff in E. now rewrite E.
  - intros _ _. apply Z.compare_lt_iff in E2. now rewrite E2.
  - intros _ _. apply Z.compare_lt_iff in E1. now rewrite E1.
  - intros _ _. assert (E : a1 < c1) by lia. apply Z.compare_lt_iff in E. now rewrite E.
Qed.

Lemma SFcompare_opp x y : SFcompare (SFopp x) (SFopp y) = SFcompare y x.
Proof.
  destruct x as [sx|sx| |sx mx ex], y as [sy|sy| |sy my ey];
    try destruct sx; try destruct sy; try reflexivity; simpl;
    change (PosDef.Pos.compare_cont Eq ?a ?b) with (Pos.compare a b);
    rewrite (Z.compare_antisym ex ey), (Pos.compare_antisym mx my);
    destruct (ex ?= ey), (mx ?= my)%positive; reflexivity.
Qed.

Lemma ltb_neg x y : Float64.ltb (Float64.neg x) (Float64.neg y) = Float64.ltb y x.
Proof. unfold Float64.ltb, Float64.neg, SFltb. now rewrite SFcompare_opp. Qed.

Lemma SFcompare_sym x y :
  SFcompare y x = option_map CompOpp (SFcompare x y).
Proof.
  destruct x as [sx|sx| |sx mx ex], y as [sy|sy| |sy my ey];
    try destruct sx; try destruct sy; try reflexivity; simpl;
    change (PosDef.Pos.compare_cont Eq ?a ?b) with (Pos.compare a b);
    rewrite (Z.compare_antisym ex ey), (Pos.compare_antisym mx my);
    destruct (ex ?= ey), (mx ?= my)%positive; reflexivity.
Qed.

Lemma eqb_neg x y : Float64.eqb (Float64.neg x) (Float64.neg y) = Float64.eqb x y.
Proof.
  unfold Float64.eqb, Float64.neg, SFeqb. rewrite SFcompare_opp, SFcompare_sym.
  destruct (SFcompare x y) as [[]|]; reflexivity.
Qed.

(** ** The stable insertion sort *)

Section Sort.
Context {A K : Type} (key : A -> K) (lt : K -> K -> bool).

Local Abbreviation not_after := (not_after key lt).

Hypothesis lt_asym : forall a b, lt a b = true -> lt b a = false.

Lemma insert_by_perm x l : Permutation (insert_by key lt x l) (x :: l).
Proof.
  induction l as [|y l IH]; simpl; [reflexivity|].
  destruct (lt (key y) (key x)); [|reflexivity].
  rewrite IH. apply perm_swap.
Qed.

Lemma list_sort_perm l : Permutation (list_sort key lt l) l.
Proof.
  induction l as [|x l IH]; simpl; [reflexivity|].
  rewrite insert_by_perm. now constructor.
Qed.

Lemma insert_by_sorted x l :
  Sorted not_after l -> Sorted not_after (insert_by key lt x l).
Proof.
  induction l as [|y l IH]; intros Hs; simpl.
  - repeat constructor.
  - inversion Hs as [|? ? Hl Hhd]; subst.
    destruct (lt (key y) (key x)) eqn:E.
    + constructor; [now apply IH|].
      destruct l as [|z l]; simpl.
      * constructor. unfold not_after. now apply lt_asym.
      * destruct (lt (key z) (key x)) eqn:E'.
        -- constructor. now inversion Hhd.
        -- constructor. unfold not_after. now apply lt_asym.
    + constructor; [assumption|]. now constructor.
Qed.

Lemma list_sort_sorted l : Sorted not_after (list_sort key lt l).
Proof.
  induction l as [|x l IH]; simpl; [constructor|].
  now apply insert_by_sorted.
Qed.
End Sort.

Lemma Sorted_strongly {A : Type} (R : A -> A -> Prop) (P : A -> Prop) l :
  (forall x y z, P x -> P y -> P z -> R x y -> R y z -> R x z) ->
  Forall P l -> Sorted R l -> StronglySorted R l.
Proof.
  intros Htr. induction l as [|a l IH]; intros HP Hs; [constructor|].
  inversion HP as [|? ? Pa Pl]; inversion Hs as [|? ? Hl Hhd]; subst.
  specialize (IH Pl Hl). constructor; [assumption|].
  destruct l as [|b l]; [constructor|].
  inversion Hhd as [|? ? Hab]; subst.
  inversion IH as [|? ? _ Hbl]; subst.
  inversion Pl as [|? ? Pb Pl']; subst.
  constructor; [assumption|].
  rewrite Forall_forall in *. intros z Hz.
  apply (Htr a b z); auto.
Qed.

(** ** The key order *)

Lemma string_compare_refl s : String.compare s s = Eq.
Proof.
  induction s as [|c s IH]; simpl; [reflexivity|].
  unfold Ascii.compare. now rewrite N.compare_refl.
Qed.

Lemma string_compare_trans s1 : forall s2 s3,
  String.compare s1 s2 = Lt -> String.compare s2 s3 = Lt -> String.compare s1 s3 = Lt.
Proof.
  induction s1 as [|a s1 IH]; intros [|b s2] [|c s3]; simpl; try discriminate; trivial.
  destruct (Ascii.compare a b) eqn:Eab; try discriminate;
    destruct (Ascii.compare b c) eqn:Ebc; try discriminate.
  - apply Ascii.compare_eq_iff in Eab, Ebc. subst.
    unfold Ascii.compare. rewrite N.compare_refl. apply IH.
  - apply Ascii.compare_eq_iff in Eab. subst. now rewrite Ebc.
  - apply Ascii.compare_eq_iff in Ebc. subst. now rewrite Eab.
  - unfold Ascii.compare in *. rewrite N.compare_lt_iff in *.
    intros _ _.
    assert (E : (N_of_ascii a < N_of_ascii c)%N) by lia.
    apply N.compare_lt_iff in E. now rewrite E.
Qed.

Lemma string_ltb_trans s1 s2 s3 :
  String.ltb s1 s2 = true -> String.ltb s2 s3 = true -> String.ltb s1 s3 = true.
Proof.
  unfold String.ltb. intros H1 H2.
  destruct (String.compare s1 s2) eqn:E1; try discriminate.
  destruct (String.compare s2 s3) eqn:E2; try discriminate.
  now rewrite (string_compare_trans _ _ _ E1 E2).
Qed.

Lemma string_ltb_irrefl s : String.ltb s s = false.
Proof. unfold String.ltb. now rewrite string_compare_refl. Qed.

Lemma string_ltb_asym s1 s2 : String.ltb s1 s2 = true -> String.ltb s2 s1 = false.
Proof.
  unfold String.ltb. rewrite (String.compare_antisym s2 s1).
  destruct (String.compare s1 s2); simpl; congruence.
Qed.

Lemma string_ltb_total s1 s2 :
  String.ltb s1 s2 = false -> s1 <> s2 -> String.ltb s2 s1 = true.
Proof.
  unfold String.ltb. rewrite (String.compare_antisym s2 s1).
  destruct (String.compare s1 s2) eqn:E; simpl; try congruence.
  apply String.compare_eq_iff in E. congruence.
Qed.

(** Float comparisons through the rank. *)

Lemma ltb_rank x y :
  Float64.is_nan x = false -> Float64.is_nan y = false ->
  Float64.ltb x y = true <-> lex3 (float_rank x) (float_rank y) = Lt.
Proof.
  intros Hx Hy. unfold Float64.ltb, SFltb. rewrite SFcompare_rank by assumption.
  destruct (lex3 _ _); split; congruence.
Qed.

Lemma eqb_rank x y :
  Float64.is_nan x = false -> Float64.is_nan y = false ->
  Float64.eqb x y = true <-> float_rank x = float_rank y.
Proof.
  intros Hx Hy. unfold Float64.eqb, SFeqb. rewrite SFcompare_rank by assumption.
  rewrite <- lex3_Eq. destruct (lex3 _ _); split; congruence.
Qed.

Lemma ltb_asym x y : Float64.ltb x y = true -> Float64.ltb y x = false.
Proof.
  unfold Float64.ltb, SFltb. rewrite (SFcompare_sym x y).
  destruct (SFcompare x y) as [[]|]; simpl; congruence.
Qed.

Lemma eqb_sym x y : Float64.eqb x y = Float64.eqb y x.
Proof.
  unfold Float64.eqb, SFeqb. rewrite (SFcompare_sym x y).
  destruct (SFcompare x y) as [[]|]; reflexivity.
Qed.

Lemma ltb_not_eqb x y : Float64.ltb x y = true -> Float64.eqb x y = false.
Proof.
  unfold Float64.ltb, Float64.eqb, SFltb, SFeqb.
  destruct (SFcompare x y) as [[]|]; congruence.
Qed.

Lemma float_trichotomy x y :
  Float64.is_nan x = false -> Float64.is_nan y = false ->
  Float64.eqb x y = false -> Float64.ltb x y = false -> Float64.ltb y x = true.
Proof.
  intros Hx Hy. unfold Float64.ltb, Float64.eqb, SFltb, SFeqb.
  rewrite (SFcompare_sym x y), SFcompare_rank by assumption.
  destruct (lex3 _ _); simpl; congruence.
Qed.

Lemma key_lt_asym a b : key_lt a b = true -> key_lt b a = false.
Proof.
  destruct a as [[s1 d1] m1], b as [[s2 d2] m2]. unfold key_lt.
  rewrite (eqb_sym s2 s1), (String.eqb_sym d2 d1).
  destruct (Float64.eqb s1 s2); simpl; [|apply ltb_asym].
  destruct (String.eqb d1 d2); simpl; [|apply string_ltb_asym].
  lia.
Qed.

Lemma is_nan_neg x : Float64.is_nan (Float64.neg x) = Float64.is_nan x.
Proof. now destruct x. Qed.

Lemma not_after_ranks a b :
  score_defined a -> score_defined b ->
  not_after sort_key key_lt a b -> ranks_before a b.
Proof.
  unfold score_defined, not_after, ranks_before, sort_key, key_lt. intros Ha Hb.
  rewrite eqb_neg, ltb_neg, (eqb_sym (score b)).
  destruct (Float64.eqb (score a) (score b)) eqn:Es; simpl.
  - intros H. right. split; [reflexivity|].
    destruct (String.eqb (deadline_key (task b)) (deadline_key (task a))) eqn:Ed; simpl in H.
    + apply String.eqb_eq in Ed. right. split; [congruence | lia].
    + apply String.eqb_neq in Ed. left. apply string_ltb_total; congruence.
  - intros H. left. apply float_trichotomy; assumption.
Qed.

Lemma ranks_before_trans a b c :
  score_defined a -> score_defined b -> score_defined c ->
  ranks_before a b -> ranks_before b c -> ranks_before a c.
Proof.
  unfold score_defined, ranks_before. intros Ha Hb Hc.
  rewrite !ltb_rank, !eqb_rank by assumption.
  intros [Hab | (Eab & Hab)] [Hbc | (Ebc & Hbc)].
  - left. eapply lex3_Lt_trans; eassumption.
  - left. now rewrite <- Ebc.
  - left. now rewrite Eab.
  - right. split; [congruence|].
    destruct Hab as [Hab | (Eab' & Hab)], Hbc as [Hbc | (Ebc' & Hbc)].
    + left. eapply string_ltb_trans; eassumption.
    + left. now rewrite <- Ebc'.
    + left. now rewrite Eab'.
    + right. split; [congruence | lia].
Qed.

(** ** Binary digits *)

Lemma digits2_pos_bounds p :
  2 ^ (Zpos (digits2_pos p) - 1) <= Zpos p < 2 ^ Zpos (digits2_pos p).
Proof.
  induction p as [p IH|p IH|]; cbn [digits2_pos].
  - rewrite Pos2Z.inj_succ.
    replace (Z.succ (Zpos (digits2_pos p)) - 1) with (Z.succ (Zpos (digits2_pos p) - 1)) by lia.
    rewrite !Z.pow_succ_r by lia. lia.
  - rewrite Pos2Z.inj_succ.
    replace (Z.succ (Zpos (digits2_pos p)) - 1) with (Z.succ (Zpos (digits2_pos p) - 1)) by lia.
    rewrite !Z.pow_succ_r by lia. lia.
  - simpl. lia.
Qed.

Lemma Zdigits2_nonneg m : 0 <= Zdigits2 m.
Proof. destruct m; simpl; lia. Qed.

Lemma Zdigits2_bounds m :
  0 < m -> 2 ^ (Zdigits2 m - 1) <= m < 2 ^ Zdigits2 m.
Proof. destruct m as [|p|p]; try lia. intros _. apply digits2_pos_bounds. Qed.

Lemma Zdigits2_pos m : 0 < m -> 0 < Zdigits2 m.
Proof. destruct m; simpl; lia. Qed.

Lemma pow2_lt_inv a b : 0 <= b -> 2 ^ a < 2 ^ b -> a < b.
Proof.
  intros Hb H. destruct (Z.lt_ge_cases a b) as [|Hge]; [assumption|].
  apply (Z.pow_le_mono_r 2) in Hge; lia.
Qed.

Lemma Zdigits2_unique m k :
  0 < k -> 2 ^ (k - 1) <= m < 2 ^ k -> Zdigits2 m = k.
Proof.
  intros Hk Hm.
  assert (0 < m) by (pose proof (Z.pow_pos_nonneg 2 (k - 1)); lia).
  pose proof (Zdigits2_bounds m H) as Hd. pose proof (Zdigits2_pos m H).
  assert (Zdigits2 m - 1 < k) by (apply pow2_lt_inv; lia).
  assert (k - 1 < Zdigits2 m) by (apply pow2_lt_inv; lia).
  lia.
Qed.

Lemma Zdigits2_le m1 m2 : 0 <= m1 <= m2 -> Zdigits2 m1 <= Zdigits2 m2.
Proof.
  intros H. destruct (Z.eq_dec m1 0) as [->|Hn]; [apply Zdigits2_nonneg|].
  assert (H1 : 0 < m1) by lia. assert (H2 : 0 < m2) by lia.
  pose proof (Zdigits2_bounds m1 H1). pose proof (Zdigits2_bounds m2 H2).
  pose proof (Zdigits2_pos m2 H2).
  assert (Zdigits2 m1 - 1 < Zdigits2 m2) by (apply pow2_lt_inv; lia).
  lia.
Qed.

Lemma Zdigits2_lt_pow m k : 0 <= k -> 0 <= m < 2 ^ k -> Zdigits2 m <= k.
Proof.
  intros Hk H. destruct (Z.eq_dec m 0) as [->|Hn]; [simpl; lia|].
  assert (H1 : 0 < m) by lia.
  pose proof (Zdigits2_bounds m H1).
  assert (Zdigits2 m - 1 < k) by (apply pow2_lt_inv; lia). lia.
Qed.

Lemma Zdigits2_ge_pow m k : 0 <= k -> 2 ^ k <= m -> k < Zdigits2 m.
Proof.
  intros Hk H.
  assert (H1 : 0 < m) by (pose proof (Z.pow_pos_nonneg 2 k); lia).
  pose proof (Zdigits2_bounds m H1). pose proof (Zdigits2_pos m H1).
  apply pow2_lt_inv; lia.
Qed.

Lemma Zdigits2_mul_pow m k : 0 < m -> 0 <= k -> Zdigits2 (m * 2 ^ k) = Zdigits2 m + k.
Proof.
  intros Hm Hk. pose proof (Zdigits2_bounds m Hm). pose proof (Zdigits2_pos m Hm).
  apply Zdigits2_unique; [lia|].
  replace (Zdigits2 m + k - 1) with (Zdigits2 m - 1 + k) by lia.
  rewrite !Z.pow_add_r by lia.
  pose proof (Z.pow_pos_nonneg 2 k). nia.
Qed.

Lemma Zdigits2_div_pow m k :
  0 <= k -> 2 ^ k <= m -> Zdigits2 (m / 2 ^ k) = Zdigits2 m - k.
Proof.
  intros Hk Hm.
  assert (H1 : 0 < m) by (pose proof (Z.pow_pos_nonneg 2 k); lia).
  pose proof (Zdigits2_bounds m H1) as Hb. pose proof (Zdigits2_ge_pow m k Hk Hm).
  pose proof (Z.pow_pos_nonneg 2 k) as Hp.
  apply Zdigits2_unique; [lia|].
  replace (Zdigits2 m) with (Zdigits2 m - k + k) in Hb at 2 by lia.
  replace (Zdigits2 m - 1) with (Zdigits2 m - k - 1 + k) in Hb by lia.
  rewrite !Z.pow_add_r in Hb by lia.
  split.
  - apply Z.div_le_lower_bound; lia.
  - apply Z.div_lt_upper_bound; lia.
Qed.

(** ** Right shifts with a sticky bit *)

Lemma rec_code_of_loc m l : rec_code (shr_record_of_loc m l) = 4 * m + loc_code l.
Proof.
  destruct l as [|[]]; unfold rec_code;
    cbn [shr_record_of_loc shr_m shr_r shr_s b2z loc_code]; lia.
Qed.

Lemma shr_m_code r : 0 <= shr_m r -> shr_m r = rec_code r / 4.
Proof.
  destruct r as [m [] []]; unfold rec_code; cbn [shr_m shr_r shr_s b2z]; dlia.
Qed.

Lemma sticky_0 T : sticky T 0 = T.
Proof. unfold sticky. simpl. rewrite Z.mod_1_r, Z.div_1_r. reflexivity. Qed.

Lemma sticky_1 T : sticky T 1 = if T mod 2 =? 0 then T / 2 else 2 * (T / 4) + 1.
Proof. reflexivity. Qed.

Lemma shr_1_code r :
  0 <= shr_m r -> rec_code (shr_1 r) = sticky (rec_code r) 1 /\ 0 <= shr_m (shr_1 r).
Proof.
  destruct r as [m rb sb]. cbn [shr_m]. intros Hm. rewrite sticky_1.
  destruct m as [|[p|p|]|p]; try lia;
    destruct rb, sb; unfold rec_code; cbn [shr_1 shr_m shr_r shr_s b2z orb];
    try rewrite (Pos2Z.inj_xI p); try rewrite (Pos2Z.inj_xO p);
    (split; [|lia]);
    match goal with |- _ = (if ?a =? ?b then _ else _) => destruct (Z.eqb_spec a b) end;
    dlia.
Qed.

Lemma sticky_nonneg T n : 0 <= T -> 0 <= n -> 0 <= sticky T n.
Proof.
  intros HT Hn. unfold sticky.
  pose proof (Z.pow_pos_nonneg 2 n). pose proof (Z.pow_pos_nonneg 2 (n + 1)).
  destruct (_ =? 0); [apply Z.div_pos; lia|].
  assert (0 <= T / 2 ^ (n + 1)) by (apply Z.div_pos; lia). lia.
Qed.

Lemma sticky_succ T n : 0 <= n -> sticky (sticky T n) 1 = sticky T (n + 1).
Proof.
  intros Hn. rewrite sticky_1. unfold sticky.
  replace (n + 1 + 1) with (n + 2) by lia.
  rewrite !Z.pow_add_r by lia. change (2 ^ 1) with 2. change (2 ^ 2) with 4.
  set (A := 2 ^ n). assert (HA : 0 < A) by (apply Z.pow_pos_nonneg; lia).
  rewrite (Z.rem_mul_r T A 2) by lia.
  rewrite <- !Z.div_div by lia.
  pose proof (Z.mod_pos_bound T A HA).
  set (q := T / A) in *. set (r := T mod A) in *.
  destruct (r =? 0) eqn:Er.
  - apply Z.eqb_eq in Er. rewrite Er.
    destruct (Z.eqb_spec (q mod 2) 0); destruct (Z.eqb_spec (0 + A * (q mod 2)) 0); dnia.
  - apply Z.eqb_neq in Er.
    destruct (Z.eqb_spec ((2 * (q / 2) + 1) mod 2) 0);
      destruct (Z.eqb_spec (r + A * (q mod 2)) 0); dnia.
Qed.

Lemma iter_pos_nat {A : Type} (f : A -> A) p : forall x,
  iter_pos f p x = Nat.iter (Pos.to_nat p) f x.
Proof.
  induction p as [p IH|p IH|]; intros x; cbn [iter_pos].
  - rewrite !IH, Pos2Nat.inj_xI.
    replace (S (2 * Pos.to_nat p)) with (Pos.to_nat p + (Pos.to_nat p + 1))%nat by lia.
    now rewrite !Nat.iter_add.
  - rewrite !IH, Pos2Nat.inj_xO.
    replace (2 * Pos.to_nat p)%nat with (Pos.to_nat p + Pos.to_nat p)%nat by lia.
    now rewrite Nat.iter_add.
  - reflexivity.
Qed.

Lemma iter_shr_1_code n : forall r,
  0 <= shr_m r ->
  rec_code (Nat.iter n shr_1 r) = sticky (rec_code r) (Z.of_nat n)
  /\ 0 <= shr_m (Nat.iter n shr_1 r).
Proof.
  induction n as [|n IH]; intros r Hr.
  - simpl. now rewrite sticky_0.
  - rewrite Nat.iter_succ. destruct (IH r Hr) as (Hc & Hm).
    destruct (shr_1_code _ Hm) as (Hc' & Hm'). split; [|assumption].
    rewrite Hc', Hc, sticky_succ by lia. f_equal. lia.
Qed.

Lemma shr_code r e n :
  0 <= shr_m r -> 0 <= n ->
  rec_code (fst (shr r e n)) = sticky (rec_code r) n
  /\ 0 <= shr_m (fst (shr r e n))
  /\ snd (shr r e n) = e + n.
Proof.
  intros Hr Hn. destruct n as [|p|p]; try lia; cbn [shr fst snd].
  - rewrite sticky_0. repeat split; lia.
  - rewrite iter_pos_nat.
    destruct (iter_shr_1_code (Pos.to_nat p) r Hr) as (Hc & Hm).
    rewrite positive_nat_Z in Hc. auto.
Qed.

(** ** Rounding to nearest even *)

Lemma round_nearest_even_code r :
  0 <= shr_m r ->
  round_nearest_even (shr_m r) (loc_of_shr_record r) = rne (rec_code r) 2.
Proof.
  destruct r as [m rb sb]. cbn [shr_m]. intros Hm. unfold rne, rec_code.
  change (2 ^ 2) with 4. change (2 ^ (2 - 1)) with 2.
  cbn [shr_m shr_r shr_s].
  assert (Hq : forall c, 0 <= c < 4 -> (4 * m + c) / 4 = m /\ (4 * m + c) mod 4 = c)
    by (intros; dlia).
  destruct rb, sb; cbn [b2z loc_of_shr_record round_nearest_even].
  - replace (4 * m + 2 * 1 + 1) with (4 * m + 3) by lia.
    destruct (Hq 3) as (-> & ->); [lia|]. reflexivity.
  - replace (4 * m + 2 * 1 + 0) with (4 * m + 2) by lia.
    destruct (Hq 2) as (-> & ->); [lia|]. reflexivity.
  - replace (4 * m + 2 * 0 + 1) with (4 * m + 1) by lia.
    destruct (Hq 1) as (-> & ->); [lia|]. reflexivity.
  - replace (4 * m + 2 * 0 + 0) with (4 * m + 0) by lia.
    destruct (Hq 0) as (-> & ->); [lia|]. reflexivity.
Qed.

Lemma rne_cases T k :
  0 <= T -> 1 <= k ->
  exists q r h, 0 < h /\ 2 ^ k = 2 * h /\ 2 ^ (k - 1) = h
    /\ T = 2 * h * q + r /\ 0 <= r < 2 * h /\ 0 <= q
    /\ q = T / 2 ^ k /\ r = T mod 2 ^ k
    /\ rne T k = (if r <? h then q else if h <? r then q + 1
                  else if Z.even q then q else q + 1).
Proof.
  intros HT Hk. exists (T / 2 ^ k), (T mod 2 ^ k), (2 ^ (k - 1)).
  assert (Hh : 0 < 2 ^ (k - 1)) by (apply Z.pow_pos_nonneg; lia).
  assert (HK : 2 ^ k = 2 * 2 ^ (k - 1)).
  { replace k with (Z.succ (k - 1)) at 1 by lia. apply Z.pow_succ_r. lia. }
  pose proof (Z.div_mod T (2 ^ k)). pose proof (Z.mod_pos_bound T (2 ^ k)).
  assert (0 <= T / 2 ^ k) by (apply Z.div_pos; lia).
  repeat split; lia.
Qed.

Lemma rne_bounds T k :
  0 <= T -> 1 <= k -> T / 2 ^ k <= rne T k <= T / 2 ^ k + 1.
Proof.
  intros HT Hk.
  destruct (rne_cases T k HT Hk) as (q & r & h & Hh & HK & _ & HTq & Hr & Hq & <- & _ & ->).
  destruct (r <? h), (h <? r), (Z.even q); cbv iota; lia.
Qed.

Lemma rne_mono T1 T2 k :
  0 <= T1 <= T2 -> 1 <= k -> rne T1 k <= rne T2 k.
Proof.
  intros HT Hk.
  destruct (rne_cases T1 k) as (q1 & r1 & h & Hh & HK & Hh' & HT1 & Hr1 & Hq1 & _ & _ & ->);
    [lia | lia |].
  destruct (rne_cases T2 k) as (q2 & r2 & h2 & _ & _ & Hh2 & HT2 & Hr2 & Hq2 & _ & _ & ->);
    [lia | lia |].
  assert (h2 = h) by congruence. clear Hh2. subst h2.
  assert (Hq : q1 <= q2) by nia.
  destruct (Z.eq_dec q1 q2) as [->|Hne].
  - assert (r1 <= r2) by nia.
    destruct (Z.ltb_spec r1 h), (Z.ltb_spec h r1), (Z.ltb_spec r2 h), (Z.ltb_spec h r2),
      (Z.even q2); cbv iota; lia.
  - destruct (r1 <? h), (h <? r1), (r2 <? h), (h <? r2), (Z.even q1), (Z.even q2);
      cbv iota; lia.
Qed.

Lemma rne_exact M k : 0 <= M -> 1 <= k -> rne (M * 2 ^ k) k = M.
Proof.
  intros HM Hk.
  assert (HK : 0 < 2 ^ k) by (apply Z.pow_pos_nonneg; lia).
  assert (Hh : 0 < 2 ^ (k - 1)) by (apply Z.pow_pos_nonneg; lia).
  unfold rne. rewrite Z.div_mul, Z.mod_mul by lia.
  now replace (0 <? 2 ^ (k - 1)) with true by (symmetry; lia).
Qed.

Lemma rne_sticky_1 T j : 0 <= T -> 2 <= j -> rne (sticky T 1) j = rne T (j + 1).
Proof.
  intros HT Hj.
  assert (HX : 0 <= sticky T 1) by (apply sticky_nonneg; lia).
  destruct (rne_cases (sticky T 1) j) as (q & r & h & Hh & HK & Hh' & HTq & Hr & Hq & _ & _ & ->);
    [lia | lia |].
  destruct (rne_cases T (j + 1)) as (q' & r' & h' & _ & HK' & Hh2 & HTq' & Hr' & Hq' & _ & _ & ->);
    [lia | lia |].
  rewrite Z.add_simpl_r in Hh2.
  assert (h' = 2 * h) by lia. clear HK' Hh2. subst h'.
  assert (He : exists g, h = 2 * g /\ 0 < g).
  { exists (2 ^ (j - 2)). split; [|apply Z.pow_pos_nonneg; lia].
    rewrite <- Hh'. replace (j - 1) with (Z.succ (j - 2)) by lia. apply Z.pow_succ_r. lia. }
  destruct He as (g & -> & Hg). clear HK Hh'.
  rewrite sticky_1 in HTq.
  set (z := g * q) in *. set (z' := g * q') in *.
  assert (HTq1 : (if T mod 2 =? 0 then T / 2 else 2 * (T / 4) + 1) = 4 * z + r) by (unfold z; lia).
  assert (HTq2 : T = 8 * z' + r') by (unfold z'; lia).
  clear HTq HTq'.
  assert (Hqq : q = q').
  { destruct (Z.eqb_spec (T mod 2) 0).
    - assert (8 * z + 2 * r = 8 * z' + r') by dlia.
      unfold z, z' in *. nia.
    - assert (Hx : 2 * (T / 4) + 1 = 4 * z + r) by assumption.
      assert (8 * z + 2 * r - 1 <= 8 * z' + r' <= 8 * z + 2 * r + 1) by dlia.
      unfold z, z' in *. nia. }
  subst q'. fold z in z'. subst z'.
  destruct (Z.eqb_spec (T mod 2) 0).
  - assert (r' = 2 * r) by dlia. subst r'.
    destruct (Z.ltb_spec r (2 * g)), (Z.ltb_spec (2 * g) r),
      (Z.ltb_spec (2 * r) (2 * (2 * g))), (Z.ltb_spec (2 * (2 * g)) (2 * r));
      cbv iota; try lia.
  - assert (Hodd : r mod 2 = 1) by dlia.
    assert (Hr2 : 2 * r - 1 <= r' <= 2 * r + 1) by dlia.
    assert (Hodd' : r' mod 2 = 1) by dlia.
    destruct (Z.ltb_spec r (2 * g)), (Z.ltb_spec (2 * g) r),
      (Z.ltb_spec r' (2 * (2 * g))), (Z.ltb_spec (2 * (2 * g)) r');
      cbv iota; try lia; try dlia.
Qed.

Lemma rne_sticky T n : forall j,
  0 <= T -> 0 <= n -> 2 <= j -> rne (sticky T n) j = rne T (j + n).
Proof.
  intros j HT Hn. revert j. pattern n. apply natlike_ind; [| |assumption].
  - intros j Hj. now rewrite sticky_0, Z.add_0_r.
  - intros k Hk IH j Hj. unfold Z.succ.
    rewrite <- sticky_succ by assumption.
    rewrite rne_sticky_1 by (try apply sticky_nonneg; lia).
    rewrite IH by lia. f_equal. lia.
Qed.

(** ** The rounding step of every operation *)

Lemma fexp64_eq x : fexp64 x = Z.max (x - 53) (-1074).
Proof. reflexivity. Qed.

Lemma rne_le_pow T k x :
  0 <= T -> 1 <= k -> 0 <= x -> T < 2 ^ (k + x) -> rne T k <= 2 ^ x.
Proof.
  intros HT Hk Hx Hlt.
  pose proof (rne_bounds T k HT Hk) as Hb.
  assert (T / 2 ^ k < 2 ^ x).
  { apply Z.div_lt_upper_bound; [apply Z.pow_pos_nonneg; lia|].
    now rewrite <- Z.pow_add_r by lia. }
  lia.
Qed.

Lemma round_mant_bound T e :
  0 <= T -> fine (T / 4) e ->
  let E := fexp64 (Zdigits2 (T / 4) + e) in
  0 <= rne T (E - e + 2) <= 2 ^ 53.
Proof.
  intros HT Hf E. unfold fine in Hf. fold E in Hf.
  assert (Hm : 0 <= T / 4) by (apply Z.div_pos; lia).
  pose proof (rne_bounds T (E - e + 2) HT ltac:(lia)) as Hb.
  assert (0 <= T / 2 ^ (E - e + 2)) by (apply Z.div_pos; [lia | apply Z.pow_pos_nonneg; lia]).
  split; [lia|].
  set (d := Zdigits2 (T / 4)) in *.
  assert (Hd : 0 <= d) by apply Zdigits2_nonneg.
  assert (HTd : T < 2 ^ (d + 2)).
  { destruct (Z.eq_dec (T / 4) 0) as [E0|Hn].
    - unfold d. rewrite E0. simpl. dlia.
    - pose proof (Zdigits2_bounds (T / 4) ltac:(lia)) as Hbd. fold d in Hbd.
      rewrite Z.pow_add_r by lia. change (2 ^ 2) with 4. dlia. }
  destruct (Z.le_gt_cases (E - e) d) as [Hle|Hgt].
  - apply (Z.le_trans _ (2 ^ (d - (E - e)))).
    + apply rne_le_pow; try lia.
      now replace (E - e + 2 + (d - (E - e))) with (d + 2) by lia.
    + apply Z.pow_le_mono_r; [lia|]. unfold E. rewrite fexp64_eq. lia.
  - apply (Z.le_trans _ (2 ^ 0)); [|simpl; lia].
    apply rne_le_pow; try lia.
    apply (Z.lt_le_trans _ _ _ HTd). apply Z.pow_le_mono_r; lia.
Qed.

Lemma binary_round_aux_spec s m e l :
  0 <= m -> fine m e ->
  binary_round_aux Float64.prec Float64.emax s m e l
  = pack_float s (round_mant (4 * m + loc_code l) e).
Proof.
  intros Hm Hf.
  assert (Hc : 0 <= loc_code l < 4) by (destruct l as [|[]]; simpl; lia).
  assert (HT4 : (4 * m + loc_code l) / 4 = m) by dlia.
  pose proof (round_mant_bound (4 * m + loc_code l) e ltac:(lia)) as HM.
  rewrite HT4 in HM. specialize (HM Hf). cbv zeta in HM.
  unfold round_mant. rewrite HT4.
  unfold binary_round_aux, shr_fexp.
  set (E := fexp64 (Zdigits2 m + e)) in *.
  unfold fine in Hf. fold E in Hf.
  pose proof (shr_code (shr_record_of_loc m l) e (E - e)) as Hs.
  destruct (shr (shr_record_of_loc m l) e (E - e)) as [r1 e1].
  cbn [fst snd] in Hs.
  destruct Hs as (Hc1 & Hm1 & He1); [destruct l as [|[]]; assumption | lia |].
  rewrite rec_code_of_loc in Hc1.
  rewrite round_nearest_even_code, Hc1, rne_sticky by lia.
  replace (2 + (E - e)) with (E - e + 2) by lia.
  replace e1 with E by lia.
  set (M := rne (4 * m + loc_code l) (E - e + 2)) in *.
  assert (HE : -1074 <= E) by (unfold E; rewrite fexp64_eq; lia).
  destruct (Z.eqb_spec M (2 ^ 53)) as [HM53|HM53].
  - rewrite HM53.
    replace (fexp64 (Zdigits2 (2 ^ 53) + E) - E) with 1
      by (change (Zdigits2 (2 ^ 53)) with 54; rewrite fexp64_eq; lia).
    cbn [shr_record_of_loc]. unfold shr. cbn [iter_pos].
    change (shr_1 {| shr_m := 2 ^ 53; shr_r := false; shr_s := false |})
      with {| shr_m := 2 ^ 52; shr_r := false; shr_s := false |}.
    reflexivity.
  - assert (Hd : Zdigits2 M <= 53) by (apply Zdigits2_lt_pow; lia).
    assert (Hn2 : fexp64 (Zdigits2 M + E) - E <= 0) by (rewrite fexp64_eq; lia).
    unfold shr. cbn [shr_record_of_loc].
    destruct (fexp64 (Zdigits2 M + E) - E) as [|p|p] eqn:En; try lia; reflexivity.
Qed.

Lemma sticky_div4 T k : 0 <= T -> 0 <= k -> sticky T k / 4 = T / 4 / 2 ^ k.
Proof.
  intros HT Hk. unfold sticky.
  assert (HK : 0 < 2 ^ k) by (apply Z.pow_pos_nonneg; lia).
  rewrite (Z.div_div T 4) by lia. rewrite (Z.mul_comm 4).
  rewrite <- (Z.div_div T (2 ^ k) 4) by lia.
  rewrite Z.pow_add_r by lia. change (2 ^ 1) with 2.
  rewrite <- (Z.div_div T (2 ^ k) 2) by lia.
  destruct (_ =? 0); dlia.
Qed.

Lemma round_mant_normal T e :
  0 <= T -> fine (T / 4) e ->
  -1074 < fexp64 (Zdigits2 (T / 4) + e) ->
  2 ^ 52 <= rne T (fexp64 (Zdigits2 (T / 4) + e) - e + 2).
Proof.
  intros HT Hf HE. unfold fine in Hf.
  set (d := Zdigits2 (T / 4)) in *. set (E := fexp64 (d + e)) in *.
  assert (Hd0 : 0 <= d) by apply Zdigits2_nonneg.
  assert (HEd : E = d + e - 53) by (unfold E in *; rewrite fexp64_eq in *; lia).
  assert (Hm : 0 < T / 4).
  { destruct (Z.eq_dec (T / 4) 0) as [E0|]; [|dlia].
    exfalso. unfold d in HEd. rewrite E0 in HEd. simpl in HEd. lia. }
  pose proof (Zdigits2_bounds (T / 4) Hm) as Hb. fold d in Hb.
  pose proof (Zdigits2_pos (T / 4) Hm) as Hd. fold d in Hd.
  pose proof (rne_bounds T (E - e + 2) HT ltac:(lia)) as Hr.
  apply (Z.le_trans _ (T / 2 ^ (E - e + 2))); [|lia].
  apply Z.div_le_lower_bound; [apply Z.pow_pos_nonneg; lia|].
  rewrite <- Z.pow_add_r by lia.
  replace (E - e + 2 + 52) with (d - 1 + 2) by lia.
  rewrite Z.pow_add_r by lia. change (2 ^ 2) with 4. dlia.
Qed.

Lemma round_mant_canonical T e :
  0 <= T -> fine (T / 4) e -> canonical_pair (round_mant T e).
Proof.
  intros HT Hf. pose proof (round_mant_bound T e HT Hf) as HM. cbv zeta in HM.
  pose proof (round_mant_normal T e HT Hf) as HN.
  unfold round_mant.
  set (E := fexp64 (Zdigits2 (T / 4) + e)) in *.
  set (M := rne T (E - e + 2)) in *.
  assert (HE : -1074 <= E) by (unfold E; rewrite fexp64_eq; lia).
  destruct (Z.eqb_spec M (2 ^ 53)).
  - right. cbn [fst snd]. lia.
  - destruct (Z.eq_dec M 0); [now left|]. right. cbn [fst snd].
    split; [lia|]. split; [lia|].
    destruct (Z.eq_dec E (-1074)); [now right|]. left. apply HN. lia.
Qed.

Lemma pack_float_valid s p :
  canonical_pair p -> Float64.valid (pack_float s p) = true.
Proof.
  destruct p as [M E]. unfold canonical_pair, pack_float. cbn [fst snd].
  intros [->|(HM & HE & Hn)]; [reflexivity|].
  destruct M as [|m|m]; try lia.
  destruct (Z.leb_spec E 971); [|reflexivity].
  unfold Float64.valid, valid_binary, bounded, canonical_mantissa.
  fold (Zdigits2 (Zpos m)).
  apply andb_true_iff. split; [|apply Z.leb_le; unfold Float64.emax, Float64.prec; lia].
  apply Z.eqb_eq. rewrite fexp64_eq.
  assert (Zdigits2 (Zpos m) <= 53) by (apply Zdigits2_lt_pow; lia).
  destruct Hn as [Hn| ->]; [|lia].
  assert (52 < Zdigits2 (Zpos m)) by (apply Zdigits2_ge_pow; lia). lia.
Qed.

Lemma pack_float_leb p1 p2 :
  0 <= fst p1 -> 0 <= fst p2 -> pair_le p1 p2 ->
  Float64.leb (pack_float false p1) (pack_float false p2) = true.
Proof.
  destruct p1 as [M1 E1], p2 as [M2 E2]. unfold pair_le, pack_float. cbn [fst snd].
  intros H1 H2 Hle.
  destruct M1 as [|m1|m1]; try lia; destruct M2 as [|m2|m2]; try lia.
  - reflexivity.
  - destruct (E2 <=? 971); reflexivity.
  - destruct Hle as [Hle|(_ & Hle)]; [discriminate|].
    destruct (Z.leb_spec E1 971), (Z.leb_spec E2 971); try reflexivity; try lia.
    unfold Float64.leb, SFleb, SFcompare.
    change (PosDef.Pos.compare_cont Eq m1 m2) with (Pos.compare m1 m2).
    destruct Hle as [Hlt|(-> & Hm)].
    + apply Z.compare_lt_iff in Hlt. now rewrite Hlt.
    + rewrite Z.compare_refl.
      destruct (Pos.compare_spec m1 m2); try reflexivity. lia.
Qed.

(** Rounding is monotone on inputs of one scale. *)
Lemma round_mant_mono T1 T2 e :
  0 <= T1 <= T2 -> fine (T1 / 4) e -> fine (T2 / 4) e ->
  pair_le (round_mant T1 e) (round_mant T2 e).
Proof.
  intros HT Hf1 Hf2.
  pose proof (round_mant_bound T1 e ltac:(lia) Hf1) as HM1. cbv zeta in HM1.
  pose proof (round_mant_bound T2 e ltac:(lia) Hf2) as HM2. cbv zeta in HM2.
  pose proof (round_mant_normal T2 e ltac:(lia) Hf2) as HN2.
  assert (Hd : Zdigits2 (T1 / 4) <= Zdigits2 (T2 / 4)) by (apply Zdigits2_le; dlia).
  unfold round_mant, pair_le.
  set (E1 := fexp64 (Zdigits2 (T1 / 4) + e)) in *.
  set (E2 := fexp64 (Zdigits2 (T2 / 4) + e)) in *.
  assert (HE : E1 <= E2) by (unfold E1, E2; rewrite !fexp64_eq; lia).
  assert (HE1 : -1074 <= E1) by (unfold E1; rewrite fexp64_eq; lia).
  unfold fine in Hf1, Hf2. fold E1 in Hf1. fold E2 in Hf2.
  destruct (Z.eq_dec E1 E2) as [Heq|Hne].
  - rewrite <- Heq in *.
    pose proof (rne_mono T1 T2 (E1 - e + 2) HT ltac:(lia)) as Hmono.
    set (M1 := rne T1 (E1 - e + 2)) in *. set (M2 := rne T2 (E1 - e + 2)) in *.
    destruct (Z.eqb_spec M1 (2 ^ 53)), (Z.eqb_spec M2 (2 ^ 53)); cbn [fst snd]; lia.
  - assert (HN : 2 ^ 52 <= rne T2 (E2 - e + 2)) by (apply HN2; lia).
    set (M1 := rne T1 (E1 - e + 2)) in *. set (M2 := rne T2 (E2 - e + 2)) in *.
    destruct (Z.eqb_spec M1 (2 ^ 53)), (Z.eqb_spec M2 (2 ^ 53)); cbn [fst snd]; lia.
Qed.

(** Rounding does not depend on the scale of its input. *)
Lemma round_mant_rescale T e k :
  0 <= T -> 0 <= k -> e + k <= fexp64 (Zdigits2 (T / 4) + e) ->
  round_mant (sticky T k) (e + k) = round_mant T e.
Proof.
  intros HT Hk Hf. unfold round_mant.
  rewrite sticky_div4 by assumption.
  set (d := Zdigits2 (T / 4)) in *.
  assert (Hd0 : 0 <= d) by apply Zdigits2_nonneg.
  assert (HK : 0 < 2 ^ k) by (apply Z.pow_pos_nonneg; lia).
  assert (HE : fexp64 (Zdigits2 (T / 4 / 2 ^ k) + (e + k)) = fexp64 (d + e)).
  { destruct (Z.le_gt_cases (2 ^ k) (T / 4)) as [Hbig|Hsmall].
    - rewrite Zdigits2_div_pow by assumption. fold d. f_equal. lia.
    - rewrite Z.div_small by dlia. cbn [Zdigits2].
      assert (d <= k) by (apply Zdigits2_lt_pow; dlia).
      rewrite !fexp64_eq in *. lia. }
  rewrite HE. set (E := fexp64 (d + e)) in *.
  rewrite rne_sticky by lia.
  now replace (E - (e + k) + 2 + k) with (E - e + 2) by lia.
Qed.

(** ** Exact inputs *)

Lemma sticky_exact M k : 0 <= k -> sticky (M * 2 ^ k) k = M.
Proof.
  intros Hk. unfold sticky.
  assert (0 < 2 ^ k) by (apply Z.pow_pos_nonneg; lia).
  rewrite Z.mod_mul, Z.div_mul by lia. reflexivity.
Qed.

Lemma round_mant_refine m e k :
  0 < m -> 0 <= k -> fine m e ->
  round_mant (4 * (m * 2 ^ k)) (e - k) = round_mant (4 * m) e
  /\ fine (m * 2 ^ k) (e - k).
Proof.
  intros Hm Hk Hf. unfold fine in *.
  assert (HK : 0 < 2 ^ k) by (apply Z.pow_pos_nonneg; lia).
  assert (Hd : Zdigits2 (m * 2 ^ k) + (e - k) = Zdigits2 m + e)
    by (rewrite Zdigits2_mul_pow by lia; lia).
  split; [|rewrite Hd; lia].
  transitivity (round_mant (sticky (4 * (m * 2 ^ k)) k) (e - k + k)).
  - symmetry. apply round_mant_rescale; try lia.
    replace (4 * (m * 2 ^ k) / 4) with (m * 2 ^ k) by dlia.
    rewrite Hd. lia.
  - replace (4 * (m * 2 ^ k)) with (4 * m * 2 ^ k) by lia.
    rewrite sticky_exact by lia. f_equal. lia.
Qed.

(** Rounding is monotone on exactly represented inputs of any scales. *)
Lemma exact_round_le m1 e1 m2 e2 :
  0 < m1 -> 0 < m2 -> fine m1 e1 -> fine m2 e2 ->
  m1 * 2 ^ (e1 - Z.min e1 e2) <= m2 * 2 ^ (e2 - Z.min e1 e2) ->
  pair_le (round_mant (4 * m1) e1) (round_mant (4 * m2) e2).
Proof.
  intros H1 H2 Hf1 Hf2 Hle.
  set (e := Z.min e1 e2) in *.
  destruct (round_mant_refine m1 e1 (e1 - e) H1 ltac:(lia) Hf1) as (<- & Hf1').
  destruct (round_mant_refine m2 e2 (e2 - e) H2 ltac:(lia) Hf2) as (<- & Hf2').
  replace (e1 - (e1 - e)) with e in * by lia.
  replace (e2 - (e2 - e)) with e in * by lia.
  assert (0 < 2 ^ (e1 - e)) by (apply Z.pow_pos_nonneg; lia).
  apply round_mant_mono.
  - nia.
  - now replace (4 * (m1 * 2 ^ (e1 - e)) / 4) with (m1 * 2 ^ (e1 - e)) by dlia.
  - now replace (4 * (m2 * 2 ^ (e2 - e)) / 4) with (m2 * 2 ^ (e2 - e)) by dlia.
Qed.

(** A canonical input is its own rounding. *)
Lemma round_mant_id M E :
  0 < M -> canonical_pair (M, E) -> round_mant (4 * M) E = (M, E) /\ fine M E.
Proof.
  intros HM [H0|(Hb & HE & Hn)]; cbn [fst snd] in *; [lia|].
  assert (Hd : Zdigits2 M <= 53) by (apply Zdigits2_lt_pow; lia).
  assert (HEq : fexp64 (Zdigits2 M + E) = E).
  { rewrite fexp64_eq. destruct Hn as [Hn| ->]; [|lia].
    assert (52 < Zdigits2 M) by (apply Zdigits2_ge_pow; lia). lia. }
  split; [|unfold fine; lia].
  unfold round_mant. replace (4 * M / 4) with M by dlia. rewrite HEq.
  replace (E - E + 2) with 2 by lia.
  replace (4 * M) with (M * 2 ^ 2) by (change (2 ^ 2) with 4; lia).
  rewrite rne_exact by lia.
  destruct (Z.eqb_spec M (2 ^ 53)); [lia | reflexivity].
Qed.

(** The value order read off two canonical pairs. *)
Lemma pair_le_value p1 p2 :
  canonical_pair p1 -> canonical_pair p2 -> 0 < fst p1 -> pair_le p1 p2 ->
  0 < fst p2
  /\ fst p1 * 2 ^ (snd p1 - Z.min (snd p1) (snd p2))
     <= fst p2 * 2 ^ (snd p2 - Z.min (snd p1) (snd p2)).
Proof.
  destruct p1 as [M1 E1], p2 as [M2 E2]. unfold canonical_pair, pair_le. cbn [fst snd].
  intros [?|(Hb1 & HE1 & Hn1)] [?|(Hb2 & HE2 & Hn2)] H1 [?|(Hne & Hle)]; try lia.
  split; [lia|].
  destruct Hle as [Hlt|(-> & Hm)].
  - rewrite Z.min_l by lia. rewrite Z.sub_diag, Z.mul_1_r.
    assert (Hp : 2 ^ 1 <= 2 ^ (E2 - E1)) by (apply Z.pow_le_mono_r; lia).
    change (2 ^ 1) with 2 in Hp. nia.
  - rewrite Z.min_id, Z.sub_diag. lia.
Qed.

Lemma valid_finite_canonical s m e :
  Float64.valid (S754_finite s m e) = true -> canonical_pair (Zpos m, e) /\ e <= 971.
Proof.
  unfold Float64.valid, valid_binary, bounded, canonical_mantissa.
  fold (Zdigits2 (Zpos m)).
  intros H. apply andb_true_iff in H as (Hc & He).
  apply Z.eqb_eq in Hc. apply Z.leb_le in He. rewrite fexp64_eq in Hc.
  change (Float64.emax - Float64.prec) with 971 in He. split; [|assumption].
  right. cbn [fst snd].
  pose proof (Zdigits2_bounds (Zpos m) ltac:(lia)) as Hb.
  assert (Hd : Zdigits2 (Zpos m) <= 53) by lia.
  assert (Z.pos m < 2 ^ 53).
  { apply (Z.lt_le_trans _ (2 ^ Zdigits2 (Z.pos m))); [lia|].
    apply Z.pow_le_mono_r; lia. }
  split; [lia|]. split; [lia|].
  destruct (Z.eq_dec e (-1074)); [now right|]. left.
  assert (Zdigits2 (Z.pos m) = 53) by lia.
  replace 52 with (Zdigits2 (Z.pos m) - 1) by lia. lia.
Qed.

Lemma pack_float_canonical_finite s m e :
  Float64.valid (S754_finite s m e) = true ->
  pack_float s (Zpos m, e) = S754_finite s m e.
Proof.
  intros H. apply valid_finite_canonical in H as (_ & He).
  unfold pack_float. cbn [fst snd].
  now replace (e <=? 971) with true by (symmetry; lia).
Qed.

(** ** Multiplication *)

Lemma mul_fine mx ex my ey :
  canonical_pair (Zpos mx, ex) -> canonical_pair (Zpos my, ey) ->
  fine (Zpos (mx * my)) (ex + ey).
Proof.
  intros [H|(Hb1 & HE1 & Hn1)] [H'|(Hb2 & HE2 & Hn2)]; cbn [fst snd] in *; try lia.
  unfold fine. rewrite fexp64_eq. rewrite Pos2Z.inj_mul.
  destruct Hn1 as [Hn1| ->].
  - assert (Hd : 52 < Zdigits2 (Zpos mx * Zpos my)) by (apply Zdigits2_ge_pow; nia). lia.
  - destruct Hn2 as [Hn2| ->]; [|lia].
    assert (Hd : 52 < Zdigits2 (Zpos mx * Zpos my)) by (apply Zdigits2_ge_pow; nia). lia.
Qed.

Lemma mul_finite_spec sx mx ex sy my ey :
  Float64.valid (S754_finite sx mx ex) = true ->
  Float64.valid (S754_finite sy my ey) = true ->
  Float64.mul (S754_finite sx mx ex) (S754_finite sy my ey)
  = pack_float (xorb sx sy) (round_mant (4 * (Zpos mx * Zpos my)) (ex + ey)).
Proof.
  intros Hx Hy.
  apply valid_finite_canonical in Hx as (Hx & _), Hy as (Hy & _).
  unfold Float64.mul, SFmul.
  rewrite binary_round_aux_spec; [|lia|now apply mul_fine].
  cbn [loc_code]. now rewrite Z.add_0_r, Pos2Z.inj_mul.
Qed.

(** [x * 1.0] is [x]. *)
Lemma mul_one_r x : Float64.valid x = true -> Float64.mul x Float64.one = x.
Proof.
  intros Hx. destruct x as [s|s| |s m e];
    [destruct s; reflexivity | destruct s; reflexivity | reflexivity |].
  unfold Float64.one.
  rewrite mul_finite_spec by (assumption || reflexivity).
  rewrite xorb_false_r.
  pose proof (valid_finite_canonical _ _ _ Hx) as (Hc & He).
  destruct (round_mant_id (Zpos m) e ltac:(lia) Hc) as (Hid & Hf).
  change (Zpos 4503599627370496) with (2 ^ 52).
  replace (e + -52) with (e - 52) by lia.
  destruct (round_mant_refine (Zpos m) e 52 ltac:(lia) ltac:(lia) Hf) as (-> & _).
  rewrite Hid. now apply pack_float_canonical_finite.
Qed.

(** ** Division *)

Lemma new_location_code b r :
  0 < b -> 0 <= r < b ->
  loc_code (new_location b r)
  = if r =? 0 then 0 else if 2 * r <? b then 1 else if 2 * r =? b then 2 else 3.
Proof.
  intros Hb Hr. unfold new_location.
  destruct (Z.even b) eqn:Ev; unfold new_location_even, new_location_odd;
    destruct (Z.eqb_spec r 0) as [->|Hr0]; try reflexivity.
  - destruct (Z.compare_spec (2 * r) b), (Z.ltb_spec (2 * r) b), (Z.eqb_spec (2 * r) b);
      cbn [loc_code]; lia.
  - assert (Hodd : b mod 2 = 1).
    { rewrite <- Z.negb_odd in Ev. apply negb_false_iff in Ev.
      rewrite Zodd_mod in Ev. now apply Z.eqb_eq in Ev. }
    destruct (Z.compare_spec (2 * r + 1) b), (Z.ltb_spec (2 * r) b), (Z.eqb_spec (2 * r) b);
      cbn [loc_code]; dlia.
Qed.

Lemma squot_code b q r :
  0 < b -> 0 <= r < b -> 0 <= q ->
  4 * q + loc_code (new_location b r) = squot (4 * (b * q + r)) b.
Proof.
  intros Hb Hr Hq. rewrite new_location_code by assumption. unfold squot.
  set (z := b * q).
  assert (Hm : (4 * (z + r)) mod b = (4 * r) mod b).
  { replace (4 * (z + r)) with (4 * r + (4 * q) * b) by (unfold z; lia).
    apply Z.mod_add. lia. }
  assert (Hd : (4 * (z + r)) / b = 4 * q + (4 * r) / b).
  { replace (4 * (z + r)) with (4 * r + (4 * q) * b) by (unfold z; lia).
    rewrite Z.div_add by lia. lia. }
  assert (Hd2 : (4 * (z + r)) / (2 * b) = 2 * q + (2 * r) / b).
  { replace (4 * (z + r)) with (2 * (2 * r) + (2 * q) * (2 * b)) by (unfold z; lia).
    rewrite Z.div_add by lia. rewrite Z.div_mul_cancel_l by lia. lia. }
  rewrite Hm, Hd, Hd2.
  destruct (Z.eqb_spec r 0) as [->|Hr0].
  - rewrite Z.mul_0_r, Z.mod_0_l, Z.div_0_l by lia.
    change (0 =? 0) with true. cbv iota. lia.
  - pose proof (Z.div_mod (4 * r) b ltac:(lia)) as H4.
    pose proof (Z.mod_pos_bound (4 * r) b Hb) as H4'.
    pose proof (Z.div_mod (2 * r) b ltac:(lia)) as H2.
    pose proof (Z.mod_pos_bound (2 * r) b Hb) as H2'.
    assert (Hu : 0 <= 4 * r / b < 4)
      by (split; [apply Z.div_pos | apply Z.div_lt_upper_bound]; lia).
    assert (Hu2 : 0 <= 2 * r / b < 2)
      by (split; [apply Z.div_pos | apply Z.div_lt_upper_bound]; lia).
    set (u := 4 * r / b) in *. set (v := (4 * r) mod b) in *.
    set (u2 := 2 * r / b) in *. set (v2 := (2 * r) mod b) in *.
    assert (Eu : u = 0 \/ u = 1 \/ u = 2 \/ u = 3) by lia.
    assert (Eu2 : u2 = 0 \/ u2 = 1) by lia.
    destruct (Z.ltb_spec (2 * r) b); [|destruct (Z.eqb_spec (2 * r) b)];
      destruct (Z.eqb_spec v 0);
      destruct Eu as [Eu|[Eu|[Eu|Eu]]]; rewrite Eu in *;
      destruct Eu2 as [Eu2|Eu2]; rewrite Eu2 in *; lia.
Qed.

Lemma squot_bounds N b : 0 <= N -> 0 < b -> N / b <= squot N b <= N / b + 1.
Proof.
  intros HN Hb. unfold squot.
  rewrite (Z.mul_comm 2 b), <- Z.div_div by lia.
  destruct (_ =? 0); dlia.
Qed.

Lemma squot_mono N1 N2 b : 0 <= N1 <= N2 -> 0 < b -> squot N1 b <= squot N2 b.
Proof.
  intros HN Hb.
  pose proof (squot_bounds N1 b ltac:(lia) Hb) as H1.
  pose proof (squot_bounds N2 b ltac:(lia) Hb) as H2.
  assert (Hq : N1 / b <= N2 / b) by (apply Z.div_le_mono; lia).
  destruct (Z.eq_dec (N1 / b) (N2 / b)) as [He|]; [|lia].
  unfold squot in *. rewrite (Z.mul_comm 2 b), <- !Z.div_div in * by lia.
  rewrite He in *.
  destruct (Z.eqb_spec (N1 mod b) 0), (Z.eqb_spec (N2 mod b) 0); try lia.
  exfalso. pose proof (Z.div_mod N1 b). pose proof (Z.div_mod N2 b).
  pose proof (Z.mod_pos_bound N1 b Hb). nia.
Qed.

Lemma squot_div4 N b : 0 <= N -> 0 < b -> squot N b / 4 = N / b / 4.
Proof.
  intros HN Hb. unfold squot.
  rewrite (Z.mul_comm 2 b), <- Z.div_div by lia.
  destruct (_ =? 0); dlia.
Qed.

Lemma sticky_squot_1 N b : 0 <= N -> 0 < b -> sticky (squot (2 * N) b) 1 = squot N b.
Proof.
  intros HN Hb. rewrite sticky_1. unfold squot.
  rewrite (Z.mul_comm 2 b), <- !Z.div_div by lia.
  pose proof (Z.div_mod N b ltac:(lia)) as HNb. pose proof (Z.mod_pos_bound N b Hb) as Hr.
  set (Q := N / b) in *. set (R := N mod b) in *.
  assert (HQ : 0 <= Q) by (apply Z.div_pos; lia).
  destruct (Z.ltb_spec (2 * R) b) as [Hlt|Hge].
  - assert (Hd : (2 * N) / b = 2 * Q)
      by (symmetry; apply (Z.div_unique _ b _ (2 * R)); lia).
    assert (Hm : (2 * N) mod b = 2 * R)
      by (symmetry; apply (Z.mod_unique _ b (2 * Q) _); lia).
    rewrite Hd, Hm.
    destruct (Z.eqb_spec (2 * R) 0), (Z.eqb_spec R 0); try lia.
    + replace ((2 * Q) mod 2 =? 0) with true by (symmetry; apply Z.eqb_eq; dlia). dlia.
    + replace ((2 * (2 * Q / 2) + 1) mod 2 =? 0) with false
        by (symmetry; apply Z.eqb_neq; dlia). dlia.
  - assert (Hd : (2 * N) / b = 2 * Q + 1)
      by (symmetry; apply (Z.div_unique _ b _ (2 * R - b)); lia).
    assert (Hm : (2 * N) mod b = 2 * R - b)
      by (symmetry; apply (Z.mod_unique _ b (2 * Q + 1) _); lia).
    rewrite Hd, Hm.
    destruct (Z.eqb_spec R 0); [lia|].
    destruct (Z.eqb_spec (2 * R - b) 0).
    + replace ((2 * Q + 1) mod 2 =? 0) with false by (symmetry; apply Z.eqb_neq; dlia). dlia.
    + replace ((2 * ((2 * Q + 1) / 2) + 1) mod 2 =? 0) with false
        by (symmetry; apply Z.eqb_neq; dlia). dlia.
Qed.

Lemma sticky_squot N b k :
  0 <= N -> 0 < b -> 0 <= k -> sticky (squot (N * 2 ^ k) b) k = squot N b.
Proof.
  intros HN Hb Hk. revert N HN. pattern k. apply natlike_ind; [| |assumption].
  - intros N HN. now rewrite sticky_0, Z.mul_1_r.
  - intros j Hj IH N HN. unfold Z.succ.
    rewrite <- sticky_succ by assumption.
    rewrite Z.pow_add_r by lia. change (2 ^ 1) with 2.
    replace (N * (2 ^ j * 2)) with (2 * N * 2 ^ j) by lia.
    rewrite IH by lia. now apply sticky_squot_1.
Qed.

Lemma canonical_pair_nonneg p : canonical_pair p -> 0 <= fst p.
Proof. intros [->|(H & _)]; lia. Qed.

Lemma fexp64_mono x y : x <= y -> fexp64 x <= fexp64 y.
Proof. rewrite !fexp64_eq. lia. Qed.

(** The quotient digits the division core produces are fine enough. *)
Lemma div_quotient_fine m1 e1 m2 e2 :
  0 < m1 -> 0 < m2 ->
  let e' := div_exp m1 e1 m2 e2 in
  fine (m1 * 2 ^ (e1 - e2 - e') / m2) e'.
Proof.
  intros H1 H2 e'. unfold fine.
  set (s := e1 - e2 - e'). set (q := m1 * 2 ^ s / m2).
  pose proof (Zdigits2_bounds m1 H1) as Hb1. pose proof (Zdigits2_bounds m2 H2) as Hb2.
  pose proof (Zdigits2_pos m1 H1) as Hd1. pose proof (Zdigits2_pos m2 H2) as Hd2.
  set (d1 := Zdigits2 m1) in *. set (d2 := Zdigits2 m2) in *.
  assert (He' : e' = Z.min (fexp64 (d1 + e1 - (d2 + e2))) (e1 - e2)) by reflexivity.
  rewrite fexp64_eq in He'.
  destruct (Z.le_gt_cases e' (-1074)) as [Hlow|Hhigh]; [rewrite fexp64_eq; lia|].
  assert (Hs : 53 + d2 - d1 <= s) by (unfold s; lia).
  assert (Hq : 2 ^ (d1 - 1 + s - d2) <= q).
  { unfold q. apply Z.div_le_lower_bound; [lia|].
    apply (Z.le_trans _ (2 ^ d2 * 2 ^ (d1 - 1 + s - d2))).
    - apply Z.mul_le_mono_nonneg_r; [apply Z.pow_nonneg|]; lia.
    - rewrite <- Z.pow_add_r by lia.
      replace (d2 + (d1 - 1 + s - d2)) with (d1 - 1 + s) by lia.
      rewrite Z.pow_add_r by lia.
      apply Z.mul_le_mono_nonneg_r; [apply Z.pow_nonneg|]; lia. }
  assert (d1 - 1 + s - d2 < Zdigits2 q) by (apply Zdigits2_ge_pow; lia).
  rewrite fexp64_eq. unfold s in *. lia.
Qed.

Lemma div_core_spec m1 e1 m2 e2 :
  0 < m1 -> 0 < m2 ->
  let e' := div_exp m1 e1 m2 e2 in
  let q := m1 * 2 ^ (e1 - e2 - e') / m2 in
  exists l,
    SFdiv_core_binary Float64.prec Float64.emax m1 e1 m2 e2 = (q, e', l)
    /\ 4 * q + loc_code l = squot (4 * (m1 * 2 ^ (e1 - e2 - e'))) m2.
Proof.
  intros H1 H2 e' q. unfold SFdiv_core_binary.
  fold (div_exp m1 e1 m2 e2). fold e'.
  set (s := e1 - e2 - e') in *.
  assert (Hs : 0 <= s) by (unfold s, e', div_exp; lia).
  set (m' := match s with Z.pos _ => Z.shiftl m1 s | 0 => m1 | Z.neg _ => 0 end).
  assert (Hm' : m' = m1 * 2 ^ s).
  { unfold m'. destruct s as [|p|p] eqn:Es; try lia.
    now rewrite Z.shiftl_mul_pow2 by lia. }
  assert (Hpos : 0 <= m') by (rewrite Hm'; apply Z.mul_nonneg_nonneg; [|apply Z.pow_nonneg]; lia).
  pose proof (Z_div_mod m' m2 ltac:(lia)) as Hdm.
  destruct (Z.div_eucl m' m2) as [q0 r] eqn:Ed. destruct Hdm as (Hdm & Hr).
  assert (Hq0 : q0 = q).
  { unfold q. rewrite <- Hm'. apply (Z.div_unique m' m2 q0 r); lia. }
  assert (0 <= q0) by (rewrite Hq0; unfold q; apply Z.div_pos; lia).
  exists (new_location m2 r). split; [now rewrite Hq0|].
  rewrite <- Hq0, <- Hm', Hdm. now apply squot_code.
Qed.

Lemma squot_4_div4 X b : 0 <= X -> 0 < b -> squot (4 * X) b / 4 = X / b.
Proof.
  intros HX Hb. rewrite squot_div4 by lia.
  rewrite Z.div_div, (Z.mul_comm b 4), Z.div_mul_cancel_l by lia. reflexivity.
Qed.

Lemma div_round_spec s m1 e1 m2 e2 :
  0 < m1 -> 0 < m2 ->
  let e' := div_exp m1 e1 m2 e2 in
  (let '(q, e, l) := SFdiv_core_binary Float64.prec Float64.emax m1 e1 m2 e2 in
   binary_round_aux Float64.prec Float64.emax s q e l)
  = pack_float s (round_mant (squot (4 * (m1 * 2 ^ (e1 - e2 - e'))) m2) e')
  /\ canonical_pair (round_mant (squot (4 * (m1 * 2 ^ (e1 - e2 - e'))) m2) e').
Proof.
  intros H1 H2 e'.
  destruct (div_core_spec m1 e1 m2 e2 H1 H2) as (l & -> & Hc).
  pose proof (div_quotient_fine m1 e1 m2 e2 H1 H2) as Hf. cbv zeta in Hf.
  fold e' in Hc, Hf |- *.
  assert (Hs : 0 <= e1 - e2 - e') by (unfold e', div_exp; lia).
  assert (HX : 0 <= m1 * 2 ^ (e1 - e2 - e'))
    by (apply Z.mul_nonneg_nonneg; [|apply Z.pow_nonneg]; lia).
  split.
  - rewrite binary_round_aux_spec; [now rewrite Hc | apply Z.div_pos; lia | assumption].
  - apply round_mant_canonical.
    + pose proof (squot_bounds (4 * (m1 * 2 ^ (e1 - e2 - e'))) m2 ltac:(lia) H2).
      assert (0 <= 4 * (m1 * 2 ^ (e1 - e2 - e')) / m2) by (apply Z.div_pos; lia). lia.
    + now rewrite squot_4_div4.
Qed.

Lemma round_quotient_spec s a b :
  0 < a -> 0 < b ->
  Float64.round_quotient s a b = pack_float s (quot_pair a b)
  /\ canonical_pair (quot_pair a b).
Proof.
  intros Ha Hb. unfold Float64.round_quotient, quot_pair.
  destruct (div_round_spec s a 0 b 0 Ha Hb) as (Hr & Hc). cbv zeta in Hr, Hc.
  replace (0 - 0 - div_exp a 0 b 0) with (- div_exp a 0 b 0) in * by lia.
  destruct a as [|p|p]; try lia. split; assumption.
Qed.

Lemma quot_rescale a b e k :
  0 < a -> 0 < b -> e <= 0 -> 0 <= k ->
  fine (a * 2 ^ (- e) / b) e ->
  round_mant (squot (4 * (a * 2 ^ (- e + k))) b) (e - k)
  = round_mant (squot (4 * (a * 2 ^ (- e))) b) e
  /\ fine (a * 2 ^ (- e + k) / b) (e - k).
Proof.
  intros Ha Hb He Hk Hf.
  assert (HP : 0 < 2 ^ (- e)) by (apply Z.pow_pos_nonneg; lia).
  assert (HK : 0 < 2 ^ k) by (apply Z.pow_pos_nonneg; lia).
  assert (HX : 0 < a * 2 ^ (- e)) by lia.
  set (X := a * 2 ^ (- e)) in *.
  assert (EX : a * 2 ^ (- e + k) = X * 2 ^ k) by (rewrite Z.pow_add_r by lia; unfold X; lia).
  rewrite EX.
  assert (Hf' : e <= fexp64 (Zdigits2 (X * 2 ^ k / b) + (e - k))).
  { unfold fine in *.
    destruct (Z.eq_dec (X / b) 0) as [E0|Hn].
    - rewrite E0 in Hf. cbn [Zdigits2] in Hf. rewrite !fexp64_eq in *. lia.
    - assert (Hq : 0 < X / b) by (pose proof (Z.div_pos X b); lia).
      assert (Hge : X / b * 2 ^ k <= X * 2 ^ k / b).
      { apply Z.div_le_lower_bound; [lia|].
        pose proof (Z.mul_div_le X b Hb). nia. }
      assert (Hd : Zdigits2 (X / b) + k <= Zdigits2 (X * 2 ^ k / b)).
      { rewrite <- Zdigits2_mul_pow by lia. apply Zdigits2_le. lia. }
      apply (Z.le_trans _ _ _ Hf). apply fexp64_mono. lia. }
  split; [|unfold fine; lia].
  transitivity (round_mant (sticky (squot (4 * (X * 2 ^ k)) b) k) (e - k + k)).
  - symmetry. apply round_mant_rescale; try lia.
    + pose proof (squot_bounds (4 * (X * 2 ^ k)) b ltac:(lia) Hb).
      assert (0 <= 4 * (X * 2 ^ k) / b) by (apply Z.div_pos; lia). lia.
    + rewrite squot_4_div4 by lia. lia.
  - replace (4 * (X * 2 ^ k)) with (4 * X * 2 ^ k) by lia.
    rewrite sticky_squot by lia. f_equal. lia.
Qed.

Lemma div_exp_le a1 a2 b :
  0 < a1 <= a2 -> div_exp a1 0 b 0 <= div_exp a2 0 b 0.
Proof.
  intros Ha. unfold div_exp. rewrite !fexp64_eq.
  assert (Zdigits2 a1 <= Zdigits2 a2) by (apply Zdigits2_le; lia). lia.
Qed.

(** Integer true division is monotone in the numerator. *)
Lemma quot_pair_mono a1 a2 b :
  0 < a1 <= a2 -> 0 < b -> pair_le (quot_pair a1 b) (quot_pair a2 b).
Proof.
  intros Ha Hb. unfold quot_pair.
  pose proof (div_exp_le a1 a2 b Ha) as Hle.
  pose proof (div_quotient_fine a1 0 b 0 ltac:(lia) Hb) as Hf1.
  pose proof (div_quotient_fine a2 0 b 0 ltac:(lia) Hb) as Hf2.
  cbv zeta in Hf1, Hf2.
  set (e1 := div_exp a1 0 b 0) in *. set (e2 := div_exp a2 0 b 0) in *.
  replace (0 - 0 - e1) with (- e1) in Hf1 by lia.
  replace (0 - 0 - e2) with (- e2) in Hf2 by lia.
  assert (He2 : e2 <= 0) by (unfold e2, div_exp; lia).
  destruct (quot_rescale a2 b e2 (e2 - e1) ltac:(lia) Hb He2 ltac:(lia) Hf2) as (Hr & Hf2').
  replace (- e2 + (e2 - e1)) with (- e1) in * by lia.
  replace (e2 - (e2 - e1)) with e1 in * by lia.
  rewrite <- Hr.
  assert (HP : 0 < 2 ^ (- e1)) by (apply Z.pow_pos_nonneg; lia).
  assert (HX1 : 0 <= a1 * 2 ^ (- e1)) by nia.
  assert (HX2 : 0 <= a2 * 2 ^ (- e1)) by nia.
  apply round_mant_mono.
  - split.
    + pose proof (squot_bounds (4 * (a1 * 2 ^ (- e1))) b ltac:(lia) Hb).
      assert (0 <= 4 * (a1 * 2 ^ (- e1)) / b) by (apply Z.div_pos; lia). lia.
    + apply squot_mono; [|assumption]. nia.
  - rewrite squot_4_div4 by lia. assumption.
  - rewrite squot_4_div4 by lia. assumption.
Qed.

Lemma quot_pair_self w : 0 < w -> quot_pair w w = (2 ^ 52, -52).
Proof.
  intros Hw. unfold quot_pair.
  replace (div_exp w 0 w 0) with (-53)
    by (unfold div_exp; rewrite fexp64_eq; lia).
  replace (squot (4 * (w * 2 ^ (- -53))) w) with (2 ^ 55).
  - reflexivity.
  - unfold squot. replace (4 * (w * 2 ^ (- -53))) with (2 ^ 55 * w)
      by (change (2 ^ (- -53)) with (2 ^ 53); change (2 ^ 55) with (4 * 2 ^ 53); lia).
    rewrite Z.mod_mul, Z.div_mul by lia. reflexivity.
Qed.

(** ** Addition *)

Lemma iter_xO_pow m d : Zpos (Pos.iter xO m d) = Zpos m * 2 ^ Zpos d.
Proof.
  induction d as [|d IH] using Pos.peano_ind.
  - simpl. lia.
  - rewrite Pos.iter_succ, Pos2Z.inj_xO, IH, Pos2Z.inj_succ, Z.pow_succ_r by lia. lia.
Qed.

Lemma shl_align_fst m e e' :
  e' <= e -> Zpos (fst (shl_align m e e')) = Zpos m * 2 ^ (e - e').
Proof.
  intros He. unfold shl_align.
  destruct (e' - e) as [|p|p] eqn:Ed; try lia; cbn [fst].
  - replace (e - e') with 0 by lia. simpl. lia.
  - rewrite iter_xO_pow. f_equal. f_equal. lia.
Qed.

Lemma binary_round_fine_spec s m e :
  fine (Zpos m) e ->
  binary_round Float64.prec Float64.emax s m e
  = pack_float s (round_mant (4 * Zpos m) e).
Proof.
  intros Hf. unfold binary_round, shl_align.
  unfold fine in Hf. cbn [Zdigits2] in Hf.
  destruct (fexp64 (Zpos (digits2_pos m) + e) - e) as [|p|p] eqn:Ed; try lia;
    rewrite binary_round_aux_spec by (try lia; exact Hf);
    cbn [loc_code]; now rewrite Z.add_0_r.
Qed.

(** The sum of two positive finite values. *)
Lemma add_finite_spec mx ex my ey :
  canonical_pair (Zpos mx, ex) -> canonical_pair (Zpos my, ey) ->
  let e := Z.min ex ey in
  let m := Zpos mx * 2 ^ (ex - e) + Zpos my * 2 ^ (ey - e) in
  Float64.add (S754_finite false mx ex) (S754_finite false my ey)
  = pack_float false (round_mant (4 * m) e)
  /\ fine m e /\ 0 < m.
Proof.
  intros Hx Hy e m.
  assert (Hpx : 0 < 2 ^ (ex - e)) by (apply Z.pow_pos_nonneg; lia).
  assert (Hpy : 0 < 2 ^ (ey - e)) by (apply Z.pow_pos_nonneg; lia).
  assert (Hm : 0 < m) by (unfold m; nia).
  assert (Hf : fine m e).
  { destruct (round_mant_id (Zpos mx) ex ltac:(lia) Hx) as (_ & Hfx).
    unfold fine in *.
    apply (Z.le_trans _ ex); [lia|]. apply (Z.le_trans _ _ _ Hfx).
    apply fexp64_mono.
    assert (Zdigits2 (Zpos mx) + (ex - e) <= Zdigits2 m).
    { rewrite <- Zdigits2_mul_pow by lia. apply Zdigits2_le. unfold m. nia. }
    lia. }
  split; [|split; assumption].
  unfold Float64.add, SFadd. fold e.
  cbn [cond_Zopp]. rewrite !shl_align_fst by lia. fold m.
  destruct m as [|pm|pm] eqn:Em; try lia.
  cbn [binary_normalize]. now apply binary_round_fine_spec.
Qed.

Lemma one_canonical : canonical_pair (2 ^ 52, -52).
Proof. right. cbn [fst snd]. lia. Qed.

Lemma two_canonical : canonical_pair (2 ^ 52, -51).
Proof. right. cbn [fst snd]. lia. Qed.

(** [1.0 + q] for a positive [q <= 1.0]. *)
Lemma add_one_spec mq eq :
  canonical_pair (Zpos mq, eq) -> pair_le (Zpos mq, eq) (2 ^ 52, -52) ->
  let m := 2 ^ (- eq) + Zpos mq in
  Float64.add Float64.one (S754_finite false mq eq) = pack_float false (round_mant (4 * m) eq)
  /\ fine m eq /\ eq <= -52 /\ Zpos mq <= 2 ^ (- eq).
Proof.
  intros Hq Hle m.
  assert (He : eq <= -52).
  { destruct Hle as [H|(_ & [H|(H & _)])]; cbn [fst snd] in *; lia. }
  assert (Hmq : Zpos mq <= 2 ^ (- eq)).
  { destruct Hq as [H|(Hb & _)]; cbn [fst snd] in *; [lia|].
    destruct Hle as [H|(_ & [H|(H & Hm)])]; cbn [fst snd] in *; try lia.
    - assert (2 ^ 53 <= 2 ^ (- eq)) by (apply Z.pow_le_mono_r; lia). lia.
    - now rewrite H. }
  destruct (add_finite_spec 4503599627370496 (-52) mq eq one_canonical Hq)
    as (Hadd & Hf & _).
  cbv zeta in Hadd, Hf.
  rewrite Z.min_r in Hadd, Hf by lia.
  rewrite Z.sub_diag, Z.mul_1_r in Hadd, Hf.
  change (Zpos 4503599627370496) with (2 ^ 52) in Hadd, Hf.
  rewrite <- Z.pow_add_r in Hadd, Hf by lia.
  replace (52 + (-52 - eq)) with (- eq) in Hadd, Hf by lia.
  auto.
Qed.

Lemma add_one_range mq eq :
  canonical_pair (Zpos mq, eq) -> pair_le (Zpos mq, eq) (2 ^ 52, -52) ->
  let p := round_mant (4 * (2 ^ (- eq) + Zpos mq)) eq in
  canonical_pair p /\ pair_le (2 ^ 52, -52) p /\ pair_le p (2 ^ 52, -51).
Proof.
  intros Hq Hle p.
  destruct (add_one_spec mq eq Hq Hle) as (_ & Hf & He & Hmq). cbv zeta in Hf.
  assert (HP : 0 < 2 ^ (- eq)) by (apply Z.pow_pos_nonneg; lia).
  set (m := 2 ^ (- eq) + Zpos mq) in *.
  assert (Hc : canonical_pair p).
  { apply round_mant_canonical; [lia|]. now replace (4 * m / 4) with m by dlia. }
  split; [assumption|]. split.
  - destruct (round_mant_id (2 ^ 52) (-52) ltac:(lia) one_canonical) as (<- & Hf1).
    apply exact_round_le; try lia; try assumption.
    rewrite Z.min_r by lia. rewrite Z.sub_diag, Z.mul_1_r, <- Z.pow_add_r by lia.
    replace (52 + (-52 - eq)) with (- eq) by lia. unfold m. lia.
  - destruct (round_mant_id (2 ^ 52) (-51) ltac:(lia) two_canonical) as (<- & Hf2).
    apply exact_round_le; try lia; try assumption.
    rewrite Z.min_l by lia. rewrite Z.sub_diag, Z.mul_1_r, <- Z.pow_add_r by lia.
    replace (52 + (-51 - eq)) with (1 + - eq) by lia.
    rewrite Z.pow_add_r by lia. change (2 ^ 1) with 2. unfold m. lia.
Qed.

Lemma add_one_mono mq1 eq1 mq2 eq2 :
  canonical_pair (Zpos mq1, eq1) -> canonical_pair (Zpos mq2, eq2) ->
  pair_le (Zpos mq1, eq1) (Zpos mq2, eq2) -> pair_le (Zpos mq2, eq2) (2 ^ 52, -52) ->
  pair_le (round_mant (4 * (2 ^ (- eq1) + Zpos mq1)) eq1)
          (round_mant (4 * (2 ^ (- eq2) + Zpos mq2)) eq2).
Proof.
  intros Hq1 Hq2 H12 H2.
  destruct (pair_le_value _ _ Hq1 Hq2 ltac:(cbn; lia) H12) as (_ & Hv). cbn [fst snd] in Hv.
  assert (H1 : pair_le (Zpos mq1, eq1) (2 ^ 52, -52)).
  { destruct H12 as [H|(_ & H12)]; cbn [fst snd] in *; [lia|].
    destruct H2 as [H|(_ & H2)]; cbn [fst snd] in *; [lia|].
    right. cbn [fst snd]. split; lia. }
  destruct (add_one_spec mq1 eq1 Hq1 H1) as (_ & Hf1 & He1 & Hm1).
  destruct (add_one_spec mq2 eq2 Hq2 H2) as (_ & Hf2 & He2 & Hm2).
  cbv zeta in Hf1, Hf2.
  assert (HP1 : 0 < 2 ^ (- eq1)) by (apply Z.pow_pos_nonneg; lia).
  assert (HP2 : 0 < 2 ^ (- eq2)) by (apply Z.pow_pos_nonneg; lia).
  apply exact_round_le; try lia; try assumption.
  set (e := Z.min eq1 eq2) in *.
  rewrite !Z.mul_add_distr_r, <- !Z.pow_add_r by lia.
  replace (- eq1 + (eq1 - e)) with (- e) by lia.
  replace (- eq2 + (eq2 - e)) with (- e) by lia.
  lia.
Qed.

(** Multiplication by a positive value is monotone. *)
Lemma mul_mono mb eb m1 e1 m2 e2 :
  canonical_pair (Zpos mb, eb) ->
  canonical_pair (Zpos m1, e1) -> canonical_pair (Zpos m2, e2) ->
  pair_le (Zpos m1, e1) (Zpos m2, e2) ->
  pair_le (round_mant (4 * (Zpos mb * Zpos m1)) (eb + e1))
          (round_mant (4 * (Zpos mb * Zpos m2)) (eb + e2)).
Proof.
  intros Hb H1 H2 Hle.
  destruct (pair_le_value _ _ H1 H2 ltac:(cbn; lia) Hle) as (_ & Hv). cbn [fst snd] in Hv.
  pose proof (mul_fine mb eb m1 e1 Hb H1) as Hf1.
  pose proof (mul_fine mb eb m2 e2 Hb H2) as Hf2.
  rewrite Pos2Z.inj_mul in Hf1, Hf2.
  apply exact_round_le; try lia; try assumption.
  replace (Z.min (eb + e1) (eb + e2)) with (eb + Z.min e1 e2) by lia.
  replace (eb + e1 - (eb + Z.min e1 e2)) with (e1 - Z.min e1 e2) by lia.
  replace (eb + e2 - (eb + Z.min e1 e2)) with (e2 - Z.min e1 e2) by lia.
  rewrite <- !Z.mul_assoc. apply Z.mul_le_mono_nonneg_l; lia.
Qed.

(** ** Integer true division and conversion *)

Lemma quot_pair_exp_bound a b :
  0 < a -> 0 < b -> snd (quot_pair a b) <= fexp64 (Zdigits2 a) + 1.
Proof.
  intros Ha Hb. unfold quot_pair, round_mant.
  set (e' := div_exp a 0 b 0).
  assert (He' : e' <= 0) by (unfold e', div_exp; lia).
  assert (HP : 0 < 2 ^ (- e')) by (apply Z.pow_pos_nonneg; lia).
  rewrite squot_4_div4 by nia.
  assert (Hd : Zdigits2 (a * 2 ^ (- e') / b) + e' <= Zdigits2 a).
  { assert (Zdigits2 (a * 2 ^ (- e') / b) <= Zdigits2 (a * 2 ^ (- e'))).
    { apply Zdigits2_le. split; [apply Z.div_pos; nia|].
      apply Z.div_le_upper_bound; nia. }
    rewrite Zdigits2_mul_pow in H by lia. lia. }
  apply fexp64_mono in Hd.
  destruct (_ =? 2 ^ 53); cbn [snd]; lia.
Qed.

Lemma pack_float_finite s p :
  canonical_pair p -> snd p <= 971 ->
  Float64.is_finite (pack_float s p) = true
  /\ (0 < fst p -> exists m, fst p = Zpos m /\ pack_float s p = S754_finite s m (snd p))
  /\ (fst p = 0 -> pack_float s p = S754_zero s).
Proof.
  destruct p as [M E]. cbn [fst snd]. intros Hc HE.
  apply canonical_pair_nonneg in Hc. cbn [fst] in Hc.
  unfold pack_float. cbn [fst snd].
  replace (E <=? 971) with true by (symmetry; lia).
  destruct M as [|m|m]; try lia.
  - split; [reflexivity|]. split; [lia | reflexivity].
  - split; [reflexivity|]. split; [eauto | lia].
Qed.

Lemma quot_pair_pos a b : 0 < b -> b <= a -> 0 < fst (quot_pair a b).
Proof.
  intros Hb Ha.
  pose proof (quot_pair_mono b a b ltac:(lia) Hb) as Hle.
  rewrite quot_pair_self in Hle by assumption.
  destruct (round_quotient_spec false a b ltac:(lia) Hb) as (_ & Hc).
  apply canonical_pair_nonneg in Hc.
  destruct Hle as [H|(Hn & _)]; cbn [fst snd] in *; lia.
Qed.

Lemma xorb_sign a b : 0 < b -> xorb (a <? 0) (b <? 0) = (a <? 0).
Proof. intros Hb. replace (b <? 0) with false by (symmetry; lia). apply xorb_false_r. Qed.

Lemma shl_align_spec m e e' :
  Zpos (fst (shl_align m e e')) = Zpos m * 2 ^ (e - Z.min e e')
  /\ snd (shl_align m e e') = Z.min e e'.
Proof.
  unfold shl_align.
  destruct (e' - e) as [|p|p] eqn:Ed; cbn [fst snd].
  - rewrite Z.min_l by lia. rewrite Z.sub_diag, Z.mul_1_r. split; reflexivity.
  - rewrite Z.min_l by lia. rewrite Z.sub_diag, Z.mul_1_r. split; reflexivity.
  - rewrite Z.min_r by lia. rewrite iter_xO_pow. split; [|reflexivity].
    f_equal. f_equal. lia.
Qed.

Lemma int_pair_fine n :
  0 < n -> fine (n * 2 ^ Z.max 0 (- fexp64 (Zdigits2 n))) (- Z.max 0 (- fexp64 (Zdigits2 n))).
Proof.
  intros Hn. unfold fine.
  rewrite Zdigits2_mul_pow by lia.
  replace (Zdigits2 n + Z.max 0 (- fexp64 (Zdigits2 n)) + - Z.max 0 (- fexp64 (Zdigits2 n)))
    with (Zdigits2 n) by lia.
  lia.
Qed.

Lemma int_pair_canonical n : 0 < n -> canonical_pair (int_pair n).
Proof.
  intros Hn. unfold int_pair. cbv zeta.
  set (k := Z.max 0 (- fexp64 (Zdigits2 n))).
  assert (0 < 2 ^ k) by (apply Z.pow_pos_nonneg; lia).
  apply round_mant_canonical; [nia|].
  replace (4 * (n * 2 ^ k) / 4) with (n * 2 ^ k) by dlia.
  now apply int_pair_fine.
Qed.

(** The conversion of a positive [int] rounds it once. *)
Lemma binary_normalize_int n :
  0 < n ->
  binary_normalize Float64.prec Float64.emax n 0 false = pack_float false (int_pair n).
Proof.
  intros Hn. destruct n as [|p|p]; try lia.
  cbn [binary_normalize]. unfold binary_round.
  fold (Zdigits2 (Zpos p)). rewrite Z.add_0_r.
  pose proof (shl_align_spec p 0 (fexp64 (Zdigits2 (Zpos p)))) as (Hm & He).
  destruct (shl_align p 0 (fexp64 (Zdigits2 (Zpos p)))) as [mz ez]. cbn [fst snd] in Hm, He.
  pose proof (int_pair_fine (Zpos p) Hn) as Hf.
  unfold int_pair. cbv zeta.
  replace (Z.max 0 (- fexp64 (Zdigits2 (Z.pos p)))) with (- ez) in * by lia.
  replace (0 - Z.min 0 (fexp64 (Zdigits2 (Z.pos p)))) with (- ez) in Hm by lia.
  rewrite Z.opp_involutive in *. rewrite <- Hm in *.
  rewrite binary_round_aux_spec by (lia || assumption).
  cbn [loc_code]. now rewrite Z.add_0_r.
Qed.

(** The conversion is monotone. *)
Lemma int_pair_mono n1 n2 : 0 < n1 <= n2 -> pair_le (int_pair n1) (int_pair n2).
Proof.
  intros Hn. unfold int_pair. cbv zeta.
  pose proof (int_pair_fine n1 ltac:(lia)) as Hf1.
  pose proof (int_pair_fine n2 ltac:(lia)) as Hf2.
  set (k1 := Z.max 0 (- fexp64 (Zdigits2 n1))) in *.
  set (k2 := Z.max 0 (- fexp64 (Zdigits2 n2))) in *.
  assert (0 < 2 ^ k1) by (apply Z.pow_pos_nonneg; lia).
  assert (0 < 2 ^ k2) by (apply Z.pow_pos_nonneg; lia).
  apply exact_round_le; try nia; try assumption.
  set (e := Z.min (- k1) (- k2)).
  rewrite <- !Z.mul_assoc, <- !Z.pow_add_r by lia.
  replace (k1 + (- k1 - e)) with (- e) by lia.
  replace (k2 + (- k2 - e)) with (- e) by lia.
  apply Z.mul_le_mono_nonneg_r; [apply Z.pow_nonneg|]; lia.
Qed.

Lemma int_pair_one : int_pair 1 = (2 ^ 52, -52).
Proof. reflexivity. Qed.

Lemma int_pair_max : int_pair max_convertible = (2 ^ 53 - 1, 971).
Proof. vm_compute. reflexivity. Qed.

Lemma int_pair_over : int_pair (max_convertible + 1) = (2 ^ 52, 972).
Proof. vm_compute. reflexivity. Qed.

(** [float(n)] succeeds exactly up to [max_convertible]. *)
Lemma of_int_spec n :
  1 <= n ->
  (n <= max_convertible ->
   exists m e, Float64.of_int n = Ok (S754_finite false m e)
               /\ Float64.valid (S754_finite false m e) = true)
  /\ (max_convertible < n -> Float64.of_int n = Raise OverflowError).
Proof.
  intros Hn. unfold Float64.of_int.
  rewrite binary_normalize_int by lia.
  pose proof (int_pair_canonical n ltac:(lia)) as Hc.
  assert (Hpos : 0 < fst (int_pair n)).
  { pose proof (int_pair_mono 1 n ltac:(lia)) as Hle. rewrite int_pair_one in Hle.
    apply canonical_pair_nonneg in Hc.
    destruct Hle as [H|(H & _)]; cbn [fst snd] in *; lia. }
  split; intros Hb.
  - pose proof (int_pair_mono n max_convertible ltac:(lia)) as Hle.
    rewrite int_pair_max in Hle.
    assert (HE : snd (int_pair n) <= 971).
    { destruct Hle as [H|(_ & [H|(H & _)])]; cbn [fst snd] in *; lia. }
    destruct (pack_float_finite false _ Hc HE) as (_ & Hfin & _).
    destruct (Hfin Hpos) as (m & Hm & Hp).
    exists m, (snd (int_pair n)). rewrite Hp. split; [reflexivity|].
    rewrite <- Hp. now apply pack_float_valid.
  - assert (Hmc : 0 < max_convertible) by reflexivity.
    pose proof (int_pair_mono (max_convertible + 1) n ltac:(lia)) as Hle.
    rewrite int_pair_over in Hle.
    assert (HE : 972 <= snd (int_pair n)).
    { destruct Hle as [H|(_ & [H|(H & _)])]; cbn [fst snd] in *; lia. }
    unfold pack_float. destruct (fst (int_pair n)) as [|m|m]; try lia.
    now replace (snd (int_pair n) <=? 971) with false by (symmetry; lia).
Qed.

(** ** The urgency multiplier *)

Lemma max0_pack_false p :
  canonical_pair p -> snd p <= 971 ->
  max0 (pack_float false p) = pack_float false p.
Proof.
  intros Hc HE. destruct (pack_float_finite false p Hc HE) as (_ & Hpos & Hz).
  pose proof (canonical_pair_nonneg p Hc) as Hn.
  destruct (Z.eq_dec (fst p) 0) as [E0|Hne].
  - now rewrite (Hz E0).
  - destruct (Hpos ltac:(lia)) as (m & _ & ->). reflexivity.
Qed.

Lemma max0_pack_true p :
  canonical_pair p -> max0 (pack_float true p) = Float64.zero.
Proof.
  intros Hc. pose proof (canonical_pair_nonneg p Hc) as Hn.
  unfold pack_float. destruct (fst p) as [|m|m]; try lia; [reflexivity|].
  destruct (snd p <=? 971); reflexivity.
Qed.

Lemma quot_pair_le_one a w : 0 < a <= w -> pair_le (quot_pair a w) (2 ^ 52, -52).
Proof.
  intros Ha. rewrite <- (quot_pair_self w) by lia. apply quot_pair_mono; lia.
Qed.

Lemma int_true_divide_pos a w :
  0 < a <= w ->
  Float64.int_true_divide a w = Ok (pack_float false (quot_pair a w))
  /\ (fst (quot_pair a w) = 0 \/ snd (quot_pair a w) <= -52).
Proof.
  intros Ha. unfold Float64.int_true_divide.
  replace (w =? 0) with false by (symmetry; lia).
  rewrite xorb_sign by lia. replace (a <? 0) with false by (symmetry; lia).
  rewrite !Z.abs_eq by lia.
  destruct (round_quotient_spec false a w ltac:(lia) ltac:(lia)) as (-> & Hc).
  pose proof (quot_pair_le_one a w Ha) as Hle.
  assert (HE : fst (quot_pair a w) = 0 \/ snd (quot_pair a w) <= -52).
  { destruct Hle as [H|(_ & [H|(H & _)])]; cbn [fst snd] in *; lia. }
  split; [|assumption].
  unfold pack_float. destruct (fst (quot_pair a w)) as [|m|m]; try reflexivity.
  destruct HE as [H|H]; [discriminate|].
  now replace (snd (quot_pair a w) <=? 971) with true by (symmetry; lia).
Qed.

Lemma int_true_divide_nonpos a w :
  a <= 0 -> 0 < w -> - a < 2 ^ 1000 ->
  exists q, Float64.int_true_divide a w = Ok q /\ max0 q = Float64.zero.
Proof.
  intros Ha Hw Hb. unfold Float64.int_true_divide.
  replace (w =? 0) with false by (symmetry; lia).
  rewrite xorb_sign by lia. rewrite (Z.abs_eq w) by lia.
  destruct (Z.eq_dec a 0) as [->|Hn].
  - exists Float64.zero. split; reflexivity.
  - replace (a <? 0) with true by (symmetry; lia). rewrite Z.abs_neq by lia.
    destruct (round_quotient_spec true (- a) w ltac:(lia) Hw) as (-> & Hc).
    pose proof (quot_pair_exp_bound (- a) w ltac:(lia) Hw) as HE.
    assert (Zdigits2 (- a) <= 1000) by (apply Zdigits2_lt_pow; lia).
    rewrite fexp64_eq in HE.
    destruct (pack_float_finite true _ Hc ltac:(lia)) as (Hfin & _).
    exists (pack_float true (quot_pair (- a) w)). split; [|now apply max0_pack_true].
    destruct (pack_float true (quot_pair (- a) w)); try reflexivity; discriminate.
Qed.

Lemma urgency_pair_range w d :
  0 < w -> 0 <= d ->
  canonical_pair (urgency_pair w d)
  /\ pair_le (2 ^ 52, -52) (urgency_pair w d)
  /\ pair_le (urgency_pair w d) (2 ^ 52, -51).
Proof.
  intros Hw Hd. unfold urgency_pair.
  assert (Hone : canonical_pair (2 ^ 52, -52)
                 /\ pair_le (2 ^ 52, -52) (2 ^ 52, -52)
                 /\ pair_le (2 ^ 52, -52) (2 ^ 52, -51)).
  { split; [apply one_canonical|]. split; right; cbn [fst snd]; lia. }
  destruct (w - d <=? 0) eqn:Ea; [exact Hone|]. apply Z.leb_gt in Ea.
  destruct (round_quotient_spec false (w - d) w ltac:(lia) Hw) as (_ & Hc).
  pose proof (quot_pair_le_one (w - d) w ltac:(lia)) as Hle.
  pose proof (canonical_pair_nonneg _ Hc) as Hn.
  cbv zeta. destruct (Z.eqb_spec (fst (quot_pair (w - d) w)) 0) as [E0|Hne]; [exact Hone|].
  destruct (quot_pair (w - d) w) as [[|m|m] e]; cbn [fst snd] in *; try lia.
  now apply add_one_range.
Qed.

Lemma urgency_pair_today w : 0 < w -> urgency_pair w 0 = (2 ^ 52, -51).
Proof.
  intros Hw. unfold urgency_pair. rewrite Z.sub_0_r.
  replace (w <=? 0) with false by (symmetry; lia).
  rewrite quot_pair_self by assumption. reflexivity.
Qed.

Lemma urgency_pair_far w d : w <= d -> urgency_pair w d = (2 ^ 52, -52).
Proof.
  intros H. unfold urgency_pair. now replace (w - d <=? 0) with true by (symmetry; lia).
Qed.

Lemma urgency_pair_mono w d1 d2 :
  0 < w -> 0 <= d1 <= d2 -> pair_le (urgency_pair w d2) (urgency_pair w d1).
Proof.
  intros Hw Hd.
  destruct (urgency_pair_range w d1 Hw ltac:(lia)) as (_ & Hlow & _).
  unfold urgency_pair in *.
  destruct (w - d2 <=? 0) eqn:Ea2; [exact Hlow|]. apply Z.leb_gt in Ea2.
  replace (w - d1 <=? 0) with false in * by (symmetry; lia).
  destruct (round_quotient_spec false (w - d1) w ltac:(lia) Hw) as (_ & Hc1).
  destruct (round_quotient_spec false (w - d2) w ltac:(lia) Hw) as (_ & Hc2).
  pose proof (quot_pair_mono (w - d2) (w - d1) w ltac:(lia) Hw) as Hle.
  pose proof (quot_pair_le_one (w - d1) w ltac:(lia)) as Hle1.
  pose proof (canonical_pair_nonneg _ Hc1) as Hn1.
  pose proof (canonical_pair_nonneg _ Hc2) as Hn2.
  cbv zeta in *.
  destruct (Z.eqb_spec (fst (quot_pair (w - d2) w)) 0) as [E0|Hne2]; [exact Hlow|].
  assert (Hne1 : fst (quot_pair (w - d1) w) <> 0).
  { destruct Hle as [H|(H & _)]; [contradiction | assumption]. }
  destruct (Z.eqb_spec (fst (quot_pair (w - d1) w)) 0) as [E0|_]; [contradiction|].
  destruct (quot_pair (w - d1) w) as [[|m1|m1] e1]; cbn [fst snd] in *; try lia.
  destruct (quot_pair (w - d2) w) as [[|m2|m2] e2]; cbn [fst snd] in *; try lia.
  now apply add_one_mono.
Qed.

Lemma compute_urgency_spec w d :
  0 < w -> 0 <= d < 2 ^ 1000 ->
  exists q,
    Float64.int_true_divide (w - d) w = Ok q
    /\ compute_urgency (Some d) w = Ok (Float64.add Float64.one (max0 q))
    /\ Float64.add Float64.one (max0 q) = pack_float false (urgency_pair w d).
Proof.
  intros Hw Hd. unfold compute_urgency, urgency_pair.
  destruct (w - d <=? 0) eqn:Ea.
  - apply Z.leb_le in Ea.
    destruct (int_true_divide_nonpos (w - d) w Ea Hw ltac:(lia)) as (q & Hq & Hm).
    exists q. rewrite Hq. cbn [bind]. rewrite Hm.
    split; [reflexivity|]. split; reflexivity.
  - apply Z.leb_gt in Ea.
    destruct (int_true_divide_pos (w - d) w ltac:(lia)) as (Hq & HE).
    destruct (round_quotient_spec false (w - d) w ltac:(lia) Hw) as (_ & Hc).
    pose proof (quot_pair_le_one (w - d) w ltac:(lia)) as Hle.
    pose proof (canonical_pair_nonneg _ Hc) as Hn.
    exists (pack_float false (quot_pair (w - d) w)). rewrite Hq. cbn [bind].
    split; [reflexivity|]. split; [reflexivity|].
    cbv zeta.
    destruct (Z.eqb_spec (fst (quot_pair (w - d) w)) 0) as [E0|Hne].
    + unfold pack_float at 1. rewrite E0. reflexivity.
    + destruct HE as [HE|HE]; [contradiction|].
      rewrite max0_pack_false by (assumption || lia).
      destruct (quot_pair (w - d) w) as [[|m|m] e]; cbn [fst snd] in *; try lia.
      unfold pack_float at 1. cbn [fst snd].
      replace (e <=? 971) with true by (symmetry; lia).
      now destruct (add_one_spec m e Hc Hle) as (-> & _).
Qed.

(** ** The score *)

Lemma div_finite_spec sx mx ex sy my ey :
  exists P, canonical_pair P
    /\ Float64.div (S754_finite sx mx ex) (S754_finite sy my ey)
       = pack_float (xorb sx sy) P.
Proof.
  destruct (div_round_spec (xorb sx sy) (Zpos mx) ex (Zpos my) ey ltac:(lia) ltac:(lia))
    as (Hr & Hc).
  eexists. split; [exact Hc|]. exact Hr.
Qed.

Lemma div_valid x y : Float64.valid (Float64.div x y) = true.
Proof.
  destruct x as [sx|sx| |sx mx ex], y as [sy|sy| |sy my ey]; try reflexivity.
  destruct (div_finite_spec sx mx ex sy my ey) as (P & Hc & ->).
  now apply pack_float_valid.
Qed.

Lemma pack_float_nonneg P : canonical_pair P -> nonneg_float (pack_float false P).
Proof.
  intros Hc. pose proof (pack_float_valid false P Hc) as Hv.
  pose proof (canonical_pair_nonneg P Hc) as Hn.
  unfold pack_float in *. destruct (fst P) as [|m|m]; try lia.
  - now left.
  - destruct (snd P <=? 971); [right; right; eauto | right; now left].
Qed.

Lemma div_nonneg x mf ef :
  Float64.ltb Float64.zero x = true ->
  nonneg_float (Float64.div x (S754_finite false mf ef)).
Proof.
  destruct x as [sx|sx| |sx mx ex]; try discriminate; destruct sx; try discriminate; intros _.
  - right. now left.
  - destruct (div_finite_spec false mx ex false mf ef) as (P & Hc & ->).
    now apply pack_float_nonneg.
Qed.

Lemma urgency_pair_finite w d :
  0 < w -> 0 <= d ->
  exists m e, urgency_pair w d = (Zpos m, e) /\ e <= -51
    /\ pack_float false (urgency_pair w d) = S754_finite false m e
    /\ canonical_pair (Zpos m, e).
Proof.
  intros Hw Hd. destruct (urgency_pair_range w d Hw Hd) as (Hc & Hlo & Hhi).
  pose proof (canonical_pair_nonneg _ Hc) as Hn.
  destruct (urgency_pair w d) as [M E]. cbn [fst snd] in *.
  assert (HM : 0 < M) by (destruct Hlo as [H|(H & _)]; cbn [fst snd] in *; lia).
  assert (HE : E <= -51)
    by (destruct Hhi as [H|(_ & [H|(H & _)])]; cbn [fst snd] in *; lia).
  destruct M as [|m|m]; try lia.
  exists m, E. repeat split; try assumption.
  unfold pack_float. cbn [fst snd].
  now replace (E <=? 971) with true by (symmetry; lia).
Qed.

(** The score does not decrease when the urgency grows. *)
Lemma mul_nonneg_mono base m1 e1 m2 e2 :
  nonneg_float base ->
  canonical_pair (Zpos m1, e1) -> canonical_pair (Zpos m2, e2) ->
  e1 <= 971 -> e2 <= 971 ->
  pair_le (Zpos m1, e1) (Zpos m2, e2) ->
  Float64.leb (Float64.mul base (S754_finite false m1 e1))
              (Float64.mul base (S754_finite false m2 e2)) = true.
Proof.
  intros [->|[->|(mb & eb & -> & Hv)]] H1 H2 He1 He2 Hle; try reflexivity.
  assert (Hv1 : Float64.valid (S754_finite false m1 e1) = true).
  { rewrite <- (pack_float_valid false _ H1). unfold pack_float. cbn [fst snd].
    now replace (e1 <=? 971) with true by (symmetry; lia). }
  assert (Hv2 : Float64.valid (S754_finite false m2 e2) = true).
  { rewrite <- (pack_float_valid false _ H2). unfold pack_float. cbn [fst snd].
    now replace (e2 <=? 971) with true by (symmetry; lia). }
  rewrite !mul_finite_spec by assumption. cbn [xorb].
  pose proof (valid_finite_canonical _ _ _ Hv) as (Hb & _).
  pose proof (mul_fine mb eb m1 e1 Hb H1) as Hf1.
  pose proof (mul_fine mb eb m2 e2 Hb H2) as Hf2.
  rewrite Pos2Z.inj_mul in Hf1, Hf2.
  apply pack_float_leb.
  - apply canonical_pair_nonneg, round_mant_canonical; [lia|].
    now replace (4 * (Z.pos mb * Z.pos m1) / 4) with (Z.pos mb * Z.pos m1) by dlia.
  - apply canonical_pair_nonneg, round_mant_canonical; [lia|].
    now replace (4 * (Z.pos mb * Z.pos m2) / 4) with (Z.pos mb * Z.pos m2) by dlia.
  - now apply mul_mono.
Qed.

Lemma mul_nonneg_not_nan base m e :
  Float64.is_nan base = false ->
  Float64.valid base = true ->
  Float64.valid (S754_finite false m e) = true ->
  Float64.is_nan (Float64.mul base (S754_finite false m e)) = false.
Proof.
  intros Hn Hvb Hv. destruct base as [s|s| |s mb eb]; try reflexivity; try discriminate.
  rewrite mul_finite_spec by assumption.
  pose proof (valid_finite_canonical _ _ _ Hvb) as (Hb & _).
  pose proof (valid_finite_canonical _ _ _ Hv) as (Hc & _).
  pose proof (mul_fine mb eb m e Hb Hc) as Hf. rewrite Pos2Z.inj_mul in Hf.
  assert (Hcan : canonical_pair (round_mant (4 * (Z.pos mb * Z.pos m)) (eb + e))).
  { apply round_mant_canonical; [lia|].
    now replace (4 * (Z.pos mb * Z.pos m) / 4) with (Z.pos mb * Z.pos m) by dlia. }
  apply canonical_pair_nonneg in Hcan.
  unfold pack_float. destruct (fst _) as [|p|p]; try lia; [reflexivity|].
  destruct (_ <=? 971); reflexivity.
Qed.

Lemma div_not_nan x m e :
  Float64.is_nan x = false ->
  Float64.is_nan (Float64.div x (S754_finite false m e)) = false.
Proof.
  intros Hn. destruct x as [s|s| |s mx ex]; try reflexivity; try discriminate.
  destruct (div_finite_spec s mx ex false m e) as (P & Hc & ->).
  apply canonical_pair_nonneg in Hc.
  unfold pack_float. destruct (fst P) as [|p|p]; try lia; [reflexivity|].
  destruct (_ <=? 971); reflexivity.
Qed.

Lemma map_result_Ok {A B : Type} (f : A -> result B) l : forall l',
  map_result f l = Ok l' -> Forall2 (fun x y => f x = Ok y) l l'.
Proof.
  induction l as [|x l IH]; intros l' H; simpl in H.
  - injection H as <-. constructor.
  - inv_bind H. inv_bind H. injection H as <-. constructor; auto.
Qed.

Lemma StronglySorted_split {A : Type} (R : A -> A -> Prop) l1 : forall x l2 y l3,
  StronglySorted R (l1 ++ x :: l2 ++ y :: l3) -> R x y.
Proof.
  induction l1 as [|a l1 IH]; intros x l2 y l3 H; simpl in H.
  - inversion H as [|? ? _ Hall]; subst.
    rewrite Forall_forall in Hall. apply Hall.
    apply in_or_app. right. now left.
  - inversion H; subst. eapply IH; eassumption.
Qed.

(** ** Zero-padded dates order as their strings *)

Lemma digit_value_inv c d :
  PyLib.digit_value c = Some d -> 0 <= d <= 9 /\ c = digit_char d.
Proof.
  unfold PyLib.digit_value, digit_char.
  destruct ((48 <=? Z.of_nat (nat_of_ascii c)) && (Z.of_nat (nat_of_ascii c) <=? 57)) eqn:E;
    [|discriminate].
  intros [= <-]. apply andb_true_iff in E as (E1 & E2).
  apply Z.leb_le in E1, E2. split; [lia|].
  replace (48 + Z.to_nat (Z.of_nat (nat_of_ascii c) - 48))%nat with (nat_of_ascii c) by lia.
  now rewrite ascii_nat_embedding.
Qed.

Lemma month_table y m :
  1 <= m <= 12 ->
  let l := if PyLib.is_leap y then 1 else 0 in
  (m = 1 /\ PyLib.days_before_month y m = 0 /\ PyLib.days_in_month y m = 31)
  \/ (m = 2 /\ PyLib.days_before_month y m = 31 /\ PyLib.days_in_month y m = 28 + l)
  \/ (m = 3 /\ PyLib.days_before_month y m = 59 + l /\ PyLib.days_in_month y m = 31)
  \/ (m = 4 /\ PyLib.days_before_month y m = 90 + l /\ PyLib.days_in_month y m = 30)
  \/ (m = 5 /\ PyLib.days_before_month y m = 120 + l /\ PyLib.days_in_month y m = 31)
  \/ (m = 6 /\ PyLib.days_before_month y m = 151 + l /\ PyLib.days_in_month y m = 30)
  \/ (m = 7 /\ PyLib.days_before_month y m = 181 + l /\ PyLib.days_in_month y m = 31)
  \/ (m = 8 /\ PyLib.days_before_month y m = 212 + l /\ PyLib.days_in_month y m = 31)
  \/ (m = 9 /\ PyLib.days_before_month y m = 243 + l /\ PyLib.days_in_month y m = 30)
  \/ (m = 10 /\ PyLib.days_before_month y m = 273 + l /\ PyLib.days_in_month y m = 31)
  \/ (m = 11 /\ PyLib.days_before_month y m = 304 + l /\ PyLib.days_in_month y m = 30)
  \/ (m = 12 /\ PyLib.days_before_month y m = 334 + l /\ PyLib.days_in_month y m = 31).
Proof.
  intros Hm l.
  assert (E : m = 1 \/ m = 2 \/ m = 3 \/ m = 4 \/ m = 5 \/ m = 6 \/ m = 7 \/ m = 8
              \/ m = 9 \/ m = 10 \/ m = 11 \/ m = 12) by lia.
  unfold l. clear l.
  repeat (destruct E as [-> | E];
          [unfold PyLib.days_before_month; simpl; destruct (PyLib.is_leap y);
           simpl; tauto|]).
  subst m. unfold PyLib.days_before_month. simpl. destruct (PyLib.is_leap y); simpl; tauto.
Qed.

Lemma year_length y :
  PyLib.days_before_year (y + 1)
  = PyLib.days_before_year y + 365 + (if PyLib.is_leap y then 1 else 0).
Proof.
  unfold PyLib.days_before_year, PyLib.is_leap. cbv zeta.
  replace (y + 1 - 1) with y by lia.
  destruct (Z.eqb_spec (y mod 4) 0), (Z.eqb_spec (y mod 100) 0), (Z.eqb_spec (y mod 400) 0);
    cbn [negb andb orb]; dlia.
Qed.

Lemma days_before_year_mono y y' :
  y <= y' -> PyLib.days_before_year y <= PyLib.days_before_year y'.
Proof. intros H. unfold PyLib.days_before_year. cbv zeta. dlia. Qed.

Lemma ymd_to_ordinal_inv y m d x :
  PyLib.ymd_to_ordinal y m d = Some x ->
  1 <= m <= 12 /\ 1 <= d <= PyLib.days_in_month y m
  /\ x = PyLib.days_before_year y + PyLib.days_before_month y m + d.
Proof.
  unfold PyLib.ymd_to_ordinal.
  destruct (_ && _) eqn:E; [|discriminate].
  intros [= <-]. rewrite !andb_true_iff in E. lia.
Qed.

Lemma ymd_to_ordinal_mono y m d x y' m' d' x' :
  PyLib.ymd_to_ordinal y m d = Some x ->
  PyLib.ymd_to_ordinal y' m' d' = Some x' ->
  y < y' \/ (y = y' /\ (m < m' \/ (m = m' /\ d < d'))) ->
  x < x'.
Proof.
  intros H H' Hlex.
  apply ymd_to_ordinal_inv in H as (Hm & Hd & ->).
  apply ymd_to_ordinal_inv in H' as (Hm' & Hd' & ->).
  pose proof (month_table y m Hm) as T. pose proof (month_table y' m' Hm') as T'.
  cbv zeta in T, T'.
  destruct Hlex as [Hy | (<- & Hlex)].
  - pose proof (year_length y) as Hl.
    pose proof (days_before_year_mono (y + 1) y' ltac:(lia)) as Hmono.
    assert (PyLib.days_before_month y m + d
            <= 365 + (if PyLib.is_leap y then 1 else 0)).
    { destruct (PyLib.is_leap y); lia. }
    assert (0 <= PyLib.days_before_month y' m').
    { destruct (PyLib.is_leap y'); lia. }
    lia.
  - destruct Hlex as [Hlt | (<- & Hlt)]; [|lia].
    destruct (PyLib.is_leap y); lia.
Qed.

(** What the ten characters of a zero-padded date are. *)
Lemma strptime_date_inv s x :
  PyLib.strptime_date s = Some x ->
  exists a1 a2 a3 a4 b1 b2 c1 c2,
    (0 <= a1 <= 9 /\ 0 <= a2 <= 9 /\ 0 <= a3 <= 9 /\ 0 <= a4 <= 9
     /\ 0 <= b1 <= 9 /\ 0 <= b2 <= 9 /\ 0 <= c1 <= 9 /\ 0 <= c2 <= 9)
    /\ s = String (digit_char a1) (String (digit_char a2) (String (digit_char a3)
           (String (digit_char a4) (String "-" (String (digit_char b1)
           (String (digit_char b2) (String "-" (String (digit_char c1)
           (String (digit_char c2) EmptyString)))))))))
    /\ PyLib.ymd_to_ordinal (1000 * a1 + 100 * a2 + 10 * a3 + a4)
                            (10 * b1 + b2) (10 * c1 + c2) = Some x.
Proof.
  unfold PyLib.strptime_date.
  destruct s as [|y1 [|y2 [|y3 [|y4 [|h1 [|m1 [|m2 [|h2 [|d1 [|d2 [|? ?]]]]]]]]]]];
    try discriminate.
  destruct (Ascii.eqb h1 "-" && Ascii.eqb h2 "-") eqn:Eh; [|discriminate].
  apply andb_true_iff in Eh as (Eh1 & Eh2).
  apply Ascii.eqb_eq in Eh1, Eh2. subst h1 h2.
  cbn [PyLib.digits_value].
  destruct (PyLib.digit_value y1) as [a1|] eqn:A1; [|discriminate].
  destruct (PyLib.digit_value y2) as [a2|] eqn:A2; [|discriminate].
  destruct (PyLib.digit_value y3) as [a3|] eqn:A3; [|discriminate].
  destruct (PyLib.digit_value y4) as [a4|] eqn:A4; [|discriminate].
  destruct (PyLib.digit_value m1) as [b1|] eqn:B1; [|discriminate].
  destruct (PyLib.digit_value m2) as [b2|] eqn:B2; [|discriminate].
  destruct (PyLib.digit_value d1) as [c1|] eqn:C1; [|discriminate].
  destruct (PyLib.digit_value d2) as [c2|] eqn:C2; [|discriminate].
  apply digit_value_inv in A1 as (? & ->), A2 as (? & ->), A3 as (? & ->), A4 as (? & ->).
  apply digit_value_inv in B1 as (? & ->), B2 as (? & ->), C1 as (? & ->), C2 as (? & ->).
  intros Hx. exists a1, a2, a3, a4, b1, b2, c1, c2.
  split; [repeat split; lia|]. split; [reflexivity|].
  rewrite <- Hx. f_equal; lia.
Qed.

(** Two deadlines in zero-padded form compare, as strings, as the dates
    they denote. *)
Lemma padded_dates_order s1 s2 x1 x2 :
  PyLib.strptime_date s1 = Some x1 -> PyLib.strptime_date s2 = Some x2 ->
  (String.ltb s1 s2 = true <-> x1 < x2).
Proof.
  intros H1 H2.
  apply strptime_date_inv in H1
    as (a1 & a2 & a3 & a4 & b1 & b2 & c1 & c2 & Ha & -> & O1).
  apply strptime_date_inv in H2
    as (p1 & p2 & p3 & p4 & q1 & q2 & r1 & r2 & Hp & -> & O2).
  unfold String.ltb. cbn [String.compare].
  rewrite !digit_char_compare by lia.
  change (Ascii.compare "-" "-") with Eq. cbv iota.
  pose proof (ymd_to_ordinal_mono _ _ _ _ _ _ _ _ O1 O2) as Lt12.
  pose proof (ymd_to_ordinal_mono _ _ _ _ _ _ _ _ O2 O1) as Lt21.
  assert (Heq : a1 = p1 -> a2 = p2 -> a3 = p3 -> a4 = p4 -> b1 = q1 -> b2 = q2 ->
                c1 = r1 -> c2 = r2 -> x1 = x2).
  { intros; subst. congruence. }
  destruct (Z.compare_spec a1 p1);
    [|split; [intros _; apply Lt12; lia | reflexivity]
     |split; [discriminate | intros Hx; assert (x2 < x1) by (apply Lt21; lia); lia]].
  destruct (Z.compare_spec a2 p2);
    [|split; [intros _; apply Lt12; lia | reflexivity]
     |split; [discriminate | intros Hx; assert (x2 < x1) by (apply Lt21; lia); lia]].
  destruct (Z.compare_spec a3 p3);
    [|split; [intros _; apply Lt12; lia | reflexivity]
     |split; [discriminate | intros Hx; assert (x2 < x1) by (apply Lt21; lia); lia]].
  destruct (Z.compare_spec a4 p4);
    [|split; [intros _; apply Lt12; lia | reflexivity]
     |split; [discriminate | intros Hx; assert (x2 < x1) by (apply Lt21; lia); lia]].
  destruct (Z.compare_spec b1 q1);
    [|split; [intros _; apply Lt12; lia | reflexivity]
     |split; [discriminate | intros Hx; assert (x2 < x1) by (apply Lt21; lia); lia]].
  destruct (Z.compare_spec b2 q2);
    [|split; [intros _; apply Lt12; lia | reflexivity]
     |split; [discriminate | intros Hx; assert (x2 < x1) by (apply Lt21; lia); lia]].
  destruct (Z.compare_spec c1 r1);
    [|split; [intros _; apply Lt12; lia | reflexivity]
     |split; [discriminate | intros Hx; assert (x2 < x1) by (apply Lt21; lia); lia]].
  destruct (Z.compare_spec c2 r2);
    [|split; [intros _; apply Lt12; lia | reflexivity]
     |split; [discriminate | intros Hx; assert (x2 < x1) by (apply Lt21; lia); lia]].
  split; [discriminate|]. intros Hx. rewrite Heq in Hx by assumption. lia.
Qed.

Section Pack.
Variable today : Z.
Variable strptime_date : string -> option Z.
Variable int_of_str : string -> option Z.

Local Abbreviation pack := (schedule_tasks_for_day today strptime_date int_of_str).
Local Abbreviation budget hours := (Float64.to_int (Float64.mul hours Float64.sixty)).
Local Abbreviation score_of := (compute_score today strptime_date).

(** What a successful run returns. *)
Lemma pack_Ok tasks hours start allow_split w blocks :
  pack tasks hours start allow_split w = Ok blocks ->
  exists sorted total h m,
    score_and_sort today strptime_date tasks w = Ok sorted
    /\ budget hours = Ok total
    /\ parse_start int_of_str start = Ok (h, m)
    /\ blocks = render (h * 60 + m) 0 (allocation allow_split (map task sorted) total)
    /\ (blocks <> [] -> 0 <= h <= 23 /\ 0 <= m <= 59).
Proof.
  unfold schedule_tasks_for_day. intros H.
  inv_bind H. inv_bind H. inv_bind H. destruct x1 as [h m]. inv_bind H.
  injection H as <-.
  apply loop_render in E2. simpl in E2. destruct E2 as (Hs & _ & _ & Hv).
  exists x, x0, h, m.
  split; [assumption|]. split; [assumption|]. split; [assumption|].
  split; [assumption|].
  intros Hne. apply Hv. intros Hal. apply Hne. now rewrite Hs, Hal.
Qed.

Lemma score_and_sort_Ok tasks w sorted :
  score_and_sort today strptime_date tasks w = Ok sorted ->
  Permutation (map task sorted) tasks
  /\ Forall (fun a => score_of (task a) w = Ok (score a)) sorted
  /\ Sorted (not_after sort_key key_lt) sorted.
Proof.
  unfold score_and_sort. intros H. inv_bind H. injection H as <-.
  apply map_result_Ok in E.
  assert (Hx : map task x = tasks
               /\ Forall (fun a => score_of (task a) w = Ok (score a)) x).
  { induction E as [|t a l l' Hta _ IH]; [split; [reflexivity | constructor]|].
    destruct IH as (IH1 & IH2).
    inv_bind Hta. injection Hta as <-. simpl. split; [now f_equal|].
    constructor; assumption. }
  destruct Hx as (Hm & Hs).
  pose proof (list_sort_perm sort_key key_lt x) as Hp.
  split; [|split].
  - rewrite <- Hm. now apply Permutation_map.
  - rewrite Forall_forall in *. intros a Ha. apply Hs.
    eapply Permutation_in; eassumption.
  - apply list_sort_sorted. exact key_lt_asym.
Qed.

(** C1 (budget respect).  For tasks of at least one minute each, any
    start string and either setting of [allow_split], whenever the packer
    returns blocks and the budget [int(hours * 60)] is [total]: if
    [total] is not negative the minutes of the blocks sum to at most
    [total], and if [total] is negative no block is returned. *)
Theorem budget_respected tasks hours start allow_split w blocks total :
  Forall (fun t => 1 <= minutes t) tasks ->
  pack tasks hours start allow_split w = Ok blocks ->
  budget hours = Ok total ->
  (0 <= total -> sum_minutes blocks <= total)
  /\ (total < 0 -> blocks = []).
Proof.
  intros _ H Hb.
  apply pack_Ok in H as (sorted & total' & h & m & _ & Hb' & _ & -> & _).
  rewrite Hb in Hb'. injection Hb' as <-.
  rewrite sum_minutes_render. split; intros Ht.
  - now apply allocation_budget.
  - now rewrite allocation_nonpos by lia.
Qed.

(** C2 (at most one partial block).  A run that returns blocks renders
    the allocation of the sorted tasks; at most one allocated chunk is
    shorter than its task's stored minutes, and such a chunk is the last
    one, occurs only with [allow_split] enabled, and leaves the minutes
    of the blocks summing to exactly the budget. *)
Theorem single_partial_block tasks hours start allow_split w blocks :
  pack tasks hours start allow_split w = Ok blocks ->
  exists sorted total h m al,
    score_and_sort today strptime_date tasks w = Ok sorted
    /\ budget hours = Ok total
    /\ al = allocation allow_split (map task sorted) total
    /\ blocks = render (h * 60 + m) 0 al
    /\ (List.length (filter is_partial al) <= 1)%nat
    /\ (forall pre a post, al = pre ++ a :: post -> is_partial a = true ->
          post = [] /\ allow_split = true /\ sum_minutes blocks = total).
Proof.
  intros H.
  apply pack_Ok in H as (sorted & total & h & m & Hs & Hb & _ & -> & _).
  exists sorted, total, h, m, (allocation allow_split (map task sorted) total).
  split; [assumption|]. split; [assumption|]. split; [reflexivity|].
  split; [reflexivity|]. split; [apply allocation_one_partial|].
  intros pre a post Hal Ha. rewrite sum_minutes_render.
  eapply allocation_partial; eassumption.
Qed.


(** C4 (sort order).  The blocks are the rendering, in order, of the
    list produced by scoring and sorting, a permutation of the tasks,
    each with its score.  When no score is a NaN that list is ordered by
    descending score, then ascending deadline string, with 9999-12-31
    for a missing deadline, then ascending stored minutes; a task without
    deadline never precedes a task of equal score whose deadline string
    is below 9999-12-31; and of two tasks of equal score whose deadline
    strings are zero-padded dates, the one placed first has the earlier
    date, or the same. *)
Theorem sorted_by_score_deadline_duration tasks hours start allow_split w blocks :
  pack tasks hours start allow_split w = Ok blocks ->
  exists sorted total h m,
    score_and_sort today strptime_date tasks w = Ok sorted
    /\ budget hours = Ok total
    /\ parse_start int_of_str start = Ok (h, m)
    /\ Permutation (map task sorted) tasks
    /\ Forall (fun a => score_of (task a) w = Ok (score a)) sorted
    /\ (Forall score_defined sorted ->
        StronglySorted ranks_before sorted
        /\ (forall l1 x l2 y l3,
              sorted = l1 ++ x :: l2 ++ y :: l3 ->
              Float64.eqb (score x) (score y) = true ->
              deadline_key (task x) = sentinel ->
              String.ltb (deadline_key (task y)) sentinel = false)
        /\ (forall l1 x l2 y l3 dx dy,
              sorted = l1 ++ x :: l2 ++ y :: l3 ->
              Float64.eqb (score x) (score y) = true ->
              PyLib.strptime_date (deadline_key (task x)) = Some dx ->
              PyLib.strptime_date (deadline_key (task y)) = Some dy ->
              dx <= dy))
    /\ blocks = render (h * 60 + m) 0 (allocation allow_split (map task sorted) total).
Proof.
  intros H.
  apply pack_Ok in H as (sorted & total & h & m & Hs & Hb & Hp & Hbl & _).
  exists sorted, total, h, m.
  destruct (score_and_sort_Ok _ _ _ Hs) as (Hperm & Hsc & Hsorted).
  repeat (split; [assumption|]). split; [|assumption].
  intros Hdef.
  assert (Hss : StronglySorted ranks_before sorted).
  { apply (Sorted_strongly _ score_defined); [apply ranks_before_trans | assumption |].
    clear -Hsorted Hdef. induction Hsorted as [|a l Hl IH Hhd]; [constructor|].
    inversion Hdef as [|? ? Ha Hdl]; subst.
    constructor; [auto|].
    destruct Hhd as [|b l Hab]; constructor.
    inversion Hdl; subst. now apply not_after_ranks. }
  split; [assumption|]. split.
  - intros l1 x l2 y l3 -> Heq Hx.
    apply StronglySorted_split in Hss.
    destruct (String.ltb (deadline_key (task y)) sentinel) eqn:Hy; [exfalso|reflexivity].
    destruct Hss as [Hlt | (_ & [Hlt | (Hd & _)])].
    + rewrite eqb_sym in Heq. apply ltb_not_eqb in Hlt. congruence.
    + rewrite Hx in Hlt. apply string_ltb_asym in Hlt. congruence.
    + rewrite <- Hd, Hx, string_ltb_irrefl in Hy. discriminate.
  - intros l1 x l2 y l3 dx dy -> Heq Hx Hy.
    apply StronglySorted_split in Hss.
    destruct Hss as [Hlt | (_ & [Hlt | (Hd & _)])].
    + rewrite eqb_sym in Heq. apply ltb_not_eqb in Hlt. congruence.
    + apply (padded_dates_order _ _ _ _ Hx Hy) in Hlt. lia.
    + rewrite Hd in Hx. assert (dx = dy) by congruence. lia.
Qed.
End Pack.

Section LoopTotal.
Variables (today h m : Z) (allow_split : bool).
Hypothesis Hh : 0 <= h <= 23.
Hypothesis Hm : 0 <= m <= 59.
Hypothesis Htoday : 1 <= today.

Lemma make_block_total t name c n :
  0 <= c -> 0 <= n ->
  today + (1439 + c + n) / 1440 <= max_ordinal ->
  exists b, make_block today h m t name c n = Ok b.
Proof.
  intros Hc Hn Hday. unfold make_block.
  rewrite mk_time_valid by assumption. cbn [bind].
  assert (Hd1 : (h * 60 + m + c) / 1440 <= (1439 + c + n) / 1440)
    by (apply Z.div_le_mono; lia).
  assert (Hd0 : 0 <= (h * 60 + m + c) / 1440) by (apply Z.div_pos; lia).
  rewrite plus_minutes_in_range by (cbn [hour minute]; lia).
  cbn [bind hour minute].
  set (s := time_of_minutes (h * 60 + m + c)).
  pose proof (time_of_minutes_total (h * 60 + m + c)) as Hs. fold s in Hs.
  pose proof (Z.mod_pos_bound (h * 60 + m + c) 1440).
  assert (Hd2 : (hour s * 60 + minute s + n) / 1440 <= (1439 + c + n) / 1440)
    by (apply Z.div_le_mono; lia).
  assert (Hd3 : 0 <= (hour s * 60 + minute s + n) / 1440) by (apply Z.div_pos; lia).
  rewrite plus_minutes_in_range by lia.
  cbn [bind]. eauto.
Qed.

Lemma loop_total tasks : forall st,
  Forall (fun t => 0 <= minutes t) tasks ->
  0 <= current_minutes st ->
  today + (1439 + current_minutes st + Z.max 0 (leftover_minutes st)) / 1440
    <= max_ordinal ->
  exists st', loop today h m allow_split tasks st = Ok st'.
Proof.
  induction tasks as [|t rest IH]; intros st Hpos Hc Hday; simpl; [eauto|].
  inversion Hpos as [|? ? Ht Hrest]; subst.
  destruct (leftover_minutes st <=? 0) eqn:E0; [eauto|].
  unfold loop_body.
  destruct (minutes t <=? leftover_minutes st) eqn:E1.
  - destruct (make_block_total t (title t) (current_minutes st) (minutes t))
      as (b & ->); try lia.
    { etransitivity; [|exact Hday]. apply Z.add_le_mono_l, Z.div_le_mono; lia. }
    cbn [bind]. apply IH; cbn [current_minutes leftover_minutes]; try assumption; try lia.
    etransitivity; [|exact Hday]. apply Z.add_le_mono_l, Z.div_le_mono; lia.
  - destruct (allow_split && (0 <? leftover_minutes st)) eqn:E2.
    + destruct (make_block_total t (title t ++ part_suffix)%string
                  (current_minutes st) (leftover_minutes st)) as (b & ->); try lia.
      { etransitivity; [|exact Hday]. apply Z.add_le_mono_l, Z.div_le_mono; lia. }
      cbn [bind]. apply IH; cbn [current_minutes leftover_minutes]; try assumption; try lia.
      etransitivity; [|exact Hday]. apply Z.add_le_mono_l, Z.div_le_mono; lia.
    + cbn [bind]. now apply IH.
Qed.
End LoopTotal.

Lemma parse_start_well_formed int_of_str start h m :
  well_formed_start int_of_str start h m ->
  parse_start int_of_str start = Ok (h, m).
Proof.
  intros (hs & ms & Hsp & Hhs & Hms & _). unfold parse_start.
  now rewrite Hsp; simpl; rewrite Hhs, Hms.
Qed.

Lemma parse_start_Ok int_of_str start h m :
  parse_start int_of_str start = Ok (h, m) ->
  map int_of_str (split_colon start) = [Some h; Some m].
Proof.
  unfold parse_start.
  destruct (map int_of_str (split_colon start)) as [|[a|] [|[b|] [|c l]]]; try discriminate.
  now intros [= -> ->].
Qed.

Lemma parse_start_unparseable int_of_str start :
  ~ parseable_start int_of_str start ->
  parse_start int_of_str start = Raise ValueError.
Proof.
  intros Hn. destruct (parse_start int_of_str start) as [[h m]|e] eqn:E.
  - exfalso. apply Hn. exists h, m. now apply parse_start_Ok.
  - unfold parse_start in E.
    destruct (map int_of_str (split_colon start)) as [|[a|] [|[b|] [|c l]]];
      try discriminate; congruence.
Qed.

(** With a start outside the clock's range, the first block to build
    raises; a walk that builds none returns. *)
Lemma loop_invalid_start today h m allow_split tasks : forall st,
  ~ (0 <= h <= 23 /\ 0 <= m <= 59) ->
  loop today h m allow_split tasks st
  = match allocation allow_split tasks (leftover_minutes st) with
    | [] => Ok st
    | _ :: _ => Raise (start_error h m)
    end.
Proof.
  intros st Hbad.
  assert (Hmk : forall t name c n,
             make_block today h m t name c n = Raise (start_error h m)).
  { intros. unfold make_block, mk_time, start_error.
    destruct (fits_c_int h && fits_c_int m); [|reflexivity]. cbn [negb].
    replace ((0 <=? h) && (h <=? 23) && (0 <=? m) && (m <=? 59)) with false; [reflexivity|].
    symmetry. apply not_true_is_false. rewrite !andb_true_iff. lia. }
  revert st. induction tasks as [|t rest IH]; intros st; cbn [loop allocation]; [reflexivity|].
  destruct (leftover_minutes st <=? 0); [reflexivity|].
  unfold loop_body.
  destruct (minutes t <=? leftover_minutes st); [now rewrite Hmk|].
  destruct (allow_split && (0 <? leftover_minutes st)); [now rewrite Hmk|].
  cbn [bind]. apply IH.
Qed.

Section Pack2.
Variable today : Z.
Variable strptime_date : string -> option Z.
Variable int_of_str : string -> option Z.

Local Abbreviation pack := (schedule_tasks_for_day today strptime_date int_of_str).
Local Abbreviation budget hours := (Float64.to_int (Float64.mul hours Float64.sixty)).
Local Abbreviation score_of := (compute_score today strptime_date).

(** A run succeeds when scoring, the budget conversion, the start string
    and the calendar raise nothing. *)
Lemma pack_total tasks hours start allow_split w sorted total h m :
  score_and_sort today strptime_date tasks w = Ok sorted ->
  budget hours = Ok total ->
  well_formed_start int_of_str start h m ->
  Forall (fun t => 0 <= minutes t) tasks ->
  1 <= today ->
  today + (1439 + Z.max 0 total) / 1440 <= max_ordinal ->
  pack tasks hours start allow_split w
  = Ok (render (h * 60 + m) 0 (allocation allow_split (map task sorted) total)).
Proof.
  intros Hs Hb Hwf Hpos Htoday Hday.
  pose proof (parse_start_well_formed _ _ _ _ Hwf) as Hp.
  destruct Hwf as (_ & _ & _ & _ & _ & Hh & Hm).
  assert (Hpos' : Forall (fun t => 0 <= minutes t) (map task sorted)).
  { apply score_and_sort_Ok in Hs as (Hperm & _).
    rewrite Forall_forall in *. intros t Ht. apply Hpos.
    eapply Permutation_in; eassumption. }
  destruct (loop_total today h m allow_split Hh Hm Htoday (map task sorted)
              (initial_state total) Hpos') as (st' & Hl);
    [cbn [initial_state current_minutes leftover_minutes];
     rewrite ?Z.add_0_r; first [assumption | lia] .. |].
  unfold schedule_tasks_for_day. rewrite Hs, Hb, Hp. cbn [bind]. rewrite Hl. cbn [bind].
  apply loop_render in Hl. simpl in Hl. destruct Hl as (-> & _). reflexivity.
Qed.

(** C9 (start time).  A start string that line 66 cannot read as two
    integers separated by one colon makes the run raise, and the error is
    [ValueError] once scoring and the budget conversion have succeeded; a
    start string denoting an hour in 0..23 and a minute in 0..59 is read,
    [time] accepts it, and the run returns blocks; two integers out of
    those ranges pass line 66 and are rejected only when a block has to
    be built, with [ValueError], or with [OverflowError] when one of them
    does not fit a C [int]; a run that builds no block returns the empty
    schedule. *)
Theorem malformed_start_rejected tasks hours start allow_split w :
  (~ parseable_start int_of_str start ->
     (exists e, pack tasks hours start allow_split w = Raise e)
     /\ (forall sorted total,
           score_and_sort today strptime_date tasks w = Ok sorted ->
           budget hours = Ok total ->
           pack tasks hours start allow_split w = Raise ValueError))
  /\ (forall h m,
        well_formed_start int_of_str start h m ->
        parse_start int_of_str start = Ok (h, m)
        /\ mk_time h m = Ok {| hour := h; minute := m |}
        /\ (forall sorted total,
              score_and_sort today strptime_date tasks w = Ok sorted ->
              budget hours = Ok total ->
              Forall (fun t => 0 <= minutes t) tasks ->
              1 <= today ->
              today + (1439 + Z.max 0 total) / 1440 <= max_ordinal ->
              exists blocks, pack tasks hours start allow_split w = Ok blocks))
  /\ (forall h m sorted total,
        parse_start int_of_str start = Ok (h, m) ->
        ~ (0 <= h <= 23 /\ 0 <= m <= 59) ->
        score_and_sort today strptime_date tasks w = Ok sorted ->
        budget hours = Ok total ->
        pack tasks hours start allow_split w
        = match allocation allow_split (map task sorted) total with
          | [] => Ok []
          | _ :: _ => Raise (start_error h m)
          end).
Proof.
  split; [|split].
  - intros Hn. apply parse_start_unparseable in Hn.
    assert (Hgen : forall sorted total,
               score_and_sort today strptime_date tasks w = Ok sorted ->
               budget hours = Ok total ->
               pack tasks hours start allow_split w = Raise ValueError).
    { intros sorted total Hs Hb. unfold schedule_tasks_for_day.
      now rewrite Hs, Hb, Hn. }
    split; [|exact Hgen].
    destruct (score_and_sort today strptime_date tasks w) as [sorted|e] eqn:Hs.
    + destruct (budget hours) as [total|e] eqn:Hb.
      * exists ValueError. eapply Hgen; reflexivity.
      * exists e. unfold schedule_tasks_for_day. now rewrite Hs, Hb.
    + exists e. unfold schedule_tasks_for_day. now rewrite Hs.
  - intros h m Hwf. split; [now apply parse_start_well_formed|].
    split.
    + destruct Hwf as (_ & _ & _ & _ & _ & Hh & Hm). now apply mk_time_valid.
    + intros sorted total Hs Hb Hpos Ht Hday. eexists.
      eapply pack_total; eassumption.
  - intros h m sorted total Hp Hbad Hs Hb.
    unfold schedule_tasks_for_day. rewrite Hs, Hb, Hp. cbn [bind].
    rewrite loop_invalid_start by assumption.
    cbn [initial_state leftover_minutes].
    now destruct (allocation allow_split (map task sorted) total).
Qed.


(** C5 (skip and continue).  Without splitting, a task longer than the
    remaining budget is passed over and the loop goes on with the rest of
    the list, so a later task that fits is placed; two tasks of 300
    minutes with a budget of 480 minutes give exactly one block, of 300
    minutes, at the start time. *)
Theorem skip_and_continue :
  (forall h m t rest st,
      0 < leftover_minutes st -> leftover_minutes st < minutes t ->
      loop today h m false (t :: rest) st = loop today h m false rest st)
  /\ (forall t t2 rest L,
        0 < L -> L < minutes t -> minutes t2 <= L ->
        allocation false (t :: t2 :: rest) L
        = (t2, minutes t2) :: allocation false rest (L - minutes t2))
  /\ (forall t1 t2 start w h m sorted,
        minutes t1 = 300 -> minutes t2 = 300 ->
        score_and_sort today strptime_date [t1; t2] w = Ok sorted ->
        well_formed_start int_of_str start h m ->
        1 <= today < max_ordinal ->
        exists b, pack [t1; t2] eight start false w = Ok [b]
                  /\ b_minutes b = 300
                  /\ b_start b = format_time {| hour := h; minute := m |}).
Proof.
  split; [|split].
  - intros h m t rest st H0 Hbig. cbn [loop].
    replace (leftover_minutes st <=? 0) with false by (symmetry; lia).
    unfold loop_body.
    replace (minutes t <=? leftover_minutes st) with false by (symmetry; lia).
    reflexivity.
  - intros t t2 rest L H0 Hbig Hfit. cbn [allocation].
    replace (L <=? 0) with false by (symmetry; lia).
    replace (minutes t <=? L) with false by (symmetry; lia).
    replace (minutes t2 <=? L) with true by (symmetry; lia).
    reflexivity.
  - intros t1 t2 start w h m sorted H1 H2 Hs Hwf Ht.
    assert (Hb : budget eight = Ok 480) by reflexivity.
    rewrite (pack_total [t1; t2] eight start false w sorted 480 h m); try assumption.
    + destruct (score_and_sort_Ok _ _ _ _ _ Hs) as (Hperm & _).
      assert (Hlen : List.length (map task sorted) = 2%nat)
        by (now rewrite (Permutation_length Hperm)).
      assert (Hall : Forall (fun t => minutes t = 300) (map task sorted)).
      { rewrite Forall_forall. intros t Hin.
        apply (Permutation_in _ Hperm) in Hin. destruct Hin as [<-|[<-|[]]]; assumption. }
      destruct (map task sorted) as [|a [|b [|c l]]]; try discriminate.
      inversion Hall as [|? ? Ha Hall']; subst. inversion Hall' as [|? ? Hb' _]; subst.
      cbn [allocation]. rewrite Ha, Hb'.
      change (480 <=? 0) with false. change (300 <=? 480) with true.
      change (480 - 300 <=? 0) with false. change (300 <=? 480 - 300) with false.
      cbn [andb allocation render].
      eexists. split; [reflexivity|]. split; [reflexivity|].
      cbn [b_start block_of]. destruct Hwf as (_ & _ & _ & _ & _ & Hh & Hm).
      now rewrite Z.add_0_r, time_of_minutes_small.
    + repeat constructor; lia.
    + lia.
    + change (Z.max 0 480) with 480. change ((1439 + 480) / 1440) with 1.
      unfold max_ordinal in *. lia.
Qed.
End Pack2.

Section Scorer.
Variable today : Z.
Variable strptime_date : string -> option Z.

Local Abbreviation score_of := (compute_score today strptime_date).
Local Abbreviation days_left_of := (days_until_deadline today strptime_date).

Lemma days_until_deadline_None dl :
  days_left_of dl = None <->
  (dl = None \/ dl = Some EmptyString
   \/ exists s, dl = Some s /\ strptime_date s = None).
Proof.
  unfold days_until_deadline. split.
  - destruct dl as [[|c s]|]; auto.
    destruct (strptime_date (String c s)) eqn:E; [discriminate|]. eauto.
  - intros [->|[->|(s & -> & E)]]; try reflexivity.
    destruct s; [reflexivity|]. now rewrite E.
Qed.

Lemma days_until_deadline_Some s x :
  s <> EmptyString -> strptime_date s = Some x ->
  days_left_of (Some s) = Some (Z.max 0 (x - today)).
Proof.
  intros Hs E. unfold days_until_deadline. destruct s; [congruence|]. now rewrite E.
Qed.

Lemma compute_score_inv t w s :
  score_of t w = Ok s ->
  exists u mf,
    compute_urgency (days_left_of (deadline t)) w = Ok u
    /\ Float64.of_int (Z.max 1 (minutes t)) = Ok mf
    /\ s = Float64.mul (Float64.div (impact t) mf) u.
Proof.
  unfold compute_score. intros H. inv_bind H. inv_bind H. injection H as <-. eauto.
Qed.

(** C6 (no deadline).  For a task whose deadline is absent, empty or
    rejected by the date parser the urgency is exactly 1.0; if
    [max(1, minutes)] converts to a float the score is returned and is
    exactly [impact / max(1, minutes)], and otherwise the scorer raises
    [OverflowError]. *)
Theorem no_deadline_score t w :
  (deadline t = None \/ deadline t = Some EmptyString
   \/ exists s, deadline t = Some s /\ strptime_date s = None) ->
  compute_urgency (days_left_of (deadline t)) w = Ok Float64.one
  /\ (Z.max 1 (minutes t) <= max_convertible ->
      exists mf, Float64.of_int (Z.max 1 (minutes t)) = Ok mf
        /\ score_of t w = Ok (Float64.div (impact t) mf))
  /\ (max_convertible < Z.max 1 (minutes t) ->
      score_of t w = Raise OverflowError).
Proof.
  intros Hd. apply days_until_deadline_None in Hd.
  unfold compute_score. rewrite Hd. cbn [compute_urgency bind].
  destruct (of_int_spec (Z.max 1 (minutes t)) ltac:(lia)) as (Hfit & Hover).
  split; [reflexivity|]. split; intros Hb.
  - destruct (Hfit Hb) as (m & e & Hof & Hv). eexists. split; [exact Hof|].
    rewrite Hof. cbn [bind]. now rewrite mul_one_r by apply div_valid.
  - now rewrite (Hover Hb).
Qed.

Lemma days_left_bound x :
  1 <= today -> x <= max_ordinal -> 0 <= Z.max 0 (x - today) < 2 ^ 1000.
Proof.
  intros Ht Hx. unfold max_ordinal in Hx.
  assert (2 ^ 22 <= 2 ^ 1000) by (apply Z.pow_le_mono_r; lia).
  change (2 ^ 22) with 4194304 in *. lia.
Qed.

(** C7 (urgency).  For a deadline that parses and a positive window [w],
    [days_left = max(0, deadline - today)] and the urgency is
    [1.0 + max(0, (w - days_left) / w)]; it lies between 1.0 and 2.0, is
    exactly 2.0 for a deadline today or earlier and exactly 1.0 for a
    deadline [w] or more days away, and it multiplies
    [impact / max(1, minutes)] in the score. *)
Theorem urgency_formula_and_range t w s x :
  1 <= today -> x <= max_ordinal ->
  0 < w ->
  deadline t = Some s -> s <> EmptyString -> strptime_date s = Some x ->
  let days_left := Z.max 0 (x - today) in
  days_left_of (deadline t) = Some days_left
  /\ exists q u,
       Float64.int_true_divide (w - days_left) w = Ok q
       /\ u = Float64.add Float64.one (max0 q)
       /\ compute_urgency (Some days_left) w = Ok u
       /\ Float64.leb Float64.one u = true
       /\ Float64.leb u Float64.two = true
       /\ (x <= today -> u = Float64.two)
       /\ (w <= x - today -> u = Float64.one)
       /\ (forall mf, Float64.of_int (Z.max 1 (minutes t)) = Ok mf ->
             score_of t w = Ok (Float64.mul (Float64.div (impact t) mf) u)).
Proof.
  intros Htoday Hmax Hw Hdl Hs Hx days_left.
  assert (Hdays : days_left_of (deadline t) = Some days_left)
    by (rewrite Hdl; now apply days_until_deadline_Some).
  split; [assumption|].
  pose proof (days_left_bound x Htoday Hmax) as Hb. fold days_left in Hb.
  destruct (compute_urgency_spec w days_left Hw Hb) as (q & Hq & Hu & Hp).
  exists q, (Float64.add Float64.one (max0 q)).
  destruct (urgency_pair_range w days_left Hw ltac:(lia)) as (Hc & Hlo & Hhi).
  pose proof (canonical_pair_nonneg _ Hc) as Hn.
  repeat (split; [first [assumption | reflexivity]|]).
  split; [|split; [|split; [|split]]].
  - rewrite Hp. change Float64.one with (pack_float false (2 ^ 52, -52)).
    apply pack_float_leb; cbn [fst snd]; try lia. assumption.
  - rewrite Hp. change Float64.two with (pack_float false (2 ^ 52, -51)).
    apply pack_float_leb; cbn [fst snd]; try lia. assumption.
  - intros Hpast. rewrite Hp.
    replace days_left with 0 by (unfold days_left; lia).
    now rewrite urgency_pair_today.
  - intros Hfar. rewrite Hp.
    rewrite urgency_pair_far by (unfold days_left; lia). reflexivity.
  - intros mf Hmf. unfold compute_score. rewrite Hdays, Hu, Hmf. reflexivity.
Qed.

(** C8 (monotone urgency).  For a task of positive impact and a positive
    window, of two parseable deadlines the one that is not later gives a
    score that is at least as large, when the minutes convert to a float;
    when they do not, the scorer raises [OverflowError] for both
    deadlines. *)
Theorem score_monotone_in_deadline t w s1 s2 x1 x2 :
  1 <= today -> x2 <= max_ordinal ->
  0 < w ->
  Float64.valid (impact t) = true ->
  Float64.ltb Float64.zero (impact t) = true ->
  s1 <> EmptyString -> strptime_date s1 = Some x1 ->
  s2 <> EmptyString -> strptime_date s2 = Some x2 ->
  x1 <= x2 ->
  match score_of (with_deadline t (Some s1)) w,
        score_of (with_deadline t (Some s2)) w with
  | Ok v1, Ok v2 => Float64.leb v2 v1 = true
  | Raise e1, Raise e2 =>
    e1 = OverflowError /\ e2 = OverflowError /\ max_convertible < Z.max 1 (minutes t)
  | _, _ => False
  end.
Proof.
  intros Htoday Hmax Hw Hv Hpos Hs1 Hx1 Hs2 Hx2 Hle.
  unfold compute_score. cbn [with_deadline deadline minutes impact].
  rewrite (days_until_deadline_Some s1 x1 Hs1 Hx1), (days_until_deadline_Some s2 x2 Hs2 Hx2).
  set (d1 := Z.max 0 (x1 - today)). set (d2 := Z.max 0 (x2 - today)).
  assert (Hb1 : 0 <= d1 < 2 ^ 1000) by (apply days_left_bound; lia).
  assert (Hb2 : 0 <= d2 < 2 ^ 1000) by (apply days_left_bound; lia).
  destruct (compute_urgency_spec w d1 Hw Hb1) as (q1 & _ & -> & ->).
  destruct (compute_urgency_spec w d2 Hw Hb2) as (q2 & _ & -> & ->).
  cbn [bind].
  destruct (of_int_spec (Z.max 1 (minutes t)) ltac:(lia)) as (Hfit & Hover).
  destruct (Z.le_gt_cases (Z.max 1 (minutes t)) max_convertible) as [Hsmall|Hbig].
  - destruct (Hfit Hsmall) as (mf & ef & -> & Hvf). cbn [bind].
    destruct (urgency_pair_finite w d1 Hw ltac:(lia)) as (m1 & e1 & E1 & He1 & -> & Hc1).
    destruct (urgency_pair_finite w d2 Hw ltac:(lia)) as (m2 & e2 & E2 & He2 & -> & Hc2).
    apply mul_nonneg_mono; try assumption; try lia.
    + now apply div_nonneg.
    + rewrite <- E1, <- E2. apply urgency_pair_mono; [assumption|]. unfold d1, d2. lia.
  - rewrite (Hover Hbig). cbn [bind]. split; [reflexivity|]. split; [reflexivity | lia].
Qed.

(** A score is a number whenever the impact is. *)
Lemma compute_score_defined t w v :
  1 <= today ->
  (forall s x, strptime_date s = Some x -> x <= max_ordinal) ->
  0 < w ->
  Float64.is_nan (impact t) = false ->
  score_of t w = Ok v -> Float64.is_nan v = false.
Proof.
  intros Htoday Hmax Hw Hn H. apply compute_score_inv in H as (u & mf & Hu & Hmf & ->).
  destruct (of_int_spec (Z.max 1 (minutes t)) ltac:(lia)) as (Hfit & Hover).
  destruct (Z.le_gt_cases (Z.max 1 (minutes t)) max_convertible) as [Hsmall|Hbig];
    [|rewrite (Hover Hbig) in Hmf; discriminate].
  destruct (Hfit Hsmall) as (m & e & Hof & Hvf). rewrite Hof in Hmf. injection Hmf as <-.
  assert (Hbase : Float64.is_nan (Float64.div (impact t) (S754_finite false m e)) = false)
    by now apply div_not_nan.
  destruct (days_left_of (deadline t)) as [d|] eqn:Hd.
  - assert (Hb : 0 <= d < 2 ^ 1000).
    { unfold days_until_deadline in Hd. destruct (deadline t) as [[|c s]|]; try discriminate.
      destruct (strptime_date (String c s)) as [x|] eqn:E; [|discriminate].
      injection Hd as <-. apply days_left_bound; eauto. }
    destruct (compute_urgency_spec w d Hw Hb) as (q & _ & Hu' & Hp).
    assert (Eu : u = Float64.add Float64.one (max0 q)) by congruence.
    rewrite Eu, Hp.
    destruct (urgency_pair_finite w d Hw ltac:(lia)) as (mu & eu & _ & He & -> & Hc).
    apply mul_nonneg_not_nan; [assumption | apply div_valid |].
    rewrite <- (pack_float_valid false _ Hc). unfold pack_float. cbn [fst snd].
    now replace (eu <=? 971) with true by (symmetry; lia).
  - cbn [compute_urgency] in Hu.
    assert (Eu : u = Float64.one) by congruence.
    now rewrite Eu, mul_one_r by apply div_valid.
Qed.

(** No score of a run is NaN when no impact is. *)
Lemma score_and_sort_defined tasks w sorted :
  1 <= today ->
  (forall s x, strptime_date s = Some x -> x <= max_ordinal) ->
  0 < w ->
  Forall (fun t => Float64.is_nan (impact t) = false) tasks ->
  score_and_sort today strptime_date tasks w = Ok sorted ->
  Forall score_defined sorted.
Proof.
  intros Htoday Hmax Hw Hn Hs.
  apply score_and_sort_Ok in Hs as (Hperm & Hsc & _).
  rewrite Forall_forall in *. intros a Ha.
  apply (compute_score_defined (task a) w); try assumption.
  - apply Hn. apply (Permutation_in _ Hperm). now apply in_map.
  - now apply Hsc.
Qed.
End Scorer.

(* ------------------------------------------------------------------ *)
(** * The statements on the concrete day *)

Lemma budget_respected_witness :
  (0 <= 480 -> sum_minutes [Demo.review_block; Demo.report_part] <= 480)
  /\ (480 < 0 -> [Demo.review_block; Demo.report_part] = []).
Proof.
  apply (budget_respected Demo.today PyLib.strptime_date PyLib.int_of_str
           [Demo.report; Demo.review] eight "09:00" true 7).
  - repeat constructor; simpl; lia.
  - reflexivity.
  - reflexivity.
Defined.

(** A negative budget is exceeded by the empty schedule. *)
Lemma negative_budget_exceeded :
  Forall (fun t => 1 <= minutes t) [Demo.report; Demo.review]
  /\ Demo.run [Demo.report; Demo.review] Demo.minus_one "09:00" true 7 = Ok []
  /\ Float64.to_int (Float64.mul Demo.minus_one Float64.sixty) = Ok (-60)
  /\ ~ sum_minutes [] <= -60.
Proof.
  split; [repeat constructor; simpl; lia|].
  split; [reflexivity|]. split; [reflexivity|]. simpl. lia.
Qed.

Lemma single_partial_block_witness :
  exists sorted total h m al,
    score_and_sort Demo.today PyLib.strptime_date [Demo.report; Demo.review] 7 = Ok sorted
    /\ Float64.to_int (Float64.mul eight Float64.sixty) = Ok total
    /\ al = allocation true (map task sorted) total
    /\ [Demo.review_block; Demo.report_part] = render (h * 60 + m) 0 al
    /\ (List.length (filter is_partial al) <= 1)%nat
    /\ (forall pre a post, al = pre ++ a :: post -> is_partial a = true ->
          post = [] /\ true = true
          /\ sum_minutes [Demo.review_block; Demo.report_part] = total).
Proof.
  apply (single_partial_block Demo.today PyLib.strptime_date PyLib.int_of_str
           [Demo.report; Demo.review] eight "09:00" true 7).
  reflexivity.
Defined.



Lemma sorted_by_score_deadline_duration_witness :
  exists sorted total h m,
    score_and_sort Demo.today PyLib.strptime_date
      [DemoMore.jan10; Demo.call; DemoMore.sooner] 7 = Ok sorted
    /\ Float64.to_int (Float64.mul eight Float64.sixty) = Ok total
    /\ parse_start PyLib.int_of_str "09:00" = Ok (h, m)
    /\ Permutation (map task sorted) [DemoMore.jan10; Demo.call; DemoMore.sooner]
    /\ Forall (fun a => Demo.score_of (task a) 7 = Ok (score a)) sorted
    /\ (Forall score_defined sorted ->
        StronglySorted ranks_before sorted
        /\ (forall l1 x l2 y l3,
              sorted = l1 ++ x :: l2 ++ y :: l3 ->
              Float64.eqb (score x) (score y) = true ->
              deadline_key (task x) = sentinel ->
              String.ltb (deadline_key (task y)) sentinel = false)
        /\ (forall l1 x l2 y l3 dx dy,
              sorted = l1 ++ x :: l2 ++ y :: l3 ->
              Float64.eqb (score x) (score y) = true ->
              PyLib.strptime_date (deadline_key (task x)) = Some dx ->
              PyLib.strptime_date (deadline_key (task y)) = Some dy ->
              dx <= dy))
    /\ [ DemoMore.whole_block DemoMore.sooner "09:00" "09:01";
         DemoMore.whole_block DemoMore.jan10 "09:01" "09:02";
         DemoMore.whole_block Demo.call "09:02" "09:03" ]
       = render (h * 60 + m) 0 (allocation false (map task sorted) total).
Proof.
  apply (sorted_by_score_deadline_duration Demo.today PyLib.strptime_date PyLib.int_of_str
           [DemoMore.jan10; Demo.call; DemoMore.sooner] eight "09:00" false 7).
  reflexivity.
Defined.

(** Three lists the sort does not order as by score and date.  A task
    dated 9999-12-31 ties with the sentinel, and the undated task of the
    same score and fewer minutes is placed before it.  With a NaN among
    the scores the list is left as given, the lower score before the
    higher.  And of two tasks of equal score the one dated 2027-01-10 is
    placed before the one dated 2027-1-5, as the strings compare. *)
Lemma sort_order_counterexamples :
  (deadline Demo.call = None
   /\ deadline Demo.archive = Some "9999-12-31"%string
   /\ PyLib.strptime_date "9999-12-31" = Some max_ordinal
   /\ score_and_sort Demo.today PyLib.strptime_date [Demo.archive; Demo.call] 7
      = Ok [ DemoMore.scored Demo.call Float64.one;
             DemoMore.scored Demo.archive Float64.one ]
   /\ Demo.run [Demo.archive; Demo.call] eight "09:00" false 7
      = Ok [Demo.call_block; Demo.archive_block])
  /\ (score_and_sort Demo.today PyLib.strptime_date
        [DemoMore.slow; DemoMore.odd; DemoMore.fast] 7
      = Ok [ DemoMore.scored DemoMore.slow Float64.one;
             DemoMore.scored DemoMore.odd S754_nan;
             DemoMore.scored DemoMore.fast Float64.two ]
      /\ Float64.ltb Float64.one Float64.two = true
      /\ Demo.run [DemoMore.slow; DemoMore.odd; DemoMore.fast] eight "09:00" false 7
         = Ok [ DemoMore.whole_block DemoMore.slow "09:00" "09:01";
                DemoMore.whole_block DemoMore.odd "09:01" "09:02";
                DemoMore.whole_block DemoMore.fast "09:02" "09:03" ])
  /\ (PyDate.strptime_date "2027-1-5" = Some 739986
      /\ PyDate.strptime_date "2027-01-10" = Some 739991
      /\ score_and_sort Demo.today PyDate.strptime_date
           [DemoMore.jan5; DemoMore.jan10] 7
         = Ok [ DemoMore.scored DemoMore.jan10 Float64.one;
                DemoMore.scored DemoMore.jan5 Float64.one ]
      /\ schedule_tasks_for_day Demo.today PyDate.strptime_date PyLib.int_of_str
           [DemoMore.jan5; DemoMore.jan10] eight "09:00" false 7
         = Ok [ DemoMore.whole_block DemoMore.jan10 "09:00" "09:01";
                DemoMore.whole_block DemoMore.jan5 "09:01" "09:02" ]).
Proof.
  split; [|split].
  - split; [reflexivity|]. split; [reflexivity|]. split; [reflexivity|].
    split; reflexivity.
  - split; [reflexivity|]. split; reflexivity.
  - split; [reflexivity|]. split; [reflexivity|]. split; reflexivity.
Qed.

Lemma skip_and_continue_witness :
  exists b,
    Demo.run [Demo.report; Demo.review] eight "09:00" false 7 = Ok [b]
    /\ b_minutes b = 300
    /\ b_start b = format_time {| hour := 9; minute := 0 |}.
Proof.
  eapply (proj2 (proj2 (skip_and_continue Demo.today PyLib.strptime_date PyLib.int_of_str))
            Demo.report Demo.review "09:00"%string 7 9 0).
  - reflexivity.
  - reflexivity.
  - reflexivity.
  - exists "09"%string, "00"%string. repeat split; try reflexivity; lia.
  - unfold Demo.today, max_ordinal. lia.
Defined.

Lemma no_deadline_score_witness :
  compute_urgency
    (days_until_deadline Demo.today PyLib.strptime_date (deadline Demo.vague)) 7
  = Ok Float64.one
  /\ (Z.max 1 (minutes Demo.vague) <= max_convertible ->
      exists mf, Float64.of_int (Z.max 1 (minutes Demo.vague)) = Ok mf
        /\ Demo.score_of Demo.vague 7 = Ok (Float64.div (impact Demo.vague) mf))
  /\ (max_convertible < Z.max 1 (minutes Demo.vague) ->
      Demo.score_of Demo.vague 7 = Raise OverflowError).
Proof.
  apply (no_deadline_score Demo.today PyLib.strptime_date Demo.vague 7).
  right; right. exists "next week"%string. split; reflexivity.
Defined.

(** A task without a deadline whose minutes do not fit a float makes the
    scorer raise. *)
Lemma huge_minutes_overflow :
  deadline Demo.century = None
  /\ Demo.score_of Demo.century 7 = Raise OverflowError.
Proof.
  split; [reflexivity|]. vm_compute. reflexivity.
Qed.

Lemma urgency_formula_and_range_witness :
  days_until_deadline Demo.today PyLib.strptime_date (deadline Demo.review) = Some 2
  /\ exists q u,
      Float64.int_true_divide (7 - 2) 7 = Ok q
      /\ u = Float64.add Float64.one (max0 q)
      /\ compute_urgency (Some 2) 7 = Ok u
      /\ Float64.leb Float64.one u = true
      /\ Float64.leb u Float64.two = true
      /\ (739925 <= Demo.today -> u = Float64.two)
      /\ (7 <= 739925 - Demo.today -> u = Float64.one)
      /\ (forall mf, Float64.of_int (Z.max 1 (minutes Demo.review)) = Ok mf ->
            Demo.score_of Demo.review 7
            = Ok (Float64.mul (Float64.div (impact Demo.review) mf) u)).
Proof.
  apply (urgency_formula_and_range Demo.today PyLib.strptime_date Demo.review 7
           "2026-11-05"%string 739925).
  - unfold Demo.today. lia.
  - unfold max_ordinal. lia.
  - lia.
  - reflexivity.
  - discriminate.
  - reflexivity.
Defined.

Lemma score_monotone_in_deadline_witness :
  match Demo.score_of (with_deadline Demo.review (Some "2026-11-05"%string)) 7,
        Demo.score_of (with_deadline Demo.review (Some "2026-11-08"%string)) 7 with
  | Ok v1, Ok v2 => Float64.leb v2 v1 = true
  | Raise e1, Raise e2 =>
    e1 = OverflowError /\ e2 = OverflowError
    /\ max_convertible < Z.max 1 (minutes Demo.review)
  | _, _ => False
  end.
Proof.
  apply (score_monotone_in_deadline Demo.today PyLib.strptime_date Demo.review 7
           "2026-11-05"%string "2026-11-08"%string 739925 739928).
  - unfold Demo.today. lia.
  - unfold max_ordinal. lia.
  - lia.
  - reflexivity.
  - reflexivity.
  - discriminate.
  - reflexivity.
  - discriminate.
  - reflexivity.
  - lia.
Defined.

(** With a negative window the later deadline gets the higher score, and
    with minutes beyond the floats neither deadline gets one. *)
Lemma negative_window_inverts_urgency :
  (PyLib.strptime_date "2026-11-05" = Some 739925
   /\ PyLib.strptime_date "2026-11-08" = Some 739928
   /\ Float64.ltb Float64.zero (impact Demo.review) = true
   /\ Demo.score_of (with_deadline Demo.review (Some "2026-11-05"%string)) (-7)
      = Ok (S754_finite false 8784163844623596 (-60))
   /\ Demo.score_of (with_deadline Demo.review (Some "2026-11-08"%string)) (-7)
      = Ok (S754_finite false 5215597282745261 (-59))
   /\ Float64.leb (S754_finite false 5215597282745261 (-59))
                  (S754_finite false 8784163844623596 (-60)) = false)
  /\ (Float64.ltb Float64.zero (impact Demo.century) = true
      /\ Demo.score_of (with_deadline Demo.century (Some "2026-11-05"%string)) 7
         = Raise OverflowError
      /\ Demo.score_of (with_deadline Demo.century (Some "2026-11-08"%string)) 7
         = Raise OverflowError).
Proof.
  split.
  - split; [reflexivity|]. split; [reflexivity|]. split; [reflexivity|].
    split; [reflexivity|]. split; reflexivity.
  - split; [reflexivity|]. split; vm_compute; reflexivity.
Qed.

Lemma malformed_start_rejected_witness :
  Demo.run [Demo.report] eight "0900" false 7 = Raise ValueError
  /\ (exists blocks, Demo.run [Demo.report; Demo.review] eight "09:00" false 7 = Ok blocks)
  /\ Demo.run [Demo.report] eight "25:00" false 7 = Raise ValueError
  /\ Demo.run [Demo.report] eight "2147483648:00" false 7 = Raise OverflowError.
Proof.
  split; [|split; [|split]].
  - destruct (malformed_start_rejected Demo.today PyLib.strptime_date PyLib.int_of_str
                [Demo.report] eight "0900" false 7) as (H & _ & _).
    destruct H as (_ & H).
    + intros (h & m & E). cbv in E. discriminate.
    + eapply H; reflexivity.
  - destruct (malformed_start_rejected Demo.today PyLib.strptime_date PyLib.int_of_str
                [Demo.report; Demo.review] eight "09:00" false 7) as (_ & H & _).
    destruct (H 9 0) as (_ & _ & H').
    + exists "09"%string, "00"%string. repeat split; try reflexivity; lia.
    + eapply H'.
      * reflexivity.
      * reflexivity.
      * repeat constructor; simpl; lia.
      * unfold Demo.today. lia.
      * vm_compute. discriminate.
  - destruct (malformed_start_rejected Demo.today PyLib.strptime_date PyLib.int_of_str
                [Demo.report] eight "25:00" false 7) as (_ & _ & H).
    exact (H 25 0 [ {| task := Demo.report;
                       score := S754_finite false 7686143364045647 (-61) |} ] 480
             eq_refl ltac:(lia) eq_refl eq_refl).
  - destruct (malformed_start_rejected Demo.today PyLib.strptime_date PyLib.int_of_str
                [Demo.report] eight "2147483648:00" false 7) as (_ & _ & H).
    exact (H 2147483648 0 [ {| task := Demo.report;
                               score := S754_finite false 7686143364045647 (-61) |} ] 480
             eq_refl ltac:(lia) eq_refl eq_refl).
Defined.

(** A start of two integers that are no time of day is read by line 66;
    the run returns the empty schedule when it builds no block and raises
    when it builds one.  When the scorer raises, its error is the run's,
    whatever the start string; and with a start in range a block that
    leaves the calendar makes the run raise. *)
Lemma out_of_range_start_unchecked :
  (parse_start PyLib.int_of_str "25:61" = Ok (25, 61)
   /\ Demo.run [] eight "25:61" false 7 = Ok []
   /\ Demo.run [Demo.report] Float64.zero "25:61" false 7 = Ok []
   /\ Demo.run [Demo.report] eight "25:61" false 7 = Raise ValueError)
  /\ Demo.run [Demo.century] eight "0900" false 7 = Raise OverflowError
  /\ Demo.run [DemoMore.rewind] eight "09:00" false 7 = Raise OverflowError.
Proof.
  split; [|split].
  - split; [reflexivity|]. split; [reflexivity|]. split; reflexivity.
  - vm_compute. reflexivity.
  - reflexivity.
Qed.


(* ------------------------------------------------------------------ *)
(** * Further properties of the packer *)

Lemma subsequence_nil_l {A : Type} (l : list A) : subsequence [] l.
Proof. induction l; constructor; assumption. Qed.

Lemma allocation_subsequence s tasks : forall L,
  subsequence (map fst (allocation s tasks L)) tasks.
Proof.
  induction tasks as [|t rest IH]; intros L; simpl; [constructor|].
  destruct (L <=? 0); [apply subsequence_nil_l|].
  destruct (minutes t <=? L); [simpl; constructor; apply IH|].
  destruct (s && (0 <? L)); [simpl; constructor; apply IH|].
  constructor. apply IH.
Qed.

Lemma allocation_unplaced s tasks : forall L,
  Permutation (map fst (allocation s tasks L) ++ unplaced s tasks L) tasks.
Proof.
  induction tasks as [|t rest IH]; intros L; simpl; [constructor|].
  destruct (L <=? 0); [reflexivity|].
  destruct (minutes t <=? L); [simpl; constructor; apply IH|].
  destruct (s && (0 <? L)); [simpl; constructor; apply IH|].
  symmetry. apply Permutation_cons_app. symmetry. apply IH.
Qed.

Lemma alloc_sum_nonneg al : Forall (fun a => 0 <= snd a) al -> 0 <= alloc_sum al.
Proof. induction 1; simpl; lia. Qed.

Lemma allocation_nonneg s tasks : forall L,
  Forall (fun t => 0 <= minutes t) tasks ->
  Forall (fun a => 0 <= snd a) (allocation s tasks L).
Proof.
  induction tasks as [|t rest IH]; intros L Hpos; simpl; [constructor|].
  inversion Hpos as [|? ? Ht Hrest]; subst.
  destruct (L <=? 0) eqn:E0; [constructor|].
  destruct (minutes t <=? L); [constructor; [assumption | now apply IH]|].
  destruct (s && (0 <? L)); [|now apply IH].
  constructor; [simpl; lia | now apply IH].
Qed.

Lemma unplaced_do_not_fit tasks : forall L,
  Forall (fun t => 1 <= minutes t) tasks ->
  Forall (fun t => L - alloc_sum (allocation false tasks L) < minutes t)
         (unplaced false tasks L).
Proof.
  induction tasks as [|t rest IH]; intros L Hpos; simpl; [constructor|].
  inversion Hpos as [|? ? Ht Hrest]; subst.
  destruct (L <=? 0) eqn:E0.
  - simpl. apply Z.leb_le in E0. rewrite Forall_forall in *.
    intros u Hu. specialize (Hpos u Hu). simpl in Hpos. lia.
  - destruct (minutes t <=? L) eqn:E1; simpl.
    + specialize (IH (L - minutes t) Hrest).
      rewrite Forall_forall in *. intros u Hu. specialize (IH u Hu). lia.
    + apply Z.leb_gt in E1.
      assert (0 <= alloc_sum (allocation false rest L)).
      { apply alloc_sum_nonneg, allocation_nonneg.
        rewrite Forall_forall in *. intros u Hu. specialize (Hrest u Hu). simpl in Hrest. lia. }
      constructor; [lia | now apply IH].
Qed.

Lemma allocation_fills tasks : forall L,
  0 <= L -> Forall (fun t => 0 <= minutes t) tasks ->
  alloc_sum (allocation true tasks L) = Z.min L (task_minutes tasks).
Proof.
  induction tasks as [|t rest IH]; intros L HL Hpos; simpl; [lia|].
  inversion Hpos as [|? ? Ht Hrest]; subst.
  assert (0 <= task_minutes rest).
  { clear -Hrest. induction Hrest; simpl; lia. }
  destruct (L <=? 0) eqn:E0; [apply Z.leb_le in E0; simpl; lia|].
  apply Z.leb_gt in E0.
  destruct (minutes t <=? L) eqn:E1.
  - apply Z.leb_le in E1. simpl. rewrite IH by (assumption || lia). lia.
  - apply Z.leb_gt in E1.
    replace (0 <? L) with true by (symmetry; apply Z.ltb_lt; lia). simpl.
    rewrite allocation_nonpos by lia. simpl. lia.
Qed.

Lemma task_minutes_perm l1 l2 :
  Permutation l1 l2 -> task_minutes l1 = task_minutes l2.
Proof. induction 1; simpl; lia. Qed.

Lemma render_shows s base : forall al c,
  Forall (fun a => snd a = minutes (fst a)
                   \/ (s = true /\ 0 < snd a < minutes (fst a))) al ->
  Forall2 (block_shows s) (render base c al) (map fst al).
Proof.
  induction al as [|a al IH]; intros c Hal; simpl; [constructor|].
  inversion Hal as [|? ? Ha Hal']; subst.
  constructor; [|now apply IH].
  unfold block_shows, block_of, is_partial. cbn [b_title b_minutes b_impact b_deadline].
  split; [reflexivity|]. split; [reflexivity|].
  destruct Ha as [Ha | (Hs & Ha)].
  - left. rewrite Ha, Z.ltb_irrefl. split; reflexivity.
  - right. replace (snd a <? minutes (fst a)) with true by (symmetry; apply Z.ltb_lt; lia).
    split; [assumption|]. split; [reflexivity | assumption].
Qed.

Lemma allocation_whole_or_part s tasks : forall L,
  Forall (fun a => snd a = minutes (fst a)
                   \/ (s = true /\ 0 < snd a < minutes (fst a)))
         (allocation s tasks L).
Proof.
  induction tasks as [|t rest IH]; intros L; simpl; [constructor|].
  destruct (L <=? 0) eqn:E0; [constructor|].
  destruct (minutes t <=? L) eqn:E1; [constructor; [now left | apply IH]|].
  destruct s; simpl; [|apply IH].
  destruct (0 <? L) eqn:E2; [|apply IH].
  apply Z.leb_gt in E1. apply Z.ltb_lt in E2.
  constructor; [right; simpl; split; [reflexivity | lia] | apply IH].
Qed.

Section PackMore.
Variable today : Z.
Variable strptime_date : string -> option Z.
Variable int_of_str : string -> option Z.

Local Abbreviation pack := (schedule_tasks_for_day today strptime_date int_of_str).
Local Abbreviation budget hours := (Float64.to_int (Float64.mul hours Float64.sixty)).
Local Abbreviation score_of := (compute_score today strptime_date).

(** X1 (what a block shows).  Every block of a returned schedule copies
    the impact and the deadline of one task of the sorted list, blocks
    following the order of that list with no task used twice; it carries
    either that task's title and stored minutes, or, only with
    [allow_split] enabled, the title followed by " (part)" and a positive
    number of minutes below the stored ones. *)
Theorem blocks_show_tasks_in_order tasks hours start allow_split w blocks :
  pack tasks hours start allow_split w = Ok blocks ->
  exists sorted placed,
    score_and_sort today strptime_date tasks w = Ok sorted
    /\ subsequence placed (map task sorted)
    /\ Forall2 (block_shows allow_split) blocks placed.
Proof.
  intros H.
  destruct (pack_Ok _ _ _ _ _ _ _ _ _ H) as (sorted & total & h & m & Hs & _ & _ & -> & _).
  exists sorted, (map fst (allocation allow_split (map task sorted) total)).
  split; [assumption|]. split; [apply allocation_subsequence|].
  apply render_shows, allocation_whole_or_part.
Qed.

(** X2 (splitting fills the day).  With [allow_split] enabled, a budget
    that is not negative and no negative stored minutes, the minutes of
    the returned blocks sum to the smaller of the budget and the minutes
    of all tasks together: the budget is used up unless every task is
    placed in full. *)
Theorem split_fills_budget tasks hours start w blocks total :
  Forall (fun t => 0 <= minutes t) tasks ->
  0 <= total ->
  budget hours = Ok total ->
  pack tasks hours start true w = Ok blocks ->
  sum_minutes blocks = Z.min total (task_minutes tasks).
Proof.
  intros Hpos Htot Hb H.
  destruct (pack_Ok _ _ _ _ _ _ _ _ _ H) as (sorted & total' & h & m & Hs & Hb' & _ & -> & _).
  rewrite Hb in Hb'. injection Hb' as <-.
  destruct (score_and_sort_Ok _ _ _ _ _ Hs) as (Hperm & _).
  rewrite sum_minutes_render, allocation_fills.
  - now rewrite (task_minutes_perm _ _ Hperm).
  - assumption.
  - rewrite Forall_forall in *. intros t Ht. apply Hpos.
    eapply Permutation_in; eassumption.
Qed.

(** X3 (nothing left out would fit).  Without splitting and with every
    task at least one minute long, the tasks split into those shown by
    the blocks and those left out, and each task left out is longer than
    the part of the budget the blocks leave unused. *)
Theorem unplaced_tasks_do_not_fit tasks hours start w blocks total :
  Forall (fun t => 1 <= minutes t) tasks ->
  budget hours = Ok total ->
  pack tasks hours start false w = Ok blocks ->
  exists placed left_out,
    Permutation (placed ++ left_out) tasks
    /\ Forall2 (block_shows false) blocks placed
    /\ Forall (fun t => total - sum_minutes blocks < minutes t) left_out.
Proof.
  intros Hpos Hb H.
  destruct (pack_Ok _ _ _ _ _ _ _ _ _ H) as (sorted & total' & h & m & Hs & Hb' & _ & -> & _).
  rewrite Hb in Hb'. injection Hb' as <-.
  destruct (score_and_sort_Ok _ _ _ _ _ Hs) as (Hperm & _).
  exists (map fst (allocation false (map task sorted) total)),
         (unplaced false (map task sorted) total).
  split; [|split].
  - rewrite allocation_unplaced. assumption.
  - apply render_shows, allocation_whole_or_part.
  - rewrite sum_minutes_render. apply unplaced_do_not_fit.
    rewrite Forall_forall in *. intros t Ht. apply Hpos.
    eapply Permutation_in; eassumption.
Qed.

Lemma render_length base al : forall c, List.length (render base c al) = List.length al.
Proof. induction al as [|a al IH]; intros c; simpl; [reflexivity | now rewrite IH]. Qed.

Lemma allocation_prefix tasks : forall L,
  map fst (allocation true tasks L)
  = firstn (List.length (allocation true tasks L)) tasks.
Proof.
  induction tasks as [|t rest IH]; intros L; simpl; [reflexivity|].
  destruct (L <=? 0) eqn:E0; [reflexivity|]. apply Z.leb_gt in E0.
  destruct (minutes t <=? L); [simpl; now rewrite <- IH|].
  replace (0 <? L) with true by (symmetry; apply Z.ltb_lt; lia). simpl.
  rewrite allocation_nonpos by lia. reflexivity.
Qed.

(** X4 (splitting keeps to the priority order).  With [allow_split]
    enabled the blocks show the first tasks of the sorted list, one block
    each and none passed over: the schedule is a prefix of the priority
    order. *)
Theorem split_schedules_a_prefix tasks hours start w blocks :
  pack tasks hours start true w = Ok blocks ->
  exists sorted,
    score_and_sort today strptime_date tasks w = Ok sorted
    /\ Forall2 (block_shows true) blocks
               (firstn (List.length blocks) (map task sorted)).
Proof.
  intros H.
  destruct (pack_Ok _ _ _ _ _ _ _ _ _ H) as (sorted & total & h & m & Hs & _ & _ & -> & _).
  exists sorted. split; [assumption|].
  rewrite render_length, <- allocation_prefix.
  apply render_shows, allocation_whole_or_part.
Qed.

Lemma allocation_within_tasks s tasks : forall L,
  Forall (fun t => 0 <= minutes t) tasks ->
  alloc_sum (allocation s tasks L) <= task_minutes tasks.
Proof.
  induction tasks as [|t rest IH]; intros L Hpos; simpl; [lia|].
  inversion Hpos as [|? ? Ht Hrest]; subst.
  assert (0 <= task_minutes rest).
  { clear -Hrest. induction Hrest; simpl; lia. }
  destruct (L <=? 0) eqn:E0; [simpl; lia|].
  destruct (minutes t <=? L) eqn:E1; [simpl; specialize (IH (L - minutes t) Hrest); lia|].
  apply Z.leb_gt in E1.
  destruct (s && (0 <? L)); [|specialize (IH L Hrest); lia].
  simpl. rewrite allocation_nonpos by lia. simpl. lia.
Qed.

(** X5 (splitting never schedules less).  On the same tasks, hours,
    start and window, with no negative stored minutes, the run with
    [allow_split] enabled allots at least as many minutes as the run
    without it. *)
Theorem split_never_schedules_less tasks hours start w whole parted :
  Forall (fun t => 0 <= minutes t) tasks ->
  pack tasks hours start false w = Ok whole ->
  pack tasks hours start true w = Ok parted ->
  sum_minutes whole <= sum_minutes parted.
Proof.
  intros Hpos H1 H2.
  destruct (pack_Ok _ _ _ _ _ _ _ _ _ H1) as (sorted & total & h & m & Hs & Hb & _ & -> & _).
  destruct (pack_Ok _ _ _ _ _ _ _ _ _ H2) as (sorted' & total' & h' & m' & Hs' & Hb' & _ & -> & _).
  rewrite Hs in Hs'. injection Hs' as <-. rewrite Hb in Hb'. injection Hb' as <-.
  rewrite !sum_minutes_render.
  assert (Hpos' : Forall (fun t => 0 <= minutes t) (map task sorted)).
  { destruct (score_and_sort_Ok _ _ _ _ _ Hs) as (Hperm & _).
    rewrite Forall_forall in *. intros t Ht. apply Hpos.
    eapply Permutation_in; eassumption. }
  destruct (Z.le_gt_cases 0 total) as [Hnn|Hneg].
  - rewrite (allocation_fills _ _ Hnn Hpos').
    pose proof (allocation_budget false (map task sorted) total Hnn).
    pose proof (allocation_within_tasks false (map task sorted) total Hpos'). lia.
  - rewrite !allocation_nonpos by lia. simpl. lia.
Qed.

Lemma loop_nothing_to_do h m allow_split tasks st :
  leftover_minutes st <= 0 \/ tasks = [] ->
  loop today h m allow_split tasks st = Ok st.
Proof.
  intros [Hl | ->]; [|reflexivity].
  destruct tasks as [|t rest]; [reflexivity|]. simpl.
  now replace (leftover_minutes st <=? 0) with true by (symmetry; apply Z.leb_le; lia).
Qed.

(** X6 (no capacity, no work).  When the scores and the budget are
    computed and line 66 reads the start string as two integers, a budget
    of zero or less, or an empty task list, gives the empty schedule; the
    two integers are not checked against the ranges of a time of day. *)
Theorem nothing_to_schedule tasks hours start allow_split w sorted total :
  score_and_sort today strptime_date tasks w = Ok sorted ->
  budget hours = Ok total ->
  parseable_start int_of_str start ->
  total <= 0 \/ tasks = [] ->
  pack tasks hours start allow_split w = Ok [].
Proof.
  intros Hs Hb (h & m & Hp) Hno.
  unfold schedule_tasks_for_day. rewrite Hs, Hb. cbn [bind].
  unfold parse_start. rewrite Hp. cbn [bind].
  rewrite loop_nothing_to_do; [reflexivity|].
  destruct Hno as [Hle | ->]; [left; assumption | right].
  unfold score_and_sort in Hs. simpl in Hs. injection Hs as <-. reflexivity.
Qed.

Lemma map_result_Raise {A B : Type} (f : A -> result B) l x e :
  In x l -> f x = Raise e ->
  exists y e', In y l /\ f y = Raise e' /\ map_result f l = Raise e'.
Proof.
  induction l as [|a l IH]; intros Hin Hx; [destruct Hin|].
  simpl. destruct (f a) as [b|ea] eqn:Ea.
  - destruct Hin as [-> | Hin]; [congruence|].
    destruct (IH Hin Hx) as (y & e' & Hy & Hfy & Hm).
    exists y, e'. split; [now right|]. split; [assumption|].
    cbn [bind]. now rewrite Hm.
  - exists a, ea. split; [now left|]. split; [assumption | reflexivity].
Qed.

(** X7 (one bad task fails the run).  If the scorer raises on some task
    of the list, the run raises the error of a task on which the scorer
    raises, whatever the hours, the start string and the split setting,
    and whether or not that task would have been placed. *)
Theorem scoring_error_fails_run tasks hours start allow_split w t e :
  In t tasks -> score_of t w = Raise e ->
  exists t' e', In t' tasks /\ score_of t' w = Raise e'
    /\ pack tasks hours start allow_split w = Raise e'.
Proof.
  intros Hin Hsc.
  destruct (map_result_Raise
              (fun t => s <- score_of t w ;; Ok {| task := t; score := s |})
              tasks t e Hin) as (t' & e' & Hin' & Hf & Hm).
  { now rewrite Hsc. }
  exists t', e'. split; [assumption|]. split.
  - destruct (score_of t' w); simpl in Hf; [discriminate | congruence].
  - unfold schedule_tasks_for_day, score_and_sort. now rewrite Hm.
Qed.

End PackMore.

(* ------------------------------------------------------------------ *)
(** * Times of day as text *)

Lemma digit_char_facts d :
  0 <= d <= 9 ->
  PyLib.digit_value (digit_char d) = Some d
  /\ Ascii.eqb (digit_char d) ":" = false
  /\ Ascii.eqb (digit_char d) "-" = false
  /\ Ascii.eqb (digit_char d) "+" = false.
Proof.
  intros H.
  assert (E : d = 0 \/ d = 1 \/ d = 2 \/ d = 3 \/ d = 4 \/ d = 5 \/ d = 6
              \/ d = 7 \/ d = 8 \/ d = 9) by lia.
  repeat (destruct E as [-> | E]; [repeat split; reflexivity|]).
  subst d. repeat split; reflexivity.
Qed.

Lemma int_of_two_digits n :
  0 <= n <= 99 -> PyLib.int_of_str (two_digits n) = Some n.
Proof.
  intros H.
  assert (H1 : 0 <= n / 10 <= 9) by dlia.
  assert (H2 : 0 <= n mod 10 <= 9) by dlia.
  destruct (digit_char_facts _ H1) as (V1 & _ & M1 & P1).
  destruct (digit_char_facts _ H2) as (V2 & _ & _ & _).
  unfold two_digits, PyLib.int_of_str. rewrite M1, P1.
  cbn [PyLib.digits_value]. rewrite V1, V2. f_equal. dlia.
Qed.

Lemma split_colon_two_digits a b :
  0 <= a <= 99 -> 0 <= b <= 99 ->
  split_colon (two_digits a ++ ":" ++ two_digits b) = [two_digits a; two_digits b].
Proof.
  intros Ha Hb.
  assert (A1 : 0 <= a / 10 <= 9) by dlia.
  assert (A2 : 0 <= a mod 10 <= 9) by dlia.
  assert (B1 : 0 <= b / 10 <= 9) by dlia.
  assert (B2 : 0 <= b mod 10 <= 9) by dlia.
  destruct (digit_char_facts _ A1) as (_ & CA1 & _ & _).
  destruct (digit_char_facts _ A2) as (_ & CA2 & _ & _).
  destruct (digit_char_facts _ B1) as (_ & CB1 & _ & _).
  destruct (digit_char_facts _ B2) as (_ & CB2 & _ & _).
  unfold two_digits. cbn [String.append split_colon].
  rewrite CA1, CA2, CB1, CB2. reflexivity.
Qed.

Lemma format_time_well_formed t :
  valid_time t ->
  well_formed_start PyLib.int_of_str (format_time t) (hour t) (minute t).
Proof.
  intros (Hh & Hm). unfold well_formed_start, format_time.
  exists (two_digits (hour t)), (two_digits (minute t)).
  rewrite split_colon_two_digits, !int_of_two_digits by lia.
  repeat split; first [reflexivity | lia].
Qed.

Lemma time_of_minutes_valid x : valid_time (time_of_minutes x).
Proof.
  unfold valid_time, time_of_minutes. cbn [hour minute].
  pose proof (Z.mod_pos_bound x 1440 ltac:(lia)) as Hr.
  pose proof (Z.mod_pos_bound (x mod 1440) 60 ltac:(lia)).
  pose proof (Z.div_pos (x mod 1440) 60 ltac:(lia) ltac:(lia)).
  pose proof (Z.div_lt_upper_bound (x mod 1440) 60 24 ltac:(lia) ltac:(lia)).
  lia.
Qed.

Lemma valid_time_of_minutes t :
  valid_time t -> t = time_of_minutes (minute_of_day t).
Proof.
  intros (Hh & Hm). destruct t as [h m]. unfold minute_of_day. cbn [hour minute] in *.
  now rewrite time_of_minutes_small.
Qed.

(** X8 (a time and its text).  For a time of day in range, the text
    [format_time] prints is read back by line 66, with the decimal
    [int], as the same hour and minute; so two times in range with the
    same text are equal. *)
Theorem format_time_round_trip t :
  valid_time t ->
  parse_start PyLib.int_of_str (format_time t) = Ok (hour t, minute t)
  /\ (forall t', valid_time t' -> format_time t' = format_time t -> t' = t).
Proof.
  intros Ht. pose proof (parse_start_well_formed _ _ _ _ (format_time_well_formed t Ht)) as Hp.
  split; [assumption|].
  intros t' Ht' E.
  pose proof (parse_start_well_formed _ _ _ _ (format_time_well_formed t' Ht')) as Hp'.
  rewrite E, Hp in Hp'. injection Hp' as H1 H2.
  destruct t as [h m], t' as [h' m']. cbn [hour minute] in *. congruence.
Qed.

(** X9 (texts order as times).  For two times of day in range, the text
    of the first is below the text of the second, as strings, exactly
    when the first time is earlier. *)
Theorem format_time_order t1 t2 :
  valid_time t1 -> valid_time t2 ->
  (String.ltb (format_time t1) (format_time t2) = true
   <-> minute_of_day t1 < minute_of_day t2).
Proof.
  intros H1 H2.
  assert (B1 : 0 <= minute_of_day t1 < 1440)
    by (destruct H1; unfold minute_of_day; lia).
  assert (B2 : 0 <= minute_of_day t2 < 1440)
    by (destruct H2; unfold minute_of_day; lia).
  rewrite (valid_time_of_minutes t1 H1) at 1.
  rewrite (valid_time_of_minutes t2 H2) at 1.
  split.
  - intros Hlt.
    destruct (Z.lt_trichotomy (minute_of_day t1) (minute_of_day t2)) as [L | [E | G]];
      [assumption | exfalso ..].
    + rewrite E, string_ltb_irrefl in Hlt. discriminate.
    + pose proof (format_time_lt _ _ (proj1 B2) G (proj2 B1)) as Hgt.
      apply string_ltb_asym in Hgt. congruence.
  - intros L. apply format_time_lt; lia.
Qed.

Lemma render_times base : forall al c,
  Forall (fun b => exists s e,
            valid_time s /\ valid_time e
            /\ b_start b = format_time s /\ b_end b = format_time e
            /\ minute_of_day e = (minute_of_day s + b_minutes b) mod 1440)
         (render base c al).
Proof.
  induction al as [|a al IH]; intros c; simpl; [constructor|].
  constructor; [|apply IH].
  exists (time_of_minutes (base + c)), (time_of_minutes (base + c + snd a)).
  split; [apply time_of_minutes_valid|]. split; [apply time_of_minutes_valid|].
  split; [reflexivity|]. split; [reflexivity|].
  unfold minute_of_day. cbn [b_minutes block_of].
  rewrite !time_of_minutes_total. now rewrite Zplus_mod_idemp_l.
Qed.

Section Clock24.
Variable today : Z.
Variable strptime_date : string -> option Z.
Variable int_of_str : string -> option Z.

Local Abbreviation pack := (schedule_tasks_for_day today strptime_date int_of_str).

(** X10 (blocks on the 24-hour clock).  The start and the end of every
    returned block are texts of times of day in range, which line 66
    reads back, and the end is the start plus the block's minutes
    counted modulo 24 hours. *)
Theorem block_times_on_the_clock tasks hours start allow_split w blocks :
  pack tasks hours start allow_split w = Ok blocks ->
  Forall (fun b => exists s e,
            valid_time s /\ valid_time e
            /\ b_start b = format_time s /\ b_end b = format_time e
            /\ parse_start PyLib.int_of_str (b_start b) = Ok (hour s, minute s)
            /\ parse_start PyLib.int_of_str (b_end b) = Ok (hour e, minute e)
            /\ minute_of_day e = (minute_of_day s + b_minutes b) mod 1440)
         blocks.
Proof.
  intros H.
  destruct (pack_Ok _ _ _ _ _ _ _ _ _ H) as (sorted & total & h & m & _ & _ & _ & -> & _).
  eapply Forall_impl; [|apply render_times].
  intros b (s & e & Hs & He & Es & Ee & Hm).
  exists s, e. split; [assumption|]. split; [assumption|].
  split; [assumption|]. split; [assumption|].
  rewrite Es, Ee.
  split; [apply parse_start_well_formed, format_time_well_formed; assumption|].
  split; [apply parse_start_well_formed, format_time_well_formed; assumption|].
  assumption.
Qed.

End Clock24.

(* ------------------------------------------------------------------ *)
(** * Further properties of the scorer *)


Section ScorerMore.
Variable today : Z.
Variable strptime_date : string -> option Z.
Variable int_of_str : string -> option Z.

Local Abbreviation pack := (schedule_tasks_for_day today strptime_date int_of_str).
Local Abbreviation score_of := (compute_score today strptime_date).

(** X11 (window of zero days).  With an urgency window of 0 the scorer
    raises [ZeroDivisionError] on every task whose deadline parses, and a
    run over a list holding such a task raises. *)
Theorem zero_window_raises t s x :
  deadline t = Some s -> s <> EmptyString -> strptime_date s = Some x ->
  score_of t 0 = Raise ZeroDivisionError
  /\ (forall tasks hours start allow_split,
        In t tasks -> exists e, pack tasks hours start allow_split 0 = Raise e).
Proof.
  intros Hd Hs Hx.
  assert (Hsc : score_of t 0 = Raise ZeroDivisionError).
  { unfold compute_score. rewrite Hd.
    rewrite (days_until_deadline_Some today strptime_date s x Hs Hx). reflexivity. }
  split; [assumption|].
  intros tasks hours start allow_split Hin.
  destruct (map_result_Raise
              (fun t => s <- score_of t 0 ;; Ok {| task := t; score := s |})
              tasks t ZeroDivisionError Hin) as (t' & e' & _ & _ & Hm).
  { now rewrite Hsc. }
  exists e'. unfold schedule_tasks_for_day, score_and_sort. now rewrite Hm.
Qed.

(** X12 (scores are numbers).  With a positive window and deadlines
    inside the calendar, tasks whose impact is not a NaN get scores that
    are not NaN, so that the sorted list is in the order of the
    specification: descending score, then ascending deadline key, then
    ascending stored minutes. *)
Theorem scores_are_numbers tasks w sorted :
  1 <= today -> 0 < w ->
  Forall (fun t => Float64.is_nan (impact t) = false
                   /\ forall s x, deadline t = Some s -> strptime_date s = Some x ->
                                  x <= max_ordinal) tasks ->
  score_and_sort today strptime_date tasks w = Ok sorted ->
  Forall score_defined sorted /\ StronglySorted ranks_before sorted.
Proof.
  intros Htoday Hw Htasks Hs.
  destruct (score_and_sort_Ok _ _ _ _ _ Hs) as (Hperm & Hsc & Hsorted).
  assert (Hdef : Forall score_defined sorted).
  { rewrite Forall_forall in *. intros a Ha.
    destruct (Htasks (task a)) as (Hn & Hmax).
    { apply (Permutation_in _ Hperm). now apply in_map. }
    specialize (Hsc a Ha). unfold score_defined.
    apply compute_score_inv in Hsc as (u & mf & Hu & Hmf & ->).
    destruct (of_int_spec (Z.max 1 (minutes (task a))) ltac:(lia)) as (Hfit & Hover).
    destruct (Z.le_gt_cases (Z.max 1 (minutes (task a))) max_convertible) as [Hsmall|Hbig];
      [|rewrite (Hover Hbig) in Hmf; discriminate].
    destruct (Hfit Hsmall) as (m & e & Hof & Hvf). rewrite Hof in Hmf. injection Hmf as <-.
    assert (Hbase : Float64.is_nan (Float64.div (impact (task a)) (S754_finite false m e))
                    = false) by now apply div_not_nan.
    destruct (days_until_deadline today strptime_date (deadline (task a))) as [d|] eqn:Hd.
    - assert (Hb : 0 <= d < 2 ^ 1000).
      { unfold days_until_deadline in Hd.
        destruct (deadline (task a)) as [[|c s]|]; try discriminate.
        destruct (strptime_date (String c s)) as [x|] eqn:E; [|discriminate].
        injection Hd as <-. apply days_left_bound; eauto. }
      destruct (compute_urgency_spec w d Hw Hb) as (q & _ & Hu' & Hp).
      assert (Eu : u = Float64.add Float64.one (max0 q)) by congruence.
      rewrite Eu, Hp.
      destruct (urgency_pair_finite w d Hw ltac:(lia)) as (mu & eu & _ & He & -> & Hc).
      apply mul_nonneg_not_nan; [assumption | apply div_valid |].
      rewrite <- (pack_float_valid false _ Hc). unfold pack_float. cbn [fst snd].
      now replace (eu <=? 971) with true by (symmetry; lia).
    - cbn [compute_urgency] in Hu.
      assert (Eu : u = Float64.one) by congruence.
      now rewrite Eu, mul_one_r by apply div_valid. }
  split; [assumption|].
  apply (Sorted_strongly _ score_defined); [apply ranks_before_trans | assumption |].
  clear -Hsorted Hdef. induction Hsorted as [|a l Hl IH Hhd]; [constructor|].
  inversion Hdef as [|? ? Ha Hdl]; subst.
  constructor; [auto|].
  destruct Hhd as [|b l Hab]; constructor.
  inversion Hdl; subst. now apply not_after_ranks.
Qed.

End ScorerMore.

(* ------------------------------------------------------------------ *)
(** * Division and multiplication are monotone *)

Lemma squot_scale N b c : 0 < b -> 0 < c -> squot (N * c) (b * c) = squot N b.
Proof.
  intros Hb Hc. unfold squot.
  rewrite Z.mul_mod_distr_r, Z.div_mul_cancel_r by lia.
  replace (2 * (b * c)) with (2 * b * c) by lia.
  rewrite Z.div_mul_cancel_r by lia.
  destruct (Z.eqb_spec (N mod b) 0) as [E|E].
  - rewrite E. reflexivity.
  - destruct (Z.eqb_spec (N mod b * c) 0) as [E'|E']; [|reflexivity].
    apply Z.mul_eq_0 in E'. lia.
Qed.

Lemma squot_cross N1 b1 N2 b2 :
  0 <= N1 -> 0 < b1 -> 0 < b2 -> N1 * b2 <= N2 * b1 ->
  squot N1 b1 <= squot N2 b2.
Proof.
  intros HN Hb1 Hb2 Hle.
  rewrite <- (squot_scale N1 b1 b2), <- (squot_scale N2 b2 b1) by assumption.
  rewrite (Z.mul_comm b2 b1). apply squot_mono; nia.
Qed.

Lemma quot_rescale_gen X b e k :
  0 < X -> 0 < b -> 0 <= k ->
  fine (X / b) e ->
  round_mant (squot (4 * (X * 2 ^ k)) b) (e - k) = round_mant (squot (4 * X) b) e
  /\ fine (X * 2 ^ k / b) (e - k).
Proof.
  intros HX Hb Hk Hf.
  assert (HK : 0 < 2 ^ k) by (apply Z.pow_pos_nonneg; lia).
  assert (Hf' : e <= fexp64 (Zdigits2 (X * 2 ^ k / b) + (e - k))).
  { unfold fine in *.
    destruct (Z.eq_dec (X / b) 0) as [E0|Hn].
    - rewrite E0 in Hf. cbn [Zdigits2] in Hf. rewrite !fexp64_eq in *. lia.
    - assert (Hq : 0 < X / b) by (pose proof (Z.div_pos X b); lia).
      assert (Hge : X / b * 2 ^ k <= X * 2 ^ k / b).
      { apply Z.div_le_lower_bound; [lia|].
        pose proof (Z.mul_div_le X b Hb). nia. }
      assert (Hd : Zdigits2 (X / b) + k <= Zdigits2 (X * 2 ^ k / b)).
      { rewrite <- Zdigits2_mul_pow by lia. apply Zdigits2_le. lia. }
      apply (Z.le_trans _ _ _ Hf). apply fexp64_mono. lia. }
  split; [|unfold fine; lia].
  transitivity (round_mant (sticky (squot (4 * (X * 2 ^ k)) b) k) (e - k + k)).
  - symmetry. apply round_mant_rescale; try lia.
    + pose proof (squot_bounds (4 * (X * 2 ^ k)) b ltac:(lia) Hb).
      assert (0 <= 4 * (X * 2 ^ k) / b) by (apply Z.div_pos; lia). lia.
    + rewrite squot_4_div4 by lia. lia.
  - replace (4 * (X * 2 ^ k)) with (4 * X * 2 ^ k) by lia.
    rewrite sticky_squot by lia. f_equal. lia.
Qed.

Lemma div_pair_rescale m e n f es :
  0 < m -> 0 < n -> es <= div_exp m e n f ->
  div_pair m e n f = round_mant (squot (4 * (m * 2 ^ (e - f - es))) n) es
  /\ fine (m * 2 ^ (e - f - es) / n) es.
Proof.
  intros Hm Hn Hes. unfold div_pair.
  pose proof (div_quotient_fine m e n f Hm Hn) as Hf. cbv zeta in Hf.
  set (e' := div_exp m e n f) in *.
  assert (He' : e' <= e - f) by (unfold e', div_exp; lia).
  assert (HP : 0 < 2 ^ (e - f - e')) by (apply Z.pow_pos_nonneg; lia).
  destruct (quot_rescale_gen (m * 2 ^ (e - f - e')) n e' (e' - es)
              ltac:(nia) Hn ltac:(lia) Hf) as (Hr & Hf').
  replace (m * 2 ^ (e - f - e') * 2 ^ (e' - es)) with (m * 2 ^ (e - f - es)) in *.
  - replace (e' - (e' - es)) with es in * by lia. split; [now rewrite Hr | assumption].
  - rewrite <- Z.mul_assoc, <- Z.pow_add_r by lia. do 2 f_equal. lia.
Qed.

Lemma div_pair_mono m1 e1 n1 f1 m2 e2 n2 f2 :
  0 < m1 -> 0 < m2 -> 0 < n1 -> 0 < n2 ->
  value_le m1 e1 m2 e2 -> value_le n2 f2 n1 f1 ->
  pair_le (div_pair m1 e1 n1 f1) (div_pair m2 e2 n2 f2).
Proof.
  intros Hm1 Hm2 Hn1 Hn2 Hnum Hden. unfold value_le in *.
  set (es := Z.min (div_exp m1 e1 n1 f1) (div_exp m2 e2 n2 f2)).
  destruct (div_pair_rescale m1 e1 n1 f1 es Hm1 Hn1 ltac:(unfold es; lia)) as (-> & Hf1).
  destruct (div_pair_rescale m2 e2 n2 f2 es Hm2 Hn2 ltac:(unfold es; lia)) as (-> & Hf2).
  assert (Hd1 : es <= e1 - f1) by (unfold es, div_exp; lia).
  assert (Hd2 : es <= e2 - f2) by (unfold es, div_exp; lia).
  set (a := Z.min e1 e2) in *. set (b := Z.min f2 f1) in *.
  assert (Hg : 0 <= a - es - b) by (unfold a, b; lia).
  set (A1 := 2 ^ (e1 - f1 - es)) in *. set (A2 := 2 ^ (e2 - f2 - es)) in *.
  set (B1 := 2 ^ (f1 - b)) in *. set (B2 := 2 ^ (f2 - b)) in *.
  set (C1 := 2 ^ (e1 - a)) in *. set (C2 := 2 ^ (e2 - a)) in *.
  set (G := 2 ^ (a - es - b)).
  assert (PA1 : 0 < A1) by (apply Z.pow_pos_nonneg; lia).
  assert (PA2 : 0 < A2) by (apply Z.pow_pos_nonneg; lia).
  assert (PB1 : 0 < B1) by (apply Z.pow_pos_nonneg; unfold b; lia).
  assert (PB2 : 0 < B2) by (apply Z.pow_pos_nonneg; unfold b; lia).
  assert (PC1 : 0 < C1) by (apply Z.pow_pos_nonneg; unfold a; lia).
  assert (PC2 : 0 < C2) by (apply Z.pow_pos_nonneg; unfold a; lia).
  assert (PG : 0 < G) by (apply Z.pow_pos_nonneg; lia).
  assert (E1 : A1 * B1 = C1 * G).
  { unfold A1, B1, C1, G. rewrite <- !Z.pow_add_r by (unfold a, b; lia). f_equal. lia. }
  assert (E2 : A2 * B2 = C2 * G).
  { unfold A2, B2, C2, G. rewrite <- !Z.pow_add_r by (unfold a, b; lia). f_equal. lia. }
  assert (Hcross : m1 * A1 * n2 <= m2 * A2 * n1).
  { apply (Z.mul_le_mono_pos_r _ _ (B1 * B2)); [lia|].
    replace (m1 * A1 * n2 * (B1 * B2)) with (m1 * (A1 * B1) * (n2 * B2)) by ring.
    replace (m2 * A2 * n1 * (B1 * B2)) with (m2 * (A2 * B2) * (n1 * B1)) by ring.
    rewrite E1, E2.
    replace (m1 * (C1 * G) * (n2 * B2)) with (G * ((m1 * C1) * (n2 * B2))) by ring.
    replace (m2 * (C2 * G) * (n1 * B1)) with (G * ((m2 * C2) * (n1 * B1))) by ring.
    apply Z.mul_le_mono_nonneg_l; [lia|].
    apply Z.mul_le_mono_nonneg; nia. }
  apply round_mant_mono.
  - split.
    + pose proof (squot_bounds (4 * (m1 * A1)) n1 ltac:(nia) Hn1).
      assert (0 <= 4 * (m1 * A1) / n1) by (apply Z.div_pos; nia). lia.
    + apply squot_cross; nia.
  - rewrite squot_4_div4 by nia. assumption.
  - rewrite squot_4_div4 by nia. assumption.
Qed.

Lemma value_le_refl m e : value_le m e m e.
Proof. unfold value_le. lia. Qed.

Lemma pair_le_value_le m1 e1 m2 e2 :
  canonical_pair (Zpos m1, e1) -> canonical_pair (Zpos m2, e2) ->
  pair_le (Zpos m1, e1) (Zpos m2, e2) -> value_le (Zpos m1) e1 (Zpos m2) e2.
Proof.
  intros H1 H2 Hle.
  destruct (pair_le_value _ _ H1 H2 ltac:(cbn; lia) Hle) as (_ & Hv). exact Hv.
Qed.

Lemma div_pos_spec mx ex my ey :
  Float64.div (S754_finite false mx ex) (S754_finite false my ey)
  = pack_float false (div_pair (Zpos mx) ex (Zpos my) ey)
  /\ canonical_pair (div_pair (Zpos mx) ex (Zpos my) ey).
Proof.
  destruct (div_round_spec false (Zpos mx) ex (Zpos my) ey ltac:(lia) ltac:(lia))
    as (Hr & Hc).
  split; [exact Hr | exact Hc].
Qed.

Lemma mul_pair_canonical P mu eu :
  canonical_pair P -> canonical_pair (Zpos mu, eu) ->
  canonical_pair (mul_pair P (Zpos mu) eu).
Proof.
  intros HP Hu. unfold mul_pair.
  pose proof (canonical_pair_nonneg P HP) as Hn.
  destruct P as [[|p|p] e]; cbn [fst snd] in *; try lia; [now left|].
  change (Z.pos p =? 0) with false. cbv iota.
  pose proof (mul_fine p e mu eu HP Hu) as Hf. rewrite Pos2Z.inj_mul in Hf.
  apply round_mant_canonical; [lia|].
  now replace (4 * (Z.pos p * Z.pos mu) / 4) with (Z.pos p * Z.pos mu) by dlia.
Qed.

Lemma mul_pair_mono P1 P2 mu eu :
  canonical_pair P1 -> canonical_pair P2 -> canonical_pair (Zpos mu, eu) ->
  pair_le P1 P2 ->
  pair_le (mul_pair P1 (Zpos mu) eu) (mul_pair P2 (Zpos mu) eu).
Proof.
  intros H1 H2 Hu Hle. unfold mul_pair.
  pose proof (canonical_pair_nonneg P1 H1) as Hn1.
  pose proof (canonical_pair_nonneg P2 H2) as Hn2.
  destruct P1 as [[|m1|m1] e1]; cbn [fst snd] in *; try lia; [now left|].
  destruct P2 as [[|m2|m2] e2]; cbn [fst snd] in *; try lia.
  - destruct Hle as [Hle|(Hle & _)]; cbn [fst snd] in *; [discriminate | congruence].
  - change (Z.pos m1 =? 0) with false. change (Z.pos m2 =? 0) with false. cbv iota.
    rewrite (Z.mul_comm (Z.pos m1)), (Z.mul_comm (Z.pos m2)).
    rewrite (Z.add_comm e1), (Z.add_comm e2).
    now apply mul_mono.
Qed.

(** A value that is infinite stays infinite when multiplied by [u >= 1]. *)
Lemma mul_pair_spec P mu eu :
  canonical_pair P -> canonical_pair (Zpos mu, eu) -> eu <= 971 ->
  pair_le (2 ^ 52, -52) (Zpos mu, eu) ->
  Float64.mul (pack_float false P) (S754_finite false mu eu)
  = pack_float false (mul_pair P (Zpos mu) eu).
Proof.
  intros HP Hu Heu Hone.
  pose proof (canonical_pair_nonneg P HP) as Hn.
  assert (Hvu : Float64.valid (S754_finite false mu eu) = true).
  { rewrite <- (pack_float_valid false _ Hu). unfold pack_float. cbn [fst snd].
    now replace (eu <=? 971) with true by (symmetry; lia). }
  destruct P as [[|p|p] e]; cbn [fst snd] in *; try lia; [reflexivity|].
  unfold mul_pair at 1. cbn [fst snd]. change (Z.pos p =? 0) with false. cbv iota.
  unfold pack_float at 1. cbn [fst snd].
  destruct (Z.leb_spec e 971) as [He|He].
  - rewrite mul_finite_spec; [reflexivity | | assumption].
    rewrite <- (pack_float_valid false _ HP). unfold pack_float. cbn [fst snd].
    now replace (e <=? 971) with true by (symmetry; lia).
  - pose proof (mul_mono p e 4503599627370496 (-52) mu eu HP one_canonical Hu Hone) as Hle.
    change (Z.pos 4503599627370496) with (2 ^ 52) in Hle.
    destruct (round_mant_id (Zpos p) e ltac:(lia) HP) as (Hid & Hf).
    replace (e + -52) with (e - 52) in Hle by lia.
    destruct (round_mant_refine (Zpos p) e 52 ltac:(lia) ltac:(lia) Hf) as (Hrf & _).
    rewrite Hrf, Hid in Hle.
    set (R := round_mant (4 * (Z.pos p * Z.pos mu)) (e + eu)) in *.
    assert (HR : canonical_pair R).
    { pose proof (mul_pair_canonical (Zpos p, e) mu eu HP Hu) as H.
      unfold mul_pair in H. cbn [fst snd] in H. exact H. }
    pose proof (canonical_pair_nonneg R HR) as HRn.
    destruct Hle as [H|(Hne & Hle)]; cbn [fst snd] in *; [lia|].
    unfold pack_float. destruct (fst R) as [|r|r]; try lia.
    now replace (snd R <=? 971) with false by (symmetry; lia).
Qed.

Lemma leb_pair_le m1 e1 m2 e2 :
  Float64.leb (S754_finite false m1 e1) (S754_finite false m2 e2) = true ->
  pair_le (Zpos m1, e1) (Zpos m2, e2).
Proof.
  unfold Float64.leb, SFleb, SFcompare, pair_le. cbn [fst snd].
  change (PosDef.Pos.compare_cont Eq m1 m2) with (Pos.compare m1 m2).
  intros H. right. split; [lia|].
  destruct (Z.compare_spec e1 e2) as [E|L|G]; [|now left|discriminate].
  right. split; [assumption|].
  destruct (Pos.compare_spec m1 m2); first [lia | discriminate].
Qed.

Lemma leb_infinity P :
  canonical_pair P ->
  Float64.leb (pack_float false P) (S754_infinity false) = true.
Proof.
  intros HP. pose proof (canonical_pair_nonneg P HP).
  unfold pack_float. destruct (fst P) as [|p|p]; try lia; [reflexivity|].
  destruct (snd P <=? 971); reflexivity.
Qed.

Lemma of_int_pair n :
  1 <= n <= max_convertible ->
  exists m e,
    int_pair n = (Zpos m, e) /\ canonical_pair (Zpos m, e) /\ e <= 971
    /\ Float64.of_int n = Ok (S754_finite false m e).
Proof.
  intros (Hn & Hb). unfold Float64.of_int.
  rewrite binary_normalize_int by lia.
  pose proof (int_pair_canonical n ltac:(lia)) as Hc.
  assert (Hpos : 0 < fst (int_pair n)).
  { pose proof (int_pair_mono 1 n ltac:(lia)) as Hle. rewrite int_pair_one in Hle.
    apply canonical_pair_nonneg in Hc.
    destruct Hle as [H|(H & _)]; cbn [fst snd] in *; lia. }
  pose proof (int_pair_mono n max_convertible ltac:(lia)) as Hle.
  rewrite int_pair_max in Hle.
  assert (HE : snd (int_pair n) <= 971).
  { destruct Hle as [H|(_ & [H|(H & _)])]; cbn [fst snd] in *; lia. }
  destruct (pack_float_finite false _ Hc HE) as (_ & Hfin & _).
  destruct (Hfin Hpos) as (m & Hm & Hp).
  exists m, (snd (int_pair n)). rewrite Hp.
  destruct (int_pair n) as [M E]. cbn [fst snd] in *. subst M.
  split; [reflexivity|]. split; [assumption|]. split; [assumption | reflexivity].
Qed.

Section ScoreOrder.
Variable today : Z.
Variable strptime_date : string -> option Z.

Local Abbreviation score_of := (compute_score today strptime_date).
Local Abbreviation days_left_of := (days_until_deadline today strptime_date).

(** The urgency is a binary64 value between 1.0 and 2.0. *)
Lemma urgency_value dl w :
  1 <= today -> 0 < w ->
  (forall s x, dl = Some s -> strptime_date s = Some x -> x <= max_ordinal) ->
  exists mu eu,
    compute_urgency (days_left_of dl) w = Ok (S754_finite false mu eu)
    /\ canonical_pair (Zpos mu, eu) /\ eu <= 971
    /\ pair_le (2 ^ 52, -52) (Zpos mu, eu).
Proof.
  intros Htoday Hw Hmax.
  destruct (days_left_of dl) as [d|] eqn:Hd.
  - assert (Hb : 0 <= d < 2 ^ 1000).
    { unfold days_until_deadline in Hd. destruct dl as [[|c s]|]; try discriminate.
      destruct (strptime_date (String c s)) as [x|] eqn:E; [|discriminate].
      injection Hd as <-. apply days_left_bound; eauto. }
    destruct (compute_urgency_spec w d Hw Hb) as (q & _ & -> & ->).
    destruct (urgency_pair_finite w d Hw ltac:(lia)) as (mu & eu & E & He & -> & Hc).
    destruct (urgency_pair_range w d Hw ltac:(lia)) as (_ & Hone & _).
    rewrite E in Hone.
    exists mu, eu. split; [reflexivity|]. split; [assumption|]. split; [lia | assumption].
  - exists 4503599627370496%positive, (-52).
    split; [reflexivity|]. split; [apply one_canonical|]. split; [lia|].
    right. cbn [fst snd]. lia.
Qed.

(** X13 (longer tasks never score higher).  For a task of positive
    impact, a positive window and a deadline inside the calendar, storing
    more minutes never raises the score; when the scorer raises for the
    shorter duration it raises the same error for the longer one, and it
    raises for the longer one alone only because the minutes do not
    convert to a float. *)
Theorem score_antitone_in_minutes t w n1 n2 :
  1 <= today -> 0 < w ->
  (forall s x, deadline t = Some s -> strptime_date s = Some x -> x <= max_ordinal) ->
  Float64.valid (impact t) = true ->
  Float64.ltb Float64.zero (impact t) = true ->
  n1 <= n2 ->
  match score_of (with_minutes t n1) w, score_of (with_minutes t n2) w with
  | Ok v1, Ok v2 => Float64.leb v2 v1 = true
  | Ok _, Raise e => e = OverflowError /\ max_convertible < n2
  | Raise e1, Raise e2 => e1 = e2
  | Raise _, Ok _ => False
  end.
Proof.
  intros Htoday Hw Hmax Hv Hpos Hn.
  unfold compute_score. cbn [with_minutes minutes impact deadline].
  destruct (urgency_value (deadline t) w Htoday Hw Hmax) as (mu & eu & -> & Hu & Heu & Hone).
  cbn [bind].
  destruct (of_int_spec (Z.max 1 n2) ltac:(lia)) as (_ & Hover2).
  destruct (of_int_spec (Z.max 1 n1) ltac:(lia)) as (_ & Hover1).
  destruct (Z.le_gt_cases (Z.max 1 n1) max_convertible) as [Hs1|Hb1];
    [|rewrite (Hover1 Hb1), (Hover2 ltac:(lia)); reflexivity].
  destruct (of_int_pair (Z.max 1 n1) ltac:(lia)) as (m1 & e1 & E1 & Hc1 & He1 & ->).
  cbn [bind].
  destruct (Z.le_gt_cases (Z.max 1 n2) max_convertible) as [Hs2|Hb2];
    [|rewrite (Hover2 Hb2); cbn [bind]; split; [reflexivity | lia]].
  destruct (of_int_pair (Z.max 1 n2) ltac:(lia)) as (m2 & e2 & E2 & Hc2 & He2 & ->).
  cbn [bind].
  assert (Hle : pair_le (Zpos m1, e1) (Zpos m2, e2)).
  { rewrite <- E1, <- E2. apply int_pair_mono. lia. }
  destruct (impact t) as [s|s| |s mi ei]; try discriminate; destruct s; try discriminate.
  - reflexivity.
  - destruct (div_pos_spec mi ei m1 e1) as (-> & HD1).
    destruct (div_pos_spec mi ei m2 e2) as (-> & HD2).
    rewrite !mul_pair_spec by assumption.
    apply pack_float_leb.
    + apply canonical_pair_nonneg, mul_pair_canonical; assumption.
    + apply canonical_pair_nonneg, mul_pair_canonical; assumption.
    + apply mul_pair_mono; try assumption.
      apply div_pair_mono; try lia; [apply value_le_refl|].
      now apply pair_le_value_le.
Qed.

(** X14 (more impact never scores lower).  For a positive window and a
    deadline inside the calendar, of two positive impacts the larger one
    never gives the lower score, everything else being equal; the scorer
    raises for both impacts or for neither, and with the same error. *)
Theorem score_monotone_in_impact t w x1 x2 :
  1 <= today -> 0 < w ->
  (forall s x, deadline t = Some s -> strptime_date s = Some x -> x <= max_ordinal) ->
  Float64.valid x1 = true -> Float64.valid x2 = true ->
  Float64.ltb Float64.zero x1 = true ->
  Float64.leb x1 x2 = true ->
  match score_of (with_impact t x1) w, score_of (with_impact t x2) w with
  | Ok v1, Ok v2 => Float64.leb v1 v2 = true
  | Raise e1, Raise e2 => e1 = e2
  | _, _ => False
  end.
Proof.
  intros Htoday Hw Hmax Hv1 Hv2 Hpos Hle.
  unfold compute_score. cbn [with_impact minutes impact deadline].
  destruct (urgency_value (deadline t) w Htoday Hw Hmax) as (mu & eu & -> & Hu & Heu & Hone).
  cbn [bind].
  destruct (of_int_spec (Z.max 1 (minutes t)) ltac:(lia)) as (_ & Hover).
  destruct (Z.le_gt_cases (Z.max 1 (minutes t)) max_convertible) as [Hs|Hb];
    [|rewrite (Hover Hb); reflexivity].
  destruct (of_int_pair (Z.max 1 (minutes t)) ltac:(lia)) as (m & e & E & Hc & He & ->).
  cbn [bind].
  destruct x1 as [s1|s1| |s1 m1 e1]; try discriminate; destruct s1; try discriminate.
  - destruct x2 as [s2|s2| |s2 m2 e2]; try discriminate; destruct s2; try discriminate.
    reflexivity.
  - destruct x2 as [s2|s2| |s2 m2 e2]; try discriminate; destruct s2; try discriminate.
    + destruct (div_pos_spec m1 e1 m e) as (-> & HD1).
      rewrite mul_pair_spec by assumption.
      apply leb_infinity, mul_pair_canonical; assumption.
    + destruct (div_pos_spec m1 e1 m e) as (-> & HD1).
      destruct (div_pos_spec m2 e2 m e) as (-> & HD2).
      rewrite !mul_pair_spec by assumption.
      pose proof (valid_finite_canonical _ _ _ Hv1) as (Hc1 & _).
      pose proof (valid_finite_canonical _ _ _ Hv2) as (Hc2 & _).
      apply pack_float_leb.
      * apply canonical_pair_nonneg, mul_pair_canonical; assumption.
      * apply canonical_pair_nonneg, mul_pair_canonical; assumption.
      * apply mul_pair_mono; try assumption.
        apply div_pair_mono; try lia; [|apply value_le_refl].
        apply pair_le_value_le; try assumption. now apply leb_pair_le.
Qed.

End ScoreOrder.

(* ------------------------------------------------------------------ *)
(** * The budget of a whole number of hours *)

(** An integer below [2^53] converts without rounding. *)
Lemma int_pair_exact n :
  0 < n < 2 ^ 53 ->
  int_pair n = (n * 2 ^ (53 - Zdigits2 n), Zdigits2 n - 53)
  /\ canonical_pair (n * 2 ^ (53 - Zdigits2 n), Zdigits2 n - 53)
  /\ 1 <= Zdigits2 n <= 53.
Proof.
  intros Hn.
  pose proof (Zdigits2_pos n ltac:(lia)) as Hd0.
  pose proof (Zdigits2_lt_pow n 53 ltac:(lia) ltac:(lia)) as Hd1.
  pose proof (Zdigits2_bounds n ltac:(lia)) as Hb.
  set (d := Zdigits2 n) in *.
  assert (Hc : canonical_pair (n * 2 ^ (53 - d), d - 53)).
  { right. cbn [fst snd].
    assert (E1 : 2 ^ 52 = 2 ^ (d - 1) * 2 ^ (53 - d))
      by (rewrite <- Z.pow_add_r by lia; f_equal; lia).
    assert (E2 : 2 ^ 53 = 2 ^ d * 2 ^ (53 - d))
      by (rewrite <- Z.pow_add_r by lia; f_equal; lia).
    assert (0 < 2 ^ (53 - d)) by (apply Z.pow_pos_nonneg; lia).
    rewrite E1, E2. nia. }
  split; [|split; [assumption | lia]].
  unfold int_pair. cbv zeta. fold d. rewrite fexp64_eq.
  replace (Z.max 0 (- Z.max (d - 53) (-1074))) with (53 - d) by lia.
  replace (- (53 - d)) with (d - 53) by lia.
  apply round_mant_id; [|assumption].
  assert (0 < 2 ^ (53 - d)) by (apply Z.pow_pos_nonneg; lia). nia.
Qed.

(** A product that is an integer below [2^53] is not rounded. *)
Lemma round_mant_int n j :
  0 < n < 2 ^ 53 -> 53 - Zdigits2 n <= j ->
  round_mant (4 * (n * 2 ^ j)) (- j) = (n * 2 ^ (53 - Zdigits2 n), Zdigits2 n - 53).
Proof.
  intros Hn Hj.
  destruct (int_pair_exact n Hn) as (_ & Hc & Hd).
  set (d := Zdigits2 n) in *.
  assert (HP : 0 < 2 ^ (53 - d)) by (apply Z.pow_pos_nonneg; lia).
  destruct (round_mant_id (n * 2 ^ (53 - d)) (d - 53) ltac:(nia) Hc) as (Hid & Hf).
  destruct (round_mant_refine (n * 2 ^ (53 - d)) (d - 53) (j - (53 - d))
              ltac:(nia) ltac:(lia) Hf) as (Hr & _).
  rewrite <- Hid, <- Hr. f_equal.
  - rewrite <- Z.mul_assoc, <- Z.pow_add_r by lia. do 3 f_equal. lia.
  - lia.
Qed.

(** X15 (whole hours).  For a whole number of hours [n] with
    [60 * n < 2^53], the float [n] converts and the budget
    [int(hours * 60)] is exactly [60 * n] minutes: neither the product
    nor the truncation loses anything. *)
Theorem whole_hours_budget n :
  0 <= n -> 60 * n < 2 ^ 53 ->
  exists hours,
    Float64.of_int n = Ok hours
    /\ Float64.to_int (Float64.mul hours Float64.sixty) = Ok (60 * n).
Proof.
  intros Hn Hb.
  destruct (Z.eq_dec n 0) as [->|Hn0]; [exists Float64.zero; split; reflexivity|].
  assert (Hmc : 2 ^ 53 <= max_convertible) by (vm_compute; discriminate).
  destruct (of_int_pair n ltac:(lia)) as (m & e & E & Hc & He & Hof).
  exists (S754_finite false m e). split; [assumption|].
  destruct (int_pair_exact n ltac:(lia)) as (E' & _ & Hd).
  rewrite E in E'.
  pose proof (f_equal fst E') as Em. pose proof (f_equal snd E') as Ee.
  cbn [fst snd] in Em, Ee. clear E'.
  assert (Hv : Float64.valid (S754_finite false m e) = true).
  { rewrite <- (pack_float_valid false _ Hc). unfold pack_float. cbn [fst snd].
    now replace (e <=? 971) with true by (symmetry; lia). }
  unfold Float64.sixty. rewrite mul_finite_spec by (assumption || reflexivity).
  cbn [xorb].
  set (d := Zdigits2 n) in *.
  destruct (int_pair_exact (60 * n) ltac:(lia)) as (_ & Hc60 & HD).
  set (D := Zdigits2 (60 * n)) in *.
  assert (HdD : d <= D) by (apply Zdigits2_le; lia).
  replace (4 * (Z.pos m * Z.pos 8444249301319680))
    with (4 * (60 * n * 2 ^ (100 - d))).
  2:{ rewrite Em. change (Z.pos 8444249301319680) with (60 * 2 ^ 47).
      replace (100 - d) with (53 - d + 47) by lia.
      rewrite Z.pow_add_r by lia. ring. }
  replace (e + -47) with (- (100 - d)) by lia.
  rewrite round_mant_int by (fold D; lia). fold D.
  assert (HP : 0 < 2 ^ (53 - D)) by (apply Z.pow_pos_nonneg; lia).
  unfold pack_float. cbn [fst snd].
  destruct (60 * n * 2 ^ (53 - D)) as [|p|p] eqn:Ep; try nia.
  replace (D - 53 <=? 971) with true by (symmetry; lia).
  unfold Float64.to_int. f_equal.
  destruct (Z.leb_spec 0 (D - 53)) as [H0|H0].
  - assert (ED : D = 53) by lia. rewrite ED in *.
    change (53 - 53) with 0 in *. rewrite Z.shiftl_0_r, <- Ep.
    change (2 ^ 0) with 1. lia.
  - rewrite Z.shiftr_div_pow2 by lia. rewrite <- Ep.
    replace (- (D - 53)) with (53 - D) by lia.
    apply Z.div_mul. lia.
Qed.

(* ------------------------------------------------------------------ *)
(** * The order of a stable sort *)

Section Stable.
Context {A K : Type} (key : A -> K) (lt : K -> K -> bool).

Lemma insert_by_filter (sel : A -> bool) x l :
  (forall y, In y l -> sel y = true -> sel x = true -> lt (key y) (key x) = false) ->
  filter sel (insert_by key lt x l) = filter sel (x :: l).
Proof.
  induction l as [|y l IH]; intros Htie; [reflexivity|].
  cbn [insert_by]. destruct (lt (key y) (key x)) eqn:E; [|reflexivity].
  cbn [filter]. rewrite IH by (intros z Hz; apply Htie; now right).
  cbn [filter]. destruct (sel x) eqn:Ex; [|reflexivity].
  destruct (sel y) eqn:Ey; [|reflexivity].
  rewrite (Htie y (or_introl eq_refl) Ey eq_refl) in E. discriminate.
Qed.

Lemma list_sort_filter (sel : A -> bool) l :
  (forall x y, In x l -> In y l -> sel x = true -> sel y = true ->
     lt (key x) (key y) = false) ->
  filter sel (list_sort key lt l) = filter sel l.
Proof.
  induction l as [|x l IH]; intros Htie; [reflexivity|].
  cbn [list_sort]. rewrite insert_by_filter.
  - cbn [filter]. rewrite IH; [reflexivity|].
    intros a b Ha Hb. apply Htie; now right.
  - intros y Hy Hsy Hsx. apply Htie; [right | now left | assumption | assumption].
    eapply Permutation_in; [apply (list_sort_perm key lt) | exact Hy].
Qed.

End Stable.

Section SortMore.
Variable today : Z.
Variable strptime_date : string -> option Z.

Local Abbreviation score_of := (compute_score today strptime_date).


End SortMore.

(* ------------------------------------------------------------------ *)
(** * The task list of the index page *)

Lemma not_ltb_trans s1 s2 s3 :
  String.ltb s2 s1 = false -> String.ltb s3 s2 = false -> String.ltb s3 s1 = false.
Proof.
  intros H12 H23. destruct (String.ltb s3 s1) eqn:E; [|reflexivity].
  destruct (string_dec s1 s2) as [->|N12]; [congruence|].
  destruct (string_dec s2 s3) as [->|N23]; [congruence|].
  pose proof (string_ltb_total _ _ H12 (not_eq_sym N12)) as L12.
  pose proof (string_ltb_total _ _ H23 (not_eq_sym N23)) as L23.
  pose proof (string_ltb_trans _ _ _ L12 L23) as L13.
  apply string_ltb_asym in L13. congruence.
Qed.

(** X17 (index page).  The index page lists exactly the stored tasks,
    each as often as it is stored, by ascending deadline string with
    9999-12-31 standing for a missing or empty deadline; tasks of equal
    key keep their stored order, and a missing file gives the empty
    list. *)
Theorem index_sorted_by_deadline f :
  Permutation (index f) (load_tasks f)
  /\ StronglySorted (fun a b => String.ltb (record_key b) (record_key a) = false) (index f)
  /\ (forall d, filter (fun r => String.eqb (record_key r) d) (index f)
                = filter (fun r => String.eqb (record_key r) d) (load_tasks f))
  /\ (f = None -> index f = []).
Proof.
  unfold index. split; [apply list_sort_perm|]. split; [|split].
  - apply (Sorted_strongly _ (fun _ => True)).
    + intros x y z _ _ _. apply not_ltb_trans.
    + apply Forall_forall. intros; exact I.
    + apply (list_sort_sorted record_key String.ltb). exact string_ltb_asym.
  - intros d. apply list_sort_filter.
    intros x y _ _ Hx Hy. apply String.eqb_eq in Hx, Hy. rewrite Hx, Hy.
    apply string_ltb_irrefl.
  - intros ->. reflexivity.
Qed.

(* ------------------------------------------------------------------ *)
(** * Removing and adding tasks *)

Lemma to_int_not_nil n :
  Z.to_int n <> Decimal.Pos Decimal.Nil /\ Z.to_int n <> Decimal.Neg Decimal.Nil.
Proof.
  split; intros H; pose proof (DecimalZ.of_to n) as Hn; rewrite H in Hn;
    simpl in Hn; subst n; discriminate.
Qed.

Lemma str_of_int_inj a b : str_of_int a = str_of_int b -> a = b.
Proof.
  unfold str_of_int. intros H.
  apply (f_equal DecimalString.NilZero.int_of_string) in H.
  destruct (to_int_not_nil a) as (Ha1 & Ha2), (to_int_not_nil b) as (Hb1 & Hb2).
  rewrite !DecimalString.NilZero.isi in H by assumption.
  injection H as H. apply (f_equal Z.of_int) in H.
  now rewrite !DecimalZ.of_to in H.
Qed.

Lemma str_of_int_eqb a b : String.eqb (str_of_int a) (str_of_int b) = (a =? b).
Proof.
  destruct (Z.eqb_spec a b) as [->|N]; [apply String.eqb_refl|].
  apply String.eqb_neq. intros H. now apply N, str_of_int_inj.
Qed.

Lemma filter_length_le {A : Type} (p : A -> bool) l :
  (List.length (filter p l) <= List.length l)%nat.
Proof. induction l as [|x l IH]; simpl; [lia|]. destruct (p x); simpl; lia. Qed.

Lemma filter_split_length {A : Type} (p : A -> bool) l :
  Z.of_nat (List.length l) - Z.of_nat (List.length (filter (fun x => negb (p x)) l))
  = Z.of_nat (List.length (filter p l)).
Proof.
  induction l as [|x l IH]; [reflexivity|].
  cbn [filter]. destruct (p x); cbn [negb List.length]; lia.
Qed.

Lemma filter_by_decimal i l :
  filter (fun t => negb (String.eqb (str_of_int (r_id t)) (str_of_int i))) l
  = filter (fun r => negb (r_id r =? i)) l.
Proof. apply filter_ext. intros r. now rewrite str_of_int_eqb. Qed.

(** X18 (removing by id).  Asked to remove the decimal writing of an
    integer, [remove_task] writes the stored list without the records of
    that id, the others kept in their order, and reports how many records
    had the id: all of them are removed, not only the first. *)
Theorem remove_task_by_id i f :
  remove_task (str_of_int i) f
  = (Some (filter (fun r => negb (r_id r =? i)) (load_tasks f)),
     flash_removed (Z.of_nat (List.length (filter (fun r => r_id r =? i) (load_tasks f))))).
Proof.
  unfold remove_task, save_tasks. rewrite filter_by_decimal.
  now rewrite (filter_split_length (fun r => r_id r =? i)).
Qed.

(** X19 (removing an unknown id).  When no stored record has an id whose
    decimal writing is the requested string, [remove_task] reports zero
    removals and writes the stored list back unchanged, creating the file
    if it was missing. *)
Theorem remove_task_unknown_id task_id f :
  Forall (fun r => str_of_int (r_id r) <> task_id) (load_tasks f) ->
  remove_task task_id f = (Some (load_tasks f), flash_removed 0).
Proof.
  intros H. unfold remove_task, save_tasks.
  assert (E : filter (fun t => negb (String.eqb (str_of_int (r_id t)) task_id))
                     (load_tasks f) = load_tasks f).
  { induction H as [|r l Hr _ IH]; [reflexivity|]. simpl.
    apply String.eqb_neq in Hr. rewrite Hr. simpl. now rewrite IH. }
  rewrite E. now rewrite Z.sub_diag.
Qed.

Section RoutesMore.
Variable strip : string -> string.
Variable int_of_str : string -> option Z.
Variable float_of_str : string -> option Float64.float.
Variable now_ms : Z.

Local Abbreviation add := (add_task strip int_of_str float_of_str now_ms).

(** X20 (adding a task).  [add_task] either rejects the form, leaving the
    file as it was, or appends one record after the stored ones, which it
    keeps unchanged.  The record has the timestamp as id, the stripped
    title, which is not empty, the integer and the float read from the
    stripped minutes and impact, and a deadline that is absent or a
    non-empty string; the sign of the minutes is not examined. *)
Theorem add_task_appends_or_rejects fm f :
  (fst (add fm f) = f
   /\ (snd (add fm f) = flash_required \/ snd (add fm f) = flash_not_numeric))
  \/ (exists r,
        add fm f = (Some (load_tasks f ++ [r]), flash_added (title (r_task r)))
        /\ r_id r = now_ms
        /\ title (r_task r) = strip (form_get fm "title" EmptyString)
        /\ title (r_task r) <> EmptyString
        /\ int_of_str (strip (form_get fm "minutes" EmptyString))
           = Some (minutes (r_task r))
        /\ float_of_str (strip (form_get fm "impact" EmptyString))
           = Some (impact (r_task r))
        /\ deadline (r_task r) = or_none (strip (form_get fm "deadline" EmptyString))
        /\ deadline (r_task r) <> Some EmptyString
        /\ r_notes r = strip (form_get fm "notes" EmptyString)).
Proof.
  unfold add_task.
  destruct (is_empty (strip (form_get fm "title" EmptyString))) eqn:Et;
    [left; simpl; auto|].
  destruct (is_empty (strip (form_get fm "minutes" EmptyString))
            || is_empty (strip (form_get fm "impact" EmptyString))) eqn:Em;
    cbn [orb]; rewrite Em; [left; simpl; auto|].
  destruct (int_of_str (strip (form_get fm "minutes" EmptyString))) as [n|] eqn:En;
    [|left; simpl; auto].
  destruct (float_of_str (strip (form_get fm "impact" EmptyString))) as [x|] eqn:Ex;
    [|left; simpl; auto].
  right.
  exists {| r_id := now_ms;
            r_task := {| title := strip (form_get fm "title" EmptyString);
                         minutes := n; impact := x;
                         deadline := or_none (strip (form_get fm "deadline" EmptyString)) |};
            r_notes := strip (form_get fm "notes" EmptyString) |}.
  cbn [r_id r_task r_notes title minutes impact deadline].
  split; [reflexivity|]. split; [reflexivity|]. split; [reflexivity|].
  split; [intros H; rewrite H in Et; discriminate|].
  split; [reflexivity|]. split; [reflexivity|]. split; [reflexivity|].
  split; [|reflexivity].
  destruct (strip (form_get fm "deadline" EmptyString)); discriminate.
Qed.

(** X21 (add, then remove).  After an accepted [add_task] on a store in
    which no record has the new id, removing the decimal writing of that
    id removes exactly one record and leaves the list that was stored
    before the addition. *)
Theorem add_then_remove fm f t :
  Forall (fun r => r_id r <> now_ms) (load_tasks f) ->
  snd (add fm f) = flash_added t ->
  remove_task (str_of_int now_ms) (fst (add fm f))
  = (Some (load_tasks f), flash_removed 1).
Proof.
  intros Hfresh Hadd.
  assert (Hkeep : filter (fun r => negb (r_id r =? now_ms)) (load_tasks f) = load_tasks f).
  { induction Hfresh as [|r l Hr _ IH]; [reflexivity|]. simpl.
    apply Z.eqb_neq in Hr. rewrite Hr. simpl. now rewrite IH. }
  unfold add_task in *.
  destruct (is_empty _ || is_empty _ || is_empty _); [discriminate|].
  destruct (int_of_str _); [|discriminate].
  destruct (float_of_str _); [|discriminate].
  cbn [fst]. unfold remove_task, save_tasks.
  change (load_tasks (Some ?l)) with l.
  rewrite filter_by_decimal, filter_app, Hkeep. cbn [filter r_id].
  rewrite Z.eqb_refl. cbn [negb]. rewrite app_nil_r, length_app. cbn [List.length].
  f_equal. f_equal. lia.
Qed.

End RoutesMore.

(* ------------------------------------------------------------------ *)
(** * The further properties on the concrete day *)

Lemma blocks_show_tasks_in_order_witness :
  exists sorted placed,
    score_and_sort Demo.today PyLib.strptime_date [Demo.report; Demo.review] 7 = Ok sorted
    /\ subsequence placed (map task sorted)
    /\ Forall2 (block_shows true) [Demo.review_block; Demo.report_part] placed.
Proof.
  apply (blocks_show_tasks_in_order Demo.today PyLib.strptime_date PyLib.int_of_str
           [Demo.report; Demo.review] eight "09:00" true 7).
  reflexivity.
Defined.

Lemma split_fills_budget_witness :
  sum_minutes [Demo.review_block; Demo.report_part]
  = Z.min 480 (task_minutes [Demo.report; Demo.review]).
Proof.
  apply (split_fills_budget Demo.today PyLib.strptime_date PyLib.int_of_str
           [Demo.report; Demo.review] eight "09:00" 7).
  - repeat constructor; simpl; lia.
  - lia.
  - reflexivity.
  - reflexivity.
Defined.

Lemma unplaced_tasks_do_not_fit_witness :
  exists placed left_out,
    Permutation (placed ++ left_out) [Demo.report; Demo.review]
    /\ Forall2 (block_shows false) [Demo.review_block] placed
    /\ Forall (fun t => 480 - sum_minutes [Demo.review_block] < minutes t) left_out.
Proof.
  apply (unplaced_tasks_do_not_fit Demo.today PyLib.strptime_date PyLib.int_of_str
           [Demo.report; Demo.review] eight "09:00" 7).
  - repeat constructor; simpl; lia.
  - reflexivity.
  - reflexivity.
Defined.

Lemma nothing_to_schedule_witness :
  Demo.run [Demo.report; Demo.review] Float64.zero "25:61" true 7 = Ok [].
Proof.
  eapply (nothing_to_schedule Demo.today PyLib.strptime_date PyLib.int_of_str
            [Demo.report; Demo.review] Float64.zero "25:61" true 7).
  - reflexivity.
  - reflexivity.
  - exists 25, 61. reflexivity.
  - left. lia.
Defined.

Lemma scoring_error_fails_run_witness :
  exists t' e',
    In t' [Demo.report; Demo.century]
    /\ Demo.score_of t' 7 = Raise e'
    /\ Demo.run [Demo.report; Demo.century] eight "09:00" false 7 = Raise e'.
Proof.
  apply (scoring_error_fails_run Demo.today PyLib.strptime_date PyLib.int_of_str
           [Demo.report; Demo.century] eight "09:00" false 7 Demo.century OverflowError).
  - right. left. reflexivity.
  - vm_compute. reflexivity.
Defined.


Lemma remove_task_unknown_id_witness :
  remove_task "07" (Some [DemoStore.stored_call; DemoStore.stored_report])
  = (Some [DemoStore.stored_call; DemoStore.stored_report], flash_removed 0).
Proof.
  apply (remove_task_unknown_id "07"
           (Some [DemoStore.stored_call; DemoStore.stored_report])).
  repeat constructor; discriminate.
Defined.

Lemma add_then_remove_witness :
  remove_task (str_of_int 1793700001234)
    (fst (DemoStore.add 1793700001234 DemoStore.call_form
            (Some [DemoStore.stored_report; DemoStore.stored_review])))
  = (Some [DemoStore.stored_report; DemoStore.stored_review], flash_removed 1).
Proof.
  apply (add_then_remove PyStr.strip PyLib.int_of_str PyStr.float_of_str 1793700001234
           DemoStore.call_form
           (Some [DemoStore.stored_report; DemoStore.stored_review]) "call").
  - repeat constructor; discriminate.
  - reflexivity.
Defined.

Lemma format_time_round_trip_witness :
  parse_start PyLib.int_of_str (format_time {| hour := 9; minute := 5 |}) = Ok (9, 5)
  /\ (forall t', valid_time t' ->
        format_time t' = format_time {| hour := 9; minute := 5 |} ->
        t' = {| hour := 9; minute := 5 |}).
Proof.
  apply (format_time_round_trip {| hour := 9; minute := 5 |}).
  unfold valid_time. simpl. lia.
Defined.

Lemma format_time_order_witness :
  String.ltb (format_time {| hour := 9; minute := 59 |})
             (format_time {| hour := 10; minute := 0 |}) = true
  <-> minute_of_day {| hour := 9; minute := 59 |}
      < minute_of_day {| hour := 10; minute := 0 |}.
Proof.
  apply (format_time_order {| hour := 9; minute := 59 |} {| hour := 10; minute := 0 |}).
  - unfold valid_time. simpl. lia.
  - unfold valid_time. simpl. lia.
Defined.

Lemma block_times_on_the_clock_witness :
  Forall (fun b => exists s e,
            valid_time s /\ valid_time e
            /\ b_start b = format_time s /\ b_end b = format_time e
            /\ parse_start PyLib.int_of_str (b_start b) = Ok (hour s, minute s)
            /\ parse_start PyLib.int_of_str (b_end b) = Ok (hour e, minute e)
            /\ minute_of_day e = (minute_of_day s + b_minutes b) mod 1440)
         [Demo.late_report_block].
Proof.
  apply (block_times_on_the_clock Demo.today PyLib.strptime_date PyLib.int_of_str
           [Demo.report] eight "20:00" false 7).
  reflexivity.
Defined.

Lemma zero_window_raises_witness :
  Demo.score_of Demo.review 0 = Raise ZeroDivisionError
  /\ (forall tasks hours start allow_split,
        In Demo.review tasks -> exists e, Demo.run tasks hours start allow_split 0 = Raise e).
Proof.
  apply (zero_window_raises Demo.today PyLib.strptime_date PyLib.int_of_str
           Demo.review "2026-11-05" 739925).
  - reflexivity.
  - discriminate.
  - reflexivity.
Defined.

Lemma scores_are_numbers_witness :
  Forall score_defined
    [ {| task := Demo.review; score := S754_finite false 6588122883467698 (-60) |};
      {| task := Demo.report; score := S754_finite false 7686143364045647 (-61) |} ]
  /\ StronglySorted ranks_before
    [ {| task := Demo.review; score := S754_finite false 6588122883467698 (-60) |};
      {| task := Demo.report; score := S754_finite false 7686143364045647 (-61) |} ].
Proof.
  apply (scores_are_numbers Demo.today PyLib.strptime_date [Demo.report; Demo.review] 7).
  - unfold Demo.today. lia.
  - lia.
  - constructor; [|constructor; [|constructor]].
    + split; [reflexivity|]. intros s x H. discriminate H.
    + split; [reflexivity|]. intros s x H Hx. injection H as <-.
      vm_compute in Hx. injection Hx as <-. unfold max_ordinal. lia.
  - reflexivity.
Defined.

Lemma split_schedules_a_prefix_witness :
  exists sorted,
    score_and_sort Demo.today PyLib.strptime_date [Demo.report; Demo.review] 7 = Ok sorted
    /\ Forall2 (block_shows true) [Demo.review_block; Demo.report_part]
               (firstn (List.length [Demo.review_block; Demo.report_part])
                       (map task sorted)).
Proof.
  apply (split_schedules_a_prefix Demo.today PyLib.strptime_date PyLib.int_of_str
           [Demo.report; Demo.review] eight "09:00" 7).
  reflexivity.
Defined.

Lemma split_never_schedules_less_witness :
  sum_minutes [Demo.review_block] <= sum_minutes [Demo.review_block; Demo.report_part].
Proof.
  apply (split_never_schedules_less Demo.today PyLib.strptime_date PyLib.int_of_str
           [Demo.report; Demo.review] eight "09:00" 7).
  - repeat constructor; simpl; lia.
  - reflexivity.
  - reflexivity.
Defined.

Lemma whole_hours_budget_witness :
  exists hours,
    Float64.of_int 8 = Ok hours
    /\ Float64.to_int (Float64.mul hours Float64.sixty) = Ok (60 * 8).
Proof.
  apply (whole_hours_budget 8).
  - lia.
  - reflexivity.
Defined.

Lemma score_antitone_in_minutes_witness :
  match Demo.score_of (with_minutes Demo.review 30) 7,
        Demo.score_of (with_minutes Demo.review 300) 7 with
  | Ok v1, Ok v2 => Float64.leb v2 v1 = true
  | Ok _, Raise e => e = OverflowError /\ max_convertible < 300
  | Raise e1, Raise e2 => e1 = e2
  | Raise _, Ok _ => False
  end.
Proof.
  apply (score_antitone_in_minutes Demo.today PyLib.strptime_date Demo.review 7 30 300).
  - unfold Demo.today. lia.
  - lia.
  - intros s x H Hx. injection H as <-.
    vm_compute in Hx. injection Hx as <-. unfold max_ordinal. lia.
  - reflexivity.
  - reflexivity.
  - lia.
Defined.

Lemma score_monotone_in_impact_witness :
  match Demo.score_of (with_impact Demo.review Float64.one) 7,
        Demo.score_of (with_impact Demo.review Float64.two) 7 with
  | Ok v1, Ok v2 => Float64.leb v1 v2 = true
  | Raise e1, Raise e2 => e1 = e2
  | _, _ => False
  end.
Proof.
  apply (score_monotone_in_impact Demo.today PyLib.strptime_date Demo.review 7
           Float64.one Float64.two).
  - unfold Demo.today. lia.
  - lia.
  - intros s x H Hx. injection H as <-.
    vm_compute in Hx. injection Hx as <-. unfold max_ordinal. lia.
  - reflexivity.
  - reflexivity.
  - reflexivity.
  - reflexivity.
Defined.
